(** * The reach training sequencer: sessions, trials and the Raspberry Pi boards

    A shallow embedding of [reach/session.py], [reach/raspberry.py] and of the
    terminal restoring part of [reach/curses.py].  Python objects become
    records, the session's [data] dict a finite map from keys to Python
    values, and every method a computation in a state-and-exception monad
    whose state also holds the environment (wall clock, asynchronous signals,
    random draws) and a log of the calls made to the board. *)

From Stdlib Require Import ZArith QArith Qminmax Qround Qreduction Qfield List Lia String.
From stdpp Require Import base option gmap strings list.

Set Warnings "-register-all".
Open Scope Z_scope.

(** ** Python values *)

Inductive pyval : Type :=
  | PNone
  | PBool (b : bool)
  | PInt (z : Z)
  | PFloat (q : Q)
  | PStr (s : string)
  | PList (l : list pyval).

Inductive exn : Type :=
  | KeyError (k : string)
  | TypeError
  | ValueError
  | IndexError
  | AttributeError
  | RuntimeError
  | ZeroDivisionError
  | KeyboardInterrupt
  | OutOfFuel.

Inductive res (A : Type) : Type :=
  | Ok (a : A)
  | Raise (e : exn).
Arguments Ok {A} a.
Arguments Raise {A} e.

(** Truth value of a Python object, as tested by [if], [while] and [not]. *)
Definition truthy (v : pyval) : bool :=
  match v with
  | PNone => false
  | PBool b => b
  | PInt z => negb (z =? 0)
  | PFloat q => negb (Qeq_bool q 0)
  | PStr s => negb (String.eqb s "")
  | PList l => match l with [] => false | _ => true end
  end.

(** [l[i]] on a Python list: negative indices count from the end. *)
Definition py_nth {A} (l : list A) (i : Z) : option A :=
  if 0 <=? i then l !! Z.to_nat i
  else if 0 <=? Z.of_nat (length l) + i then l !! Z.to_nat (Z.of_nat (length l) + i)
  else None.

(** [l[i] = x], for an index already known to be in range. *)
Definition py_set_nth {A} (l : list A) (i : Z) (x : A) : list A :=
  if 0 <=? i then <[Z.to_nat i := x]> l
  else <[Z.to_nat (Z.of_nat (length l) + i) := x]> l.

(** [l[:n]]. *)
Definition py_slice_to {A} (l : list A) (n : Z) : list A :=
  if 0 <=? n then take (Z.to_nat n) l
  else take (Z.to_nat (Z.of_nat (length l) + n)) l.

(** [l.index(x)] on a list of integers. *)
Fixpoint py_index (l : list Z) (x : Z) : option Z :=
  match l with
  | [] => None
  | y :: l' => if y =? x then Some 0 else option_map Z.succ (py_index l' x)
  end.

(** ** Objects *)

(** One entry of [_PIN_NUMBERS['spouts']], with the two lists that
    [_initialise_pins] adds to it. *)
Record Spout : Type := mkSpout {
  cue : Z;
  touch : Z;
  solenoid : Z;
  cue_timepoints : list Q;
  touch_timepoints : list Q
}.

Inductive board : Type := RPiReal | RPiMock.

Record RPi : Type := mkRPi {
  board_of : board;
  _button_pins : list Z;
  paw_pins : list Z;
  spouts : list Spout;
  lift_timepoints : list (list Q);
  _pin_states : list Z
}.

Record Session : Type := mkSession {
  data : gmap string pyval;
  _outcome : Z;
  _iti_broken : bool;
  _current_spout : option Z;
  _water_at_cue_onset : pyval;
  _rpi : option RPi;
  _reward_count : Z;
  spont_reach_spouts : list Z
}.

(** The functions that the code hands over as callbacks. *)
Inductive callback : Type :=
  | reset_iti_callback
  | increase_spont_reaches_callback
  | reverse_shaping_callback
  | reward_callback
  | incorrect_grasp_callback
  | record_lift_timepoints.

Inductive sighandler : Type :=
  | default_int_handler
  | rpi_cleanup_handler
  | end_session_manually_handler.

(** ** The RPi.GPIO library

    Modelled from the library's documented behaviour (RPi.GPIO is imported by
    [raspberry.py], it is not part of the repository): channels must be set up
    after [setmode] and before use, [output] needs an output channel, event
    detection needs an input channel without one already, and [cleanup]
    returns every channel to an unconfigured input and forgets the numbering
    mode. *)

Inductive direction : Type := IN | OUT.
Inductive edge : Type := RISING | FALLING.

Record GPIO : Type := mkGPIO {
  mode_set : bool;
  channels : gmap Z direction;
  outputs : gmap Z bool;
  detect : gmap Z (edge * callback)
}.

(** ** The environment *)

(** A signal is an edge of a pin as the library detects it (an edge that
    falls within the bounce time of a detection on the same pin is not
    detected, and is not a signal), or a SIGINT. *)
Inductive signal : Type :=
  | Edge (e : edge) (pin : Z)
  | Sigint.

(** What happens while the program is blocked once, in [time.sleep] or in
    [GPIO.wait_for_edge]: the signals that arrive, each with the instant it
    arrives at, and by how much the wake-up is late.  Signals arrive during
    blocking calls only: a SIGINT that Python would handle between two other
    statements of the sequencer, or a callback that the library would run on
    its own thread meanwhile, is taken when the sequencer blocks next. *)
Record tick : Type := mkTick {
  fired : list (Q * signal);
  late : Q
}.

Record World : Type := mkWorld {
  clock : Q;
  script : list tick;
  entropy : list N;
  levels : gmap Z bool;
  is_raspberry_pi : bool;
  utc_offset : Z
}.

(** Calls made on the board, callbacks fired by the library and lines printed,
    in order.  The line that announces a count-down shows its duration; the
    log keeps the instant it starts at as well. *)
Inductive event : Type :=
  | ENew (b : board) (spout_count : pyval)
  | EWaitToStart
  | EMonitorSensors
  | ESetButtonCallback (button : Z)
  | EWaitForRest
  | EDisableSensors
  | EStartTrial (spout : option Z)
  | ESuccessfulGrasp (spout : option Z)
  | EIncorrectGrasp (spout : option Z)
  | EDispenseWater (spout : option Z)
  | EEndTrial
  | ECleanup
  | ESleep (seconds : Q)
  | EThreadSleep (seconds : Q)
  | EStartingTrial (trial_count : Z)
  | ECountingDown (now iti_duration : Q)
  | EFire (cb : callback) (pin : Z)
  | EPrint (line : string)
  | ECollate (manual : bool)
  | EResults (trial_count reward_count : Z)
  | ESettings (spout_count duration cue_duration_ms iti_min iti_max shaping : pyval)
  | ETotalRewards (reward_count : Z).

Record St : Type := mkSt {
  session : Session;
  gpio : GPIO;
  world : World;
  sigint : sighandler;
  log : list event
}.

(** *** Field updates *)

Definition with_session (f : Session -> Session) (s : St) : St :=
  mkSt (f (session s)) (gpio s) (world s) (sigint s) (log s).
Definition with_gpio (f : GPIO -> GPIO) (s : St) : St :=
  mkSt (session s) (f (gpio s)) (world s) (sigint s) (log s).
Definition with_world (f : World -> World) (s : St) : St :=
  mkSt (session s) (gpio s) (f (world s)) (sigint s) (log s).
Definition set_sigint (h : sighandler) (s : St) : St :=
  mkSt (session s) (gpio s) (world s) h (log s).
Definition emit (e : event) (s : St) : St :=
  mkSt (session s) (gpio s) (world s) (sigint s) (log s ++ [e]).

Definition set_data (d : gmap string pyval) (x : Session) : Session :=
  mkSession d (_outcome x) (_iti_broken x) (_current_spout x)
    (_water_at_cue_onset x) (_rpi x) (_reward_count x) (spont_reach_spouts x).
Definition set_outcome (o : Z) (x : Session) : Session :=
  mkSession (data x) o (_iti_broken x) (_current_spout x)
    (_water_at_cue_onset x) (_rpi x) (_reward_count x) (spont_reach_spouts x).
Definition set_iti_broken (b : bool) (x : Session) : Session :=
  mkSession (data x) (_outcome x) b (_current_spout x)
    (_water_at_cue_onset x) (_rpi x) (_reward_count x) (spont_reach_spouts x).
Definition set_current_spout (c : option Z) (x : Session) : Session :=
  mkSession (data x) (_outcome x) (_iti_broken x) c
    (_water_at_cue_onset x) (_rpi x) (_reward_count x) (spont_reach_spouts x).
Definition set_water_at_cue_onset (w : pyval) (x : Session) : Session :=
  mkSession (data x) (_outcome x) (_iti_broken x) (_current_spout x)
    w (_rpi x) (_reward_count x) (spont_reach_spouts x).
Definition set_rpi (r : option RPi) (x : Session) : Session :=
  mkSession (data x) (_outcome x) (_iti_broken x) (_current_spout x)
    (_water_at_cue_onset x) r (_reward_count x) (spont_reach_spouts x).
Definition set_reward_count (c : Z) (x : Session) : Session :=
  mkSession (data x) (_outcome x) (_iti_broken x) (_current_spout x)
    (_water_at_cue_onset x) (_rpi x) c (spont_reach_spouts x).
Definition set_spont_reach_spouts (l : list Z) (x : Session) : Session :=
  mkSession (data x) (_outcome x) (_iti_broken x) (_current_spout x)
    (_water_at_cue_onset x) (_rpi x) (_reward_count x) l.

Definition set_spouts (l : list Spout) (r : RPi) : RPi :=
  mkRPi (board_of r) (_button_pins r) (paw_pins r) l (lift_timepoints r) (_pin_states r).
Definition set_lift_timepoints (l : list (list Q)) (r : RPi) : RPi :=
  mkRPi (board_of r) (_button_pins r) (paw_pins r) (spouts r) l (_pin_states r).
Definition set_pin_states (l : list Z) (r : RPi) : RPi :=
  mkRPi (board_of r) (_button_pins r) (paw_pins r) (spouts r) (lift_timepoints r) l.

Definition set_cue_timepoints (l : list Q) (p : Spout) : Spout :=
  mkSpout (cue p) (touch p) (solenoid p) l (touch_timepoints p).
Definition set_touch_timepoints (l : list Q) (p : Spout) : Spout :=
  mkSpout (cue p) (touch p) (solenoid p) (cue_timepoints p) l.

Definition set_clock (t : Q) (w : World) : World :=
  mkWorld t (script w) (entropy w) (levels w) (is_raspberry_pi w) (utc_offset w).
Definition set_script (l : list tick) (w : World) : World :=
  mkWorld (clock w) l (entropy w) (levels w) (is_raspberry_pi w) (utc_offset w).
Definition set_entropy (l : list N) (w : World) : World :=
  mkWorld (clock w) (script w) l (levels w) (is_raspberry_pi w) (utc_offset w).
Definition set_levels (l : gmap Z bool) (w : World) : World :=
  mkWorld (clock w) (script w) (entropy w) l (is_raspberry_pi w) (utc_offset w).

(** ** The monad of statements *)

Definition M (A : Type) : Type := St -> St * res A.

Definition ret {A} (a : A) : M A := fun s => (s, Ok a).
Definition raise {A} (e : exn) : M A := fun s => (s, Raise e).
Definition bind {A B} (m : M A) (k : A -> M B) : M B :=
  fun s => match m s with
           | (s', Ok a) => k a s'
           | (s', Raise e) => (s', Raise e)
           end.
Definition gets {A} (f : St -> A) : M A := fun s => (s, Ok (f s)).
Definition modify (f : St -> St) : M unit := fun s => (f s, Ok tt).

Declare Scope py_scope.
Delimit Scope py_scope with py.
Notation "x <- c1 ;; c2" := (bind c1 (fun x => c2))
  (at level 100, c1 at next level, right associativity) : py_scope.
Notation "c1 ;; c2" := (bind c1 (fun _ => c2))
  (at level 100, right associativity) : py_scope.
Open Scope py_scope.

Definition some_or {A} (e : exn) (o : option A) : M A :=
  match o with Some a => ret a | None => raise e end.

(** A callback run by the library's event thread: what it raises is printed
    there and goes no further. *)
Definition swallow (m : M unit) : M unit :=
  fun s => (fst (m s), Ok tt).

Definition when (b : bool) (m : M unit) : M unit :=
  if b then m else ret tt.

Fixpoint for_each {A} (l : list A) (body : A -> M unit) : M unit :=
  match l with
  | [] => ret tt
  | x :: l' => body x ;; for_each l' body
  end.

Definition say (e : event) : M unit := modify (emit e).

(** ** Reading the session's [data] and doing arithmetic on its values *)

Definition as_num (v : pyval) : option Q :=
  match v with
  | PBool b => Some (if b then 1%Q else 0%Q)
  | PInt z => Some (inject_Z z)
  | PFloat q => Some q
  | _ => None
  end.

Definition as_int (v : pyval) : option Z :=
  match v with
  | PBool b => Some (if b then 1 else 0)
  | PInt z => Some z
  | _ => None
  end.

Definition the_session : M Session := gets session.
Definition the_data : M (gmap string pyval) := gets (fun s => data (session s)).

(** [self.data[k]] *)
Definition data_get (k : string) : M pyval :=
  d <- the_data ;; some_or (KeyError k) (d !! k).

(** [self.data[k] = v] *)
Definition data_set (k : string) (v : pyval) : M unit :=
  modify (with_session (fun x => set_data (<[k := v]> (data x)) x)).

Definition num_of (v : pyval) : M Q := some_or TypeError (as_num v).
Definition list_of (v : pyval) : M (list pyval) :=
  match v with PList l => ret l | _ => raise TypeError end.

(** [self._rpi], an [AttributeError] on [None] once a method is called on it. *)
Definition the_rpi : M RPi :=
  x <- the_session ;; some_or AttributeError (_rpi x).

Definition update_rpi (f : RPi -> RPi) : M unit :=
  modify (with_session (fun x => set_rpi (option_map f (_rpi x)) x)).

(** ** Wall clock and random numbers *)

(** [time.time()] *)
Definition time_time : M Q := gets (fun s => clock (world s)).

Definition next_draw : M N :=
  w <- gets world ;;
  match entropy w with
  | [] => ret 0%N
  | r :: rs => modify (with_world (set_entropy rs)) ;; ret r
  end.

(** [random.random()]: a multiple of 2^-53 in [0, 1). *)
Definition two53 : positive := 9007199254740992.
Definition unit_fraction (r : N) : Q := Z.of_N r mod Z.pos two53 # two53.

(** [random.randint(a, b)] *)
Definition random_randint (a b : Z) : M Z :=
  if b <? a then raise ValueError
  else r <- next_draw ;; ret (a + Z.of_N r mod (b - a + 1)).

(** [random.uniform(a, b)], that is [a + (b - a) * random()]. *)
Definition random_uniform (a b : Q) : M Q :=
  r <- next_draw ;; ret (a + (b - a) * unit_fraction r)%Q.

Module GPIO.

Definition the_gpio : M GPIO := gets gpio.

Definition numbered : M unit :=
  g <- the_gpio ;; if mode_set g then ret tt else raise RuntimeError.

Definition setmode : M unit :=
  modify (with_gpio (fun g => mkGPIO true (channels g) (outputs g) (detect g))).

Definition setup (pin : Z) (d : direction) (initial : bool) : M unit :=
  numbered ;;
  modify (with_gpio (fun g =>
    mkGPIO (mode_set g) (<[pin := d]> (channels g))
      (match d with OUT => <[pin := initial]> (outputs g) | IN => outputs g end)
      (detect g))).

Definition output (pin : Z) (v : bool) : M unit :=
  numbered ;;
  g <- the_gpio ;;
  match channels g !! pin with
  | Some OUT =>
      modify (with_gpio (fun g =>
        mkGPIO (mode_set g) (channels g) (<[pin := v]> (outputs g)) (detect g)))
  | _ => raise RuntimeError
  end.

Definition input (pin : Z) : M bool :=
  numbered ;;
  g <- the_gpio ;;
  match channels g !! pin with
  | Some OUT => ret (default false (outputs g !! pin))
  | Some IN => w <- gets world ;; ret (default false (levels w !! pin))
  | None => raise RuntimeError
  end.

Definition add_event_detect (pin : Z) (e : edge) (cb : callback) : M unit :=
  numbered ;;
  g <- the_gpio ;;
  match channels g !! pin, detect g !! pin with
  | Some IN, None =>
      modify (with_gpio (fun g =>
        mkGPIO (mode_set g) (channels g) (outputs g) (<[pin := (e, cb)]> (detect g))))
  | _, _ => raise RuntimeError
  end.

Definition remove_event_detect (pin : Z) : M unit :=
  numbered ;;
  modify (with_gpio (fun g =>
    mkGPIO (mode_set g) (channels g) (outputs g) (delete pin (detect g)))).

Definition cleanup : M unit :=
  modify (with_gpio (fun _ => mkGPIO false ∅ ∅ ∅)).

(** A line is driven high when it is an output channel set to [True]. *)
Definition driven (g : GPIO) (pin : Z) : bool :=
  match channels g !! pin with
  | Some OUT => default false (outputs g !! pin)
  | _ => false
  end.

End GPIO.

(** ** [raspberry.py] *)

Definition _PIN_NUMBERS_buttons : list Z := [4; 13].
Definition _PIN_NUMBERS_paw_sensors : list Z := [17; 18].
Definition _PIN_NUMBERS_spouts : list Spout :=
  [ mkSpout 5 27 25 [] []; mkSpout 22 23 24 [] [] ].

(** [self.spouts[i]] *)
Definition spout_at (i : Z) : M Spout :=
  r <- the_rpi ;; some_or IndexError (py_nth (spouts r) i).

(** [self.spouts[i][...].append(...)], through [f]. *)
Definition update_spout (i : Z) (f : Spout -> Spout) : M unit :=
  p <- spout_at i ;;
  update_rpi (fun r => set_spouts (py_set_nth (spouts r) i (f p)) r).

Definition append_cue_timepoint (i : Z) : M unit :=
  now <- time_time ;;
  update_spout i (fun p => set_cue_timepoints (cue_timepoints p ++ [now]) p).

Definition append_touch_timepoint (i : Z) : M unit :=
  now <- time_time ;;
  update_spout i (fun p => set_touch_timepoints (touch_timepoints p ++ [now]) p).

(** [self.spouts[spout_number]] with [spout_number] the session's
    [_current_spout], which is [None] before the first trial. *)
Definition spout_number_of (c : option Z) : M Z := some_or TypeError c.

Module Real.

Definition _initialise_pins : M unit :=
  r <- the_rpi ;;
  GPIO.setmode ;;
  for_each (_button_pins r) (fun pin => GPIO.setup pin IN false) ;;
  for_each (paw_pins r) (fun pin => GPIO.setup pin IN false) ;;
  for_each (spouts r) (fun spout =>
    GPIO.setup (cue spout) OUT false ;;
    GPIO.setup (touch spout) IN false ;;
    GPIO.setup (solenoid spout) OUT false) ;;
  update_rpi (fun r =>
    set_spouts (map (fun p => set_touch_timepoints [] (set_cue_timepoints [] p))
                    (spouts r)) r).

Definition monitor_sensors (reset_iti increase_spont_reaches : callback) : M unit :=
  r <- the_rpi ;;
  for_each (paw_pins r) (fun paw =>
    GPIO.add_event_detect paw FALLING reset_iti) ;;
  for_each (spouts r) (fun spout =>
    GPIO.add_event_detect (touch spout) RISING increase_spont_reaches).

Definition set_button_callback (button : Z) (func : callback) : M unit :=
  r <- the_rpi ;;
  pin <- some_or IndexError (py_nth (_button_pins r) button) ;;
  GPIO.remove_event_detect pin ;;
  GPIO.add_event_detect pin FALLING func.

Definition disable_sensors : M unit :=
  r <- the_rpi ;;
  for_each (paw_pins r) (fun paw_pin => GPIO.remove_event_detect paw_pin) ;;
  for_each (spouts r) (fun spout => GPIO.remove_event_detect (touch spout)).

Definition start_trial (spout_number : Z) (reward_func incorrect_func : callback)
  : M unit :=
  say (EPrint "Cue illuminated") ;;
  append_cue_timepoint spout_number ;;
  p <- spout_at spout_number ;;
  GPIO.output (cue p) true ;;
  r <- the_rpi ;;
  for_each (paw_pins r) (fun paw_pin =>
    GPIO.add_event_detect paw_pin FALLING record_lift_timepoints) ;;
  GPIO.add_event_detect (touch p) RISING reward_func ;;
  when (1 <? Z.of_nat (length (spouts r)))
    (q <- spout_at (1 - spout_number) ;;
     GPIO.add_event_detect (touch q) RISING incorrect_func).

Definition successful_grasp (spout_number : Z) : M unit :=
  p <- spout_at spout_number ;;
  GPIO.output (cue p) false ;;
  append_touch_timepoint spout_number.

Definition incorrect_grasp (spout_number : Z) : M unit :=
  p <- spout_at spout_number ;;
  GPIO.output (cue p) false ;;
  append_touch_timepoint (1 - spout_number).

Definition dispense_water (time_sleep : Q -> M unit) (spout_number : Z)
    (duration_ms : pyval) : M unit :=
  p <- spout_at spout_number ;;
  GPIO.output (solenoid p) true ;;
  d <- num_of duration_ms ;;
  time_sleep (d / 1000)%Q ;;
  q <- spout_at spout_number ;;
  GPIO.output (solenoid q) false.

Definition end_trial : M unit :=
  disable_sensors ;;
  r <- the_rpi ;;
  for_each (spouts r) (fun spout => GPIO.output (cue spout) false).

Definition cleanup : M unit :=
  r <- the_rpi ;;
  for_each (spouts r) (fun spout => GPIO.output (solenoid spout) false) ;;
  GPIO.cleanup.

End Real.

Module Mock.

Definition _initialise_pins : M unit :=
  r <- the_rpi ;;
  update_rpi (set_pin_states
    (fold_left (fun st button => py_set_nth st button 1) (_button_pins r)
               (repeat 0 27))) ;;
  update_rpi (fun r =>
    set_spouts (map (fun p => set_touch_timepoints [] (set_cue_timepoints [] p))
                    (spouts r)) r).

Definition start_trial (spout_number : Z) : M unit :=
  say (EPrint "Cue illuminated") ;;
  append_cue_timepoint spout_number.

Definition successful_grasp (spout_number : Z) : M unit :=
  append_touch_timepoint spout_number.

Definition incorrect_grasp (spout_number : Z) : M unit :=
  append_touch_timepoint (1 - spout_number).

Definition dispense_water (time_sleep : Q -> M unit) (duration_ms : pyval) : M unit :=
  d <- num_of duration_ms ;;
  time_sleep (d / 1000)%Q.

End Mock.

(** *** The board the session talks to

    [_RPi] is [RPiReal] on a Raspberry Pi and [_RPiMock] elsewhere; a method
    call on [self._rpi] runs the method of the object's class.  The calls are
    logged here, calls that a method makes on itself are not. *)

Definition the_board : M board := r <- the_rpi ;; ret (board_of r).

(** [_PIN_NUMBERS['spouts'][:spout_count]] *)
Definition spouts_upto (spout_count : pyval) : M (list Spout) :=
  match spout_count with
  | PNone => ret _PIN_NUMBERS_spouts
  | PInt _ | PBool _ =>
      n <- some_or TypeError (as_int spout_count) ;;
      ret (py_slice_to _PIN_NUMBERS_spouts n)
  | _ => raise TypeError
  end.

(** [_RPi(spout_count)], the object ending up in [self._rpi]. *)
Definition _RPi (spout_count : pyval) : M unit :=
  w <- gets world ;;
  let b := if is_raspberry_pi w then RPiReal else RPiMock in
  say (ENew b spout_count) ;;
  sp <- spouts_upto spout_count ;;
  modify (with_session (set_rpi (Some
    (mkRPi b _PIN_NUMBERS_buttons _PIN_NUMBERS_paw_sensors sp [] [])))) ;;
  match b with
  | RPiReal => Real._initialise_pins
  | RPiMock => Mock._initialise_pins
  end ;;
  update_rpi (set_lift_timepoints [[]; []]) ;;
  modify (set_sigint rpi_cleanup_handler).

Definition rpi_monitor_sensors (reset_iti increase_spont_reaches : callback) : M unit :=
  b <- the_board ;;
  say EMonitorSensors ;;
  match b with
  | RPiReal => Real.monitor_sensors reset_iti increase_spont_reaches
  | RPiMock => ret tt
  end.

Definition rpi_set_button_callback (button : Z) (func : callback) : M unit :=
  b <- the_board ;;
  say (ESetButtonCallback button) ;;
  match b with
  | RPiReal => Real.set_button_callback button func
  | RPiMock => ret tt
  end.

Definition rpi_disable_sensors : M unit :=
  b <- the_board ;;
  say EDisableSensors ;;
  match b with
  | RPiReal => Real.disable_sensors
  | RPiMock => ret tt
  end.

Definition rpi_start_trial (spout_number : option Z)
    (reward_func incorrect_func : callback) : M unit :=
  b <- the_board ;;
  say (EStartTrial spout_number) ;;
  match spout_number with
  | None => say (EPrint "Cue illuminated") ;; raise TypeError
  | Some n =>
      match b with
      | RPiReal => Real.start_trial n reward_func incorrect_func
      | RPiMock => Mock.start_trial n
      end
  end.

Definition rpi_successful_grasp (spout_number : option Z) : M unit :=
  b <- the_board ;;
  say (ESuccessfulGrasp spout_number) ;;
  n <- spout_number_of spout_number ;;
  match b with
  | RPiReal => Real.successful_grasp n
  | RPiMock => Mock.successful_grasp n
  end.

Definition rpi_incorrect_grasp (spout_number : option Z) : M unit :=
  b <- the_board ;;
  say (EIncorrectGrasp spout_number) ;;
  n <- spout_number_of spout_number ;;
  match b with
  | RPiReal => Real.incorrect_grasp n
  | RPiMock => Mock.incorrect_grasp n
  end.

Definition rpi_dispense_water (time_sleep : Q -> M unit) (spout_number : option Z)
    (duration_ms : pyval) : M unit :=
  b <- the_board ;;
  say (EDispenseWater spout_number) ;;
  match b with
  | RPiReal =>
      n <- spout_number_of spout_number ;;
      Real.dispense_water time_sleep n duration_ms
  | RPiMock => Mock.dispense_water time_sleep duration_ms
  end.

Definition rpi_end_trial : M unit :=
  b <- the_board ;;
  say EEndTrial ;;
  match b with
  | RPiReal => Real.end_trial
  | RPiMock => ret tt
  end.

Definition rpi_cleanup : M unit :=
  b <- the_board ;;
  say ECleanup ;;
  match b with
  | RPiReal => Real.cleanup
  | RPiMock => ret tt
  end.

(** [RPiReal._record_lift_timepoints] *)
Definition _record_lift_timepoints (pin : Z) : M unit :=
  r <- the_rpi ;;
  idx <- some_or ValueError (py_index (paw_pins r) pin) ;;
  l <- some_or IndexError (py_nth (lift_timepoints r) idx) ;;
  now <- time_time ;;
  update_rpi (fun r =>
    set_lift_timepoints (py_set_nth (lift_timepoints r) idx (l ++ [now])) r).

(** [time.sleep] on the library's event thread: the sequencer's thread does
    not wait for it. *)
Definition thread_sleep (d : Q) : M unit :=
  if Qle_bool 0 d then say (EThreadSleep d) else raise ValueError.

(** ** [session.py]: callbacks *)

Definition _reset_iti_callback (pin : Z) : M unit :=
  modify (with_session (set_iti_broken true)) ;;
  v <- data_get "resets_timepoints" ;;
  r <- the_rpi ;;
  idx <- some_or ValueError (py_index (paw_pins r) pin) ;;
  l <- list_of v ;;
  inner <- some_or IndexError (py_nth l idx) ;;
  x <- list_of inner ;;
  now <- time_time ;;
  data_set "resets_timepoints" (PList (py_set_nth l idx (PList (x ++ [PFloat now])))).

Definition _increase_spont_reaches_callback (pin : Z) : M unit :=
  modify (with_session (fun x =>
    set_spont_reach_spouts (spont_reach_spouts x ++ [pin]) x)) ;;
  v <- data_get "spont_reach_timepoints" ;;
  l <- list_of v ;;
  now <- time_time ;;
  data_set "spont_reach_timepoints" (PList (l ++ [PFloat now])).

Definition _reverse_shaping_callback (pin : Z) : M unit :=
  modify (with_session (fun x =>
    set_water_at_cue_onset (PBool (negb (truthy (_water_at_cue_onset x)))) x)).

Definition _reward_callback (pin : Z) : M unit :=
  x <- the_session ;;
  rpi_successful_grasp (_current_spout x) ;;
  modify (with_session (set_outcome 1)) ;;
  x <- the_session ;;
  when (negb (truthy (_water_at_cue_onset x)))
    (d <- data_get "reward_duration_ms" ;;
     rpi_dispense_water thread_sleep (_current_spout x) d).

Definition _incorrect_grasp_callback (pin : Z) : M unit :=
  x <- the_session ;;
  rpi_incorrect_grasp (_current_spout x) ;;
  modify (with_session (set_outcome 2)).

Definition call (cb : callback) (pin : Z) : M unit :=
  match cb with
  | reset_iti_callback => _reset_iti_callback pin
  | increase_spont_reaches_callback => _increase_spont_reaches_callback pin
  | reverse_shaping_callback => _reverse_shaping_callback pin
  | reward_callback => _reward_callback pin
  | incorrect_grasp_callback => _incorrect_grasp_callback pin
  | record_lift_timepoints => _record_lift_timepoints pin
  end.

(** ** Formatting local time *)

Definition digit (d : Z) : string :=
  String (Ascii.ascii_of_nat (48 + Z.to_nat (d mod 10))) EmptyString.
Definition two_digits (n : Z) : string := digit (n / 10) +:+ digit n.
Definition four_digits (n : Z) : string := two_digits (n / 100) +:+ two_digits n.

(** Seconds since the epoch, on the local clock, of instant [t]. *)
Definition local_seconds (offset : Z) (t : Q) : Z := Qfloor t + offset.

(** [time.strftime('%H:%M:%S', time.localtime(t))] *)
Definition strftime_HMS (offset : Z) (t : Q) : string :=
  let s := local_seconds offset t mod 86400 in
  two_digits (s / 3600) +:+ ":" +:+ two_digits (s / 60 mod 60) +:+ ":" +:+
  two_digits (s mod 60).

(** [time.strftime('%Y-%m-%d')] at instant [t]: the civil date of a day
    number. *)
Definition strftime_Ymd (offset : Z) (t : Q) : string :=
  let z := local_seconds offset t / 86400 + 719468 in
  let era := z / 146097 in
  let doe := z mod 146097 in
  let yoe := (doe - doe / 1460 + doe / 36524 - doe / 146096) / 365 in
  let doy := doe - (365 * yoe + yoe / 4 - yoe / 100) in
  let mp := (5 * doy + 2) / 153 in
  let d := doy - (153 * mp + 2) / 5 + 1 in
  let m := if mp <? 10 then mp + 3 else mp - 9 in
  let y := yoe + era * 400 + (if m <=? 2 then 1 else 0) in
  four_digits y +:+ "-" +:+ two_digits m +:+ "-" +:+ two_digits d.

Arguments strftime_HMS : simpl never.
Arguments strftime_Ymd : simpl never.

(** ** [session.py]: the end of a session *)

Definition floats (l : list Q) : pyval := PList (map PFloat l).

(** One round of the loop of [_collate_data] over [enumerate(self._rpi.spouts)];
    [acc] is the local [spont_reach_timepoints]. *)
Definition collate_spout (idx : Z) (spout : Spout) (acc : list (list pyval))
    : M (list (list pyval)) :=
  modify (with_session (fun x =>
    set_spont_reach_spouts
      (map (fun a => if a =? touch spout then idx else a) (spont_reach_spouts x)) x)) ;;
  x <- the_session ;;
  mine <- some_or IndexError (py_nth acc idx) ;;
  v <- data_get "spont_reach_timepoints" ;;
  timepoints <- list_of v ;;
  let acc' :=
    py_set_nth acc idx
      (mine ++ map snd (List.filter (fun _ => truthy (PInt idx))
                          (zip (spont_reach_spouts x) timepoints))) in
  c <- data_get "cue_timepoints" ;;
  cl <- list_of c ;;
  data_set "cue_timepoints" (PList (cl ++ [floats (cue_timepoints spout)])) ;;
  t <- data_get "touch_timepoints" ;;
  tl <- list_of t ;;
  data_set "touch_timepoints" (PList (tl ++ [floats (touch_timepoints spout)])) ;;
  ret acc'.

Fixpoint collate_spouts (idx : Z) (l : list Spout) (acc : list (list pyval))
    : M (list (list pyval)) :=
  match l with
  | [] => ret acc
  | spout :: l' =>
      acc' <- collate_spout idx spout acc ;;
      collate_spouts (idx + 1) l' acc'
  end.

(** The argument of [time.localtime]: a number of seconds, or [None] for the
    current time. *)
Definition seconds_of (v : pyval) : M Q :=
  match v with
  | PNone => time_time
  | _ => num_of v
  end.

Definition _collate_data (manual : bool) : M unit :=
  say (ECollate manual) ;;
  when manual
    (now <- time_time ;;
     data_set "end_time" (PFloat now) ;;
     e <- data_get "end_time" ;;
     b <- data_get "start_time" ;;
     e' <- num_of e ;;
     b' <- num_of b ;;
     data_set "duration" (PFloat (e' - b')%Q)) ;;
  data_set "cue_timepoints" (PList []) ;;
  data_set "touch_timepoints" (PList []) ;;
  r <- the_rpi ;;
  spont_reach_timepoints <- collate_spouts 0 (spouts r) [[]; []] ;;
  data_set "spont_reach_timepoints" (PList (map PList spont_reach_timepoints)) ;;
  r <- the_rpi ;;
  data_set "cued_lift_timepoints" (PList (map floats (lift_timepoints r))) ;;
  w <- gets world ;;
  data_set "date" (PStr (strftime_Ymd (utc_offset w) (clock w))) ;;
  b <- data_get "start_time" ;;
  b' <- seconds_of b ;;
  data_set "start_time" (PStr (strftime_HMS (utc_offset w) b')) ;;
  e <- data_get "end_time" ;;
  e' <- seconds_of e ;;
  data_set "end_time" (PStr (strftime_HMS (utc_offset w) e')).

(** [len(v)] *)
Definition py_len (v : pyval) : M Z :=
  match v with
  | PList l => ret (Z.of_nat (length l))
  | PStr s => ret (Z.of_nat (String.length s))
  | _ => raise TypeError
  end.

Definition _display_training_results : M unit :=
  c <- data_get "cue_timepoints" ;;
  trial_count <- py_len c ;;
  x <- the_session ;;
  when (trial_count =? 0) (raise ZeroDivisionError) ;;
  v <- data_get "resets_timepoints" ;;
  l <- list_of v ;;
  left <- some_or IndexError (py_nth l 0) ;;
  _ <- py_len left ;;
  v <- data_get "resets_timepoints" ;;
  l <- list_of v ;;
  right <- some_or IndexError (py_nth l 1) ;;
  _ <- py_len right ;;
  say (EResults trial_count (_reward_count x)).

Definition _end_session (manual : bool) : M unit :=
  rpi_cleanup ;;
  _collate_data manual ;;
  _display_training_results ;;
  say (EPrint "\a").

Definition _end_session_manually : M unit :=
  say (EPrint "Exiting.") ;;
  _end_session true.

(** ** Signals *)

(** The handler installed for SIGINT.  [RPiReal.__init__] installs the
    board's [cleanup], which on [_RPiMock] takes no further argument and so
    cannot be called with the two a handler is given. *)
Definition handle_sigint : M unit :=
  h <- gets sigint ;;
  match h with
  | default_int_handler => raise KeyboardInterrupt
  | rpi_cleanup_handler =>
      b <- the_board ;;
      match b with
      | RPiReal => rpi_cleanup
      | RPiMock => raise TypeError
      end
  | end_session_manually_handler => _end_session_manually
  end.

Definition edge_eqb (a b : edge) : bool :=
  match a, b with
  | RISING, RISING | FALLING, FALLING => true
  | _, _ => false
  end.

(** One signal arrives at instant [t]. *)
Definition deliver (t : Q) (sg : signal) : M unit :=
  modify (with_world (fun w => set_clock (Qmax (clock w) t) w)) ;;
  match sg with
  | Sigint => handle_sigint
  | Edge e pin =>
      modify (with_world (fun w =>
        set_levels (<[pin := match e with RISING => true | FALLING => false end]>
                      (levels w)) w)) ;;
      g <- gets gpio ;;
      match detect g !! pin with
      | Some (e', cb) =>
          when (edge_eqb e e') (say (EFire cb pin) ;; swallow (call cb pin))
      | None => ret tt
      end
  end.

Definition next_tick : M tick :=
  w <- gets world ;;
  match script w with
  | [] => ret (mkTick [] 0)
  | tk :: rest => modify (with_world (set_script rest)) ;; ret tk
  end.

(** The sequencer's thread blocks for [d] seconds: the signals of the next
    tick arrive, then the clock is at least [d] later than it was. *)
Definition block (d : Q) : M unit :=
  start <- time_time ;;
  tk <- next_tick ;;
  for_each (fired tk) (fun '(t, sg) => deliver t sg) ;;
  modify (with_world (fun w =>
    set_clock (Qmax (clock w) (Qred (start + d + Qmax 0 (late tk)))) w)).

(** [time.sleep(d)] on the sequencer's thread. *)
Definition time_sleep (d : Q) : M unit :=
  if Qle_bool 0 d then say (ESleep d) ;; block d else raise ValueError.

(** ** Blocking calls on the board *)

Definition Qlt_bool (x y : Q) : bool := negb (Qle_bool y x).

Definition has_edge (e : edge) (pin : Z) (tk : tick) : bool :=
  existsb (fun '(_, sg) =>
             match sg with
             | Edge e' pin' => edge_eqb e e' && (pin =? pin')
             | Sigint => false
             end) (fired tk).

(** [GPIO.wait_for_edge(pin, e)]: blocked until a tick brings the edge. *)
Fixpoint GPIO_wait_for_edge (n : nat) (pin : Z) (e : edge) : M unit :=
  match n with
  | O => raise OutOfFuel
  | S n' =>
      tk <- next_tick ;;
      for_each (fired tk) (fun '(t, sg) => deliver t sg) ;;
      modify (with_world (fun w =>
        set_clock (Qmax (clock w) (Qred (clock w + Qmax 0 (late tk)))) w)) ;;
      if has_edge e pin tk then ret tt else GPIO_wait_for_edge n' pin e
  end.

Definition Real_wait_to_start (n : nat) : M unit :=
  r <- the_rpi ;;
  pin <- some_or IndexError (py_nth (_button_pins r) 0) ;;
  GPIO.numbered ;;
  g <- gets gpio ;;
  match channels g !! pin, detect g !! pin with
  | Some IN, None => GPIO_wait_for_edge n pin FALLING
  | _, _ => raise RuntimeError
  end.

Fixpoint Real_wait_for_rest (n : nat) : M unit :=
  r <- the_rpi ;;
  p0 <- some_or IndexError (py_nth (paw_pins r) 0) ;;
  l <- GPIO.input p0 ;;
  p1 <- some_or IndexError (py_nth (paw_pins r) 1) ;;
  h <- GPIO.input p1 ;;
  if l && h then ret tt
  else match n with
       | O => raise OutOfFuel
       | S n' => time_sleep (10 # 1000) ;; Real_wait_for_rest n'
       end.

Definition rpi_wait_to_start (n : nat) : M unit :=
  b <- the_board ;;
  say EWaitToStart ;;
  match b with
  | RPiReal => Real_wait_to_start n
  | RPiMock => ret tt
  end.

Definition rpi_wait_for_rest (n : nat) : M unit :=
  b <- the_board ;;
  say EWaitForRest ;;
  match b with
  | RPiReal => Real_wait_for_rest n
  | RPiMock => time_sleep 1
  end.

(** ** [session.py]: the inter-trial interval *)

(** [while now < trial_end and not self._iti_broken] *)
Fixpoint countdown (n : nat) (trial_end now : Q) : M unit :=
  x <- the_session ;;
  if Qlt_bool now trial_end && negb (_iti_broken x) then
    match n with
    | O => raise OutOfFuel
    | S n' =>
        time_sleep (20 # 1000) ;;
        now' <- time_time ;;
        countdown n' trial_end now'
    end
  else ret tt.

(** [random.uniform] applied to the two entries of [self.data['iti']] *)
Definition draw_iti : M Q :=
  v <- data_get "iti" ;;
  l <- list_of v ;;
  match l with
  | [a; b] =>
      a' <- num_of a ;;
      b' <- num_of b ;;
      random_uniform a' b'
  | _ => raise TypeError
  end.

(** The [while True] loop of [_inter_trial_interval]. *)
Fixpoint rest_and_count_down (n : nat) : M unit :=
  match n with
  | O => raise OutOfFuel
  | S n' =>
      rpi_wait_for_rest n' ;;
      modify (with_session (set_iti_broken false)) ;;
      now <- time_time ;;
      u <- draw_iti ;;
      let iti_duration := (u / 1000)%Q in
      let trial_end := (now + iti_duration)%Q in
      say (ECountingDown now iti_duration) ;;
      countdown n' trial_end now ;;
      x <- the_session ;;
      if _iti_broken x then rest_and_count_down n' else ret tt
  end.

Definition _inter_trial_interval (n : nat) : M unit :=
  rpi_monitor_sensors reset_iti_callback increase_spont_reaches_callback ;;
  rpi_set_button_callback 0 reverse_shaping_callback ;;
  shaping <- data_get "shaping" ;;
  modify (with_session (set_water_at_cue_onset shaping)) ;;
  rest_and_count_down n ;;
  rpi_disable_sensors.

(** ** [session.py]: the trial *)

(** [while not self._outcome and now < cue_end] *)
Fixpoint await_outcome (n : nat) (cue_end now : Q) : M unit :=
  x <- the_session ;;
  if (_outcome x =? 0) && Qlt_bool now cue_end then
    match n with
    | O => raise OutOfFuel
    | S n' =>
        time_sleep (8 # 1000) ;;
        now' <- time_time ;;
        await_outcome n' cue_end now'
    end
  else ret tt.

Definition reward_pause : M unit :=
  d <- data_get "reward_duration_ms" ;;
  d' <- num_of d ;;
  time_sleep (d' / 1000)%Q.

Definition _trial (n : nat) : M unit :=
  x <- the_session ;;
  let current_spout := _current_spout x in
  rpi_start_trial current_spout reward_callback incorrect_grasp_callback ;;
  x <- the_session ;;
  when (truthy (_water_at_cue_onset x))
    (d <- data_get "reward_duration_ms" ;;
     rpi_dispense_water time_sleep current_spout d) ;;
  now <- time_time ;;
  c <- data_get "cue_duration_ms" ;;
  c' <- num_of c ;;
  let cue_end := (now + c' / 1000)%Q in
  await_outcome n cue_end now ;;
  rpi_end_trial ;;
  x <- the_session ;;
  if _outcome x =? 1 then
    say (EPrint "Successful reach!") ;;
    modify (with_session (fun x => set_reward_count (_reward_count x + 1) x)) ;;
    reward_pause
  else
    x <- the_session ;;
    if _outcome x =? 2 then
      say (EPrint "Incorrect reach!") ;;
      reward_pause
    else
      say (EPrint "Missed reach").

(** ** [session.py]: [run] *)

(** [a, b = v]: a list or a string of two items is unpacked, one of another
    length is refused with [ValueError], anything else with [TypeError]. *)
Definition unpack_pair (v : pyval) : M (pyval * pyval) :=
  match v with
  | PList [a; b] => ret (a, b)
  | PList _ => raise ValueError
  | PStr (String a (String b EmptyString)) =>
      ret (PStr (String a EmptyString), PStr (String b EmptyString))
  | PStr _ => raise ValueError
  | _ => raise TypeError
  end.

(** The banner is one [print] of a string that shows the settings in this
    order; the log keeps the values shown. *)
Definition _display_training_settings : M unit :=
  v <- data_get "iti" ;;
  p <- unpack_pair v ;;
  spout_count <- data_get "spout_count" ;;
  duration <- data_get "duration" ;;
  cue_duration_ms <- data_get "cue_duration_ms" ;;
  shaping <- data_get "shaping" ;;
  say (ESettings spout_count duration cue_duration_ms (fst p) (snd p) shaping).

(** [now < data['end_time']] *)
Definition before (now : Q) (v : pyval) : M bool :=
  t <- num_of v ;; ret (Qlt_bool now t).

(** The [while now < data['end_time']] loop of [run]. *)
Fixpoint trials (n : nat) (fuel : nat) (trial_count : Z) (now : Q) : M Z :=
  e <- data_get "end_time" ;;
  go <- before now e ;;
  if go then
    match n with
    | O => raise OutOfFuel
    | S n' =>
        let trial_count := trial_count + 1 in
        modify (with_session (set_outcome 0)) ;;
        say (EPrint "_________________________________________") ;;
        b <- data_get "start_time" ;;
        _ <- num_of b ;;
        say (EStartingTrial trial_count) ;;
        c <- data_get "spout_count" ;;
        c' <- some_or TypeError (as_int c) ;;
        spout <- random_randint 0 (c' - 1) ;;
        modify (with_session (set_current_spout (Some spout))) ;;
        _inter_trial_interval fuel ;;
        _trial fuel ;;
        x <- the_session ;;
        say (ETotalRewards (_reward_count x)) ;;
        now' <- time_time ;;
        trials n' fuel trial_count now'
    end
  else ret trial_count.

Definition run (fuel : nat) (config : gmap string pyval) : M unit :=
  modify (with_session (fun x => set_data (config ∪ data x) x)) ;;
  d <- the_data ;;
  when (bool_decide (is_Some (d !! "resets_timepoints")))
    (say (EPrint "resets_timepoints key found in session data.")) ;;
  modify (with_session (set_spont_reach_spouts [])) ;;
  data_set "spont_reach_timepoints" (PList []) ;;
  data_set "resets_timepoints" (PList [PList []; PList []]) ;;
  shaping <- data_get "shaping" ;;
  modify (with_session (set_water_at_cue_onset shaping)) ;;
  _display_training_settings ;;
  c <- data_get "spout_count" ;;
  _RPi c ;;
  rpi_wait_to_start fuel ;;
  modify (set_sigint end_session_manually_handler) ;;
  now <- time_time ;;
  data_set "start_time" (PFloat now) ;;
  d <- data_get "duration" ;;
  d' <- num_of d ;;
  data_set "end_time" (PFloat (now + d')%Q) ;;
  _ <- trials fuel fuel 0 now ;;
  _end_session false.

(** [Session.__init__], in an environment [w]. *)
Definition new_session (d : gmap string pyval) : Session :=
  mkSession d 0 false None PNone None 0 [].

Definition boot (d : gmap string pyval) (w : World) : St :=
  mkSt (new_session d) (mkGPIO false ∅ ∅ ∅) w default_int_handler [].

(** ** [session.py]: [reaction_times] *)

(** [for sublist in v: acc.extend(sublist)] *)
Fixpoint extend_all (outer : list pyval) (acc : list pyval) : M (list pyval) :=
  match outer with
  | [] => ret acc
  | sublist :: rest =>
      l <- list_of sublist ;;
      extend_all rest (acc ++ l)
  end.

(** [operator.sub] *)
Definition operator_sub (a b : pyval) : M pyval :=
  match as_int a, as_int b with
  | Some x, Some y => ret (PInt (x - y))
  | _, _ =>
      x <- num_of a ;;
      y <- num_of b ;;
      ret (PFloat (x - y)%Q)
  end.

(** [list(map(operator.sub, xs, ys))]: stops with the shorter list. *)
Fixpoint map_sub (xs ys : list pyval) : M (list pyval) :=
  match xs, ys with
  | x :: xs', y :: ys' =>
      d <- operator_sub x y ;;
      ds <- map_sub xs' ys' ;;
      ret (d :: ds)
  | _, _ => ret []
  end.

Definition reaction_times : M (list pyval) :=
  t <- data_get "touch_timepoints" ;;
  outer <- list_of t ;;
  touch_timepoints <- extend_all outer [] ;;
  c <- data_get "cue_timepoints" ;;
  outer <- list_of c ;;
  cue_timepoints <- extend_all outer [] ;;
  map_sub touch_timepoints cue_timepoints.

(** ** [curses.py]: what [RPiCurses] does to the pins and to the terminal *)

Module Curses.

Record Terminal : Type := mkTerminal {
  keypad : bool;
  cursor : Z;
  cbreak : bool;
  echo : bool;
  ended : bool;
  newline : bool
}.

(** The board's view of the hardware: [_pin_states], set by
    [_initialise_pins] and by nothing else. *)
Record Rig : Type := mkRig {
  pin_states : list Z;
  terminal : Terminal
}.

Definition _initialise_pins (button_pins : list Z) : list Z :=
  fold_left (fun st button => py_set_nth st button 1) button_pins (repeat 0 27).

(** [keypad(False); curs_set(1); nocbreak(); echo(); endwin(); nl()] *)
Definition cleanup (r : Rig) : Rig :=
  mkRig (pin_states r) (mkTerminal false 1 false true true true).

End Curses.

(** ** Concrete sessions *)

Module Demo.

Definition config (spout_count : Z) (duration : Q) (iti_min iti_max : Z) (shaping : bool)
  : gmap string pyval :=
  <["spout_count" := PInt spout_count]>
  (<["duration" := PFloat duration]>
  (<["cue_duration_ms" := PInt 100]>
  (<["iti" := PList [PInt iti_min; PInt iti_max]]>
  (<["reward_duration_ms" := PInt 50]>
  (<["shaping" := PBool shaping]> ∅))))).

(** A desk without a Raspberry Pi, and a training box with one; the clock
    starts at 1000 s. *)
Definition desk (sc : list tick) : World := mkWorld 1000 sc [] ∅ false 0.
Definition box (sc : list tick) : World := mkWorld 1000 sc [] ∅ true 0.

(** Both paws come to rest, then the left button is pressed. *)
Definition settle_and_start : tick :=
  mkTick [(1000%Q, Edge RISING 17); (1000%Q, Edge RISING 18); (1000%Q, Edge FALLING 4)] 0.

Definition quiet : tick := mkTick [] 0.

(** The state a session is in once [run] has created its board: after
    [_RPi(spout_count)] on a box, with the cue of [spout] recorded. *)
Definition in_trial (spout_count spout : Z) : St :=
  let s := fst (_RPi (PInt spout_count)
                  (boot (<["resets_timepoints" := PList [PList []; PList []]]>
                         (<["spont_reach_timepoints" := PList []]>
                          (config spout_count 1 40 40 false))) (box []))) in
  let s := with_session (set_current_spout (Some spout)) s in
  fst (rpi_start_trial (Some spout) reward_callback incorrect_grasp_callback s).

(** A two-spout box right after [_RPi(2)], both paws resting, about to start
    the inter-trial interval that precedes a trial on spout 0. *)
Definition at_rest (sc : list tick) : St :=
  let w := mkWorld 1000 sc [] (<[17 := true]> (<[18 := true]> ∅)) true 0 in
  let s := fst (_RPi (PInt 2)
                  (boot (<["resets_timepoints" := PList [PList []; PList []]]>
                         (<["spont_reach_timepoints" := PList []]>
                          (config 2 1 40 40 false))) w)) in
  with_session (set_current_spout (Some 0)) s.

(** The left paw (pin 17) lifts 10 ms into the count-down and comes back
    5 ms later. *)
Definition lift_and_return : list tick :=
  [ mkTick [((100001 # 100)%Q, Edge FALLING 17)] 0;
    mkTick [((200003 # 200)%Q, Edge RISING 17)] 0 ].

(** One spontaneous reach for spout 0 (touch pin 27) during the first
    inter-trial interval of a two-spout session. *)
Definition stray_reach : list tick :=
  [settle_and_start; mkTick [((2001 # 2)%Q, Edge RISING 27)] 0].

(** Both paws rest and the button is pressed; 50 ms later, during the first
    trial, the spout is grasped (touch pin 27). *)
Definition one_reach : list tick :=
  [settle_and_start; quiet; quiet; quiet; mkTick [((100005 # 100)%Q, Edge RISING 27)] 0].


(** Session data as saved after two trials on one spout: the cue at 10 s
    was missed, the cue at 20 s was answered at 21 s. *)
Definition missed_then_hit : gmap string pyval :=
  <["cue_timepoints" := PList [PList [PFloat 10; PFloat 20]]]>
  (<["touch_timepoints" := PList [PList [PFloat 21]]]> ∅).

End Demo.


(** * Vocabulary of the statements *)

(** [wp m s Q]: running [m] from [s] ends, normally or by an exception, in a
    result and a state that satisfy [Q]. *)
Definition wp {A} (m : M A) (s : St) (Q : res A -> St -> Prop) : Prop :=
  Q (snd (m s)) (fst (m s)).
Arguments wp : simpl never.

(** [I] is an invariant of [m], however [m] ends. *)
Definition stable (I : St -> Prop) {A} (m : M A) : Prop :=
  forall s, I s -> wp m s (fun _ s' => I s').

(** The same, as a class: the recursive functions are registered with their
    invariants. *)
Class Stable (I : St -> Prop) {A} (m : M A) : Prop :=
  stable_call : stable I m.

Definition is_ok {A} (r : res A) : Prop :=
  match r with Ok _ => True | Raise _ => False end.

(** The events of [l'] that come after those of [l]. *)
Definition since (l l' : list event) : list event := drop (length l) l'.

(** The value that a trial callback gives to [_outcome]. *)
Definition outcome_code (cb : callback) : Z :=
  match cb with
  | reward_callback => 1
  | incorrect_grasp_callback => 2
  | _ => 0
  end.

(** No cue or solenoid line of the pin table is driven. *)
Definition actuators_off (g : GPIO) : Prop :=
  forall p, p ∈ _PIN_NUMBERS_spouts ->
    GPIO.driven g (cue p) = false /\ GPIO.driven g (solenoid p) = false.

(** ** One spout on the box *)

(** No touch sensor is armed with the incorrect-grasp callback. *)
Definition no_incorrect (g : GPIO) : Prop :=
  forall pin e, detect g !! pin <> Some (e, incorrect_grasp_callback).

Definition one_spout (x : Session) : Prop :=
  match _rpi x with
  | Some r => (length (spouts r) <= 1)%nat
  | None => True
  end.

Record single (s : St) : Prop := mkSingle {
  single_spout : one_spout (session s);
  single_detect : no_incorrect (gpio s);
  single_outcome : _outcome (session s) <> 2;
  single_print : EPrint "Incorrect reach!" ∉ log s;
  single_grasp : forall c, EIncorrectGrasp c ∉ log s;
  single_fire : forall pin, EFire incorrect_grasp_callback pin ∉ log s
}.

(** The state of [run] before the board is created, for a configuration with
    one spout on a Raspberry Pi. *)
Definition before_board (s : St) : Prop :=
  single s /\
  (data (session s) !! "spout_count" = Some (PInt 1)) /\
  is_raspberry_pi (world s) = true.

(** ** What a statement may log *)

(** Since the log was [L], only events of class [P] were logged. *)
Definition emits (P : event -> bool) (L : list event) (s : St) : Prop :=
  exists evs, log s = L ++ evs /\ forallb P evs = true.

(** The events logged on behalf of a callback that the library fires. *)
Definition from_callback (e : event) : bool :=
  match e with
  | EFire _ _ | ESuccessfulGrasp _ | EIncorrectGrasp _ | EDispenseWater _
  | EThreadSleep _ => true
  | _ => false
  end.

(** The events logged by a handler of SIGINT. *)
Definition from_sigint (e : event) : bool :=
  match e with
  | EPrint line => String.eqb line "Exiting." || String.eqb line "\a"
  | ECleanup | ECollate _ | EResults _ _ => true
  | _ => false
  end.

Definition asynchronous (e : event) : bool := from_callback e || from_sigint e.

(** Classes of events that let in what signals bring, and sleeps. *)
Class AllowsAsync (P : event -> bool) : Prop :=
  allows_async : forall e, asynchronous e = true -> P e = true.
Class AllowsSleep (P : event -> bool) : Prop :=
  allows_sleep : forall d, P (ESleep d) = true.

(** Every event. *)
Definition any_event (e : event) : bool := true.

(** Two invariants at once. *)
Definition both (I J : St -> Prop) (s : St) : Prop := I s /\ J s.

(** ** What a statement may write in [data] *)

(** The keys that the sequencer assigns once [run] has merged the
    configuration into [data]. *)
Definition written_keys : list string :=
  [ "spont_reach_timepoints"; "resets_timepoints"; "start_time"; "end_time";
    "duration"; "cue_timepoints"; "touch_timepoints"; "cued_lift_timepoints";
    "date" ].

Class Unwritten (k : string) : Prop :=
  unwritten : k ∉ written_keys.

(** [data[k]] is still what it was: [v], or absent. *)
Definition kept (k : string) (v : option pyval) (s : St) : Prop :=
  data (session s) !! k = v.

(** ** The log of one trial *)

(** The log is exactly [L]. *)
Definition logged (L : list event) (s : St) : Prop := log s = L.

(** One of the three lines that announce the outcome of a trial. *)
Definition outcome_line (e : event) : bool :=
  match e with
  | EPrint line =>
      String.eqb line "Successful reach!" || String.eqb line "Incorrect reach!"
      || String.eqb line "Missed reach"
  | _ => false
  end.

Definition is_end_trial (e : event) : bool :=
  match e with EEndTrial => true | _ => false end.

(** What a trial may log before it calls [end_trial]. *)
Definition before_end (e : event) : bool :=
  negb (is_end_trial e) && negb (outcome_line e).


(** Number of events of class [P]. *)
Definition count (P : event -> bool) (l : list event) : nat :=
  length (List.filter P l).

(** ** The log of one inter-trial interval *)

(** The sub-state-machine of the interval. *)
Inductive iti_phase : Type :=
  | WaitingForRest
  | CountingDown (deadline : Q)
  | Broken.

(** How the phase follows the log: a wait for rest starts over, a count-down
    line after a wait for rest sets the dead line, the reset callback fired
    during a count-down breaks it, and a broken count-down stays broken until
    the next wait for rest. *)
Definition iti_step (ph : iti_phase) (e : event) : iti_phase :=
  match e with
  | EWaitForRest => WaitingForRest
  | ECountingDown now iti_duration =>
      match ph with WaitingForRest => CountingDown (now + iti_duration) | _ => ph end
  | EFire reset_iti_callback _ =>
      match ph with CountingDown _ => Broken | _ => ph end
  | _ => ph
  end.

Definition iti_run (l : list event) : iti_phase := fold_left iti_step l WaitingForRest.

(** The events that leave the phase alone and are not the call of
    [disable_sensors]. *)
Definition plain (e : event) : bool :=
  match e with
  | EWaitForRest | ECountingDown _ _ | EDisableSensors => false
  | EFire reset_iti_callback _ => false
  | _ => true
  end.

Definition is_disable (e : event) : bool :=
  match e with EDisableSensors => true | _ => false end.

(** [x] is [a + (b - a) * r] for a fraction [r] of [0, 1), as
    [random.uniform(a, b)] computes it. *)
Definition uniform_in (a b x : Q) : Prop :=
  exists r, (0 <= r)%Q /\ (r < 1)%Q /\ (x == a + (b - a) * r)%Q.

(** A count-down line shows a duration drawn from [iti], in seconds. *)
Definition drawn (iti : option pyval) (e : event) : Prop :=
  match e with
  | ECountingDown _ d =>
      exists a b qa qb,
        iti = Some (PList [a; b]) /\ as_num a = Some qa /\ as_num b = Some qb /\
        uniform_in qa qb (d * 1000)
  | _ => True
  end.

(** What holds of an interval since the log was [L], [iti] being [data['iti']]:
    [disable_sensors] was not called, every count-down was drawn from [iti],
    and the phase and the flag [_iti_broken] agree as [ok] says. *)
Definition iti_inv (L : list event) (iti : option pyval)
    (ok : iti_phase -> bool -> Prop) (s : St) : Prop :=
  exists evs,
    log s = L ++ evs /\
    forallb (fun e => negb (is_disable e)) evs = true /\
    Forall (drawn iti) evs /\
    ok (iti_run evs) (_iti_broken (session s)).

(** Phase and flag between two statements of the interval: a broken count-down
    has raised the flag. *)
Definition ok_any (ph : iti_phase) (flag : bool) : Prop :=
  ph = Broken -> flag = true.

(** While waiting for rest. *)
Definition ok_wait (ph : iti_phase) (flag : bool) : Prop :=
  ph = WaitingForRest.

(** While counting down to [deadline]. *)
Definition ok_count (deadline : Q) (ph : iti_phase) (flag : bool) : Prop :=
  ph = CountingDown deadline \/ (ph = Broken /\ flag = true).

(** A count-down line shows a duration between the bounds of [iti] when they
    are in order, and exactly the bound when they are equal. *)
Definition bounded (iti : option pyval) (e : event) : Prop :=
  match e with
  | ECountingDown _ d =>
      exists a b qa qb,
        iti = Some (PList [a; b]) /\ as_num a = Some qa /\ as_num b = Some qb /\
        ((qa <= qb)%Q -> (qa / 1000 <= d)%Q /\ (d <= qb / 1000)%Q) /\
        ((qa == qb)%Q -> (d == qa / 1000)%Q)
  | _ => True
  end.

(** The log [L'] and the state [s'] at the end of an interval that started
    with log [L], [iti] being [data['iti']]: [disable_sensors] is called once,
    at the very end; every count-down was drawn from [iti]; the interval ends
    in a count-down that was not broken, past its dead line, the flag down. *)
Definition iti_log (iti : option pyval) (L : list event) (s' : St) : Prop :=
  exists body deadline,
    log s' = L ++ body ++ [EDisableSensors] /\
    count is_disable body = 0%nat /\
    Forall (drawn iti) body /\
    Forall (bounded iti) body /\
    iti_run body = CountingDown deadline /\
    (deadline <= clock (world s'))%Q /\
    _iti_broken (session s') = false.

(** What the reset callback does for the paw at index [i] of [paw_pins]:
    the flag is raised and the clock's reading is appended to
    [data['resets_timepoints'][i]], nothing else in [data] changing. *)
Definition lift_recorded (pin : Z) (s s' : St) : Prop :=
  forall r i l x,
    _rpi (session s) = Some r ->
    py_index (paw_pins r) pin = Some i ->
    data (session s) !! "resets_timepoints" = Some (PList l) ->
    py_nth l i = Some (PList x) ->
    _reset_iti_callback pin s = (s', Ok tt) /\
    _iti_broken (session s') = true /\
    data (session s')
    = <["resets_timepoints" :=
          PList (py_set_nth l i (PList (x ++ [PFloat (clock (world s))])))]>
        (data (session s)).

(** A relation between phase and flag that survives the reset callback. *)
Class Breakable (ok : iti_phase -> bool -> Prop) : Prop :=
  breakable : forall ph flag pin,
    ok ph flag -> ok (iti_step ph (EFire reset_iti_callback pin)) true.

(** ** The start of a session *)

(** The settings that [run] reads before it builds the board. *)
Definition settings_read : list string :=
  [ "shaping"; "iti"; "spout_count"; "duration"; "cue_duration_ms" ].

(** The class of board that [_RPi] builds in the environment [w]. *)
Definition board_in (w : World) : board :=
  if is_raspberry_pi w then RPiReal else RPiMock.

(** ** The record of a session *)

(** The keys that [_collate_data] assigns. *)
Definition collated_keys : list string :=
  [ "cue_timepoints"; "touch_timepoints"; "spont_reach_timepoints";
    "cued_lift_timepoints"; "date"; "start_time"; "end_time" ].

(** [data] has every key of [ks]. *)
Definition has (ks : list string) (s : St) : Prop :=
  Forall (fun k => is_Some (data (session s) !! k)) ks.

(** ** The end of a session *)

Definition is_cleanup (e : event) : bool :=
  match e with ECleanup => true | _ => false end.

Definition is_collate (e : event) : bool :=
  match e with ECollate _ => true | _ => false end.

(** The line that the handler of SIGINT prints first. *)
Definition is_exiting (e : event) : bool :=
  match e with EPrint line => String.eqb line "Exiting." | _ => false end.

(** The events that are none of these three. *)
Definition quiet_end (e : event) : bool :=
  negb (is_cleanup e || is_collate e || is_exiting e).

(** No event at all. *)
Definition no_event (e : event) : bool := false.

Definition sig_count (sg : signal) : nat :=
  match sg with Sigint => 1 | Edge _ _ => 0 end.

(** The SIGINTs among the signals of one tick, and in a whole script. *)
Definition sigints_of (l : list (Q * signal)) : nat :=
  fold_right (fun x n => (sig_count (snd x) + n)%nat) 0%nat l.

Definition sigints (sc : list tick) : nat :=
  fold_right (fun tk n => (sigints_of (fired tk) + n)%nat) 0%nat sc.

(** Where a log stands between a cleanup and the collation that follows:
    a collation anywhere but right after a cleanup is a disorder. *)
Inductive end_phase : Type :=
  | Training
  | Cleaned
  | Disorder.

Definition end_step (ph : end_phase) (e : event) : end_phase :=
  match ph with
  | Disorder => Disorder
  | _ =>
      match e with
      | ECleanup => Cleaned
      | ECollate _ => match ph with Cleaned => Training | _ => Disorder end
      | _ => Training
      end
  end.

Definition end_run (l : list event) : end_phase := fold_left end_step l Training.

(** [data['end_time']] has been formatted: it is a string. *)
Definition closed (s : St) : Prop :=
  exists str, data (session s) !! "end_time" = Some (PStr str).

(** What the log [evs] of a session says of its end. *)
Record end_log (evs : list event) : Prop := mkEndLog {
  end_order : end_run evs <> Disorder;
  end_collate : (count is_collate evs <= count is_cleanup evs)%nat;
  end_exiting : (count is_exiting evs <= count is_cleanup evs)%nat
}.

(** The trial loop since the log was [L], with the handler of [run] installed
    and a board in place: cleanups done, SIGINTs still to come in the script
    and [pending] SIGINTs being delivered are at most one in all; and, when
    [strict], a cleanup was followed by the formatting of the end time. *)
Definition ending (L : list event) (strict : bool) (pending : nat) (s : St) : Prop :=
  sigint s = end_session_manually_handler /\
  is_Some (_rpi (session s)) /\
  exists evs,
    log s = L ++ evs /\ end_log evs /\
    (count is_cleanup evs + sigints (script (world s)) + pending <= 1)%nat /\
    (strict = true -> count is_cleanup evs <> 0%nat -> closed s).

(** While the board cleans up, and while the record is collated and shown:
    only events of class [P] since the log was [L], handler and script as
    they were, the board in place. *)
Definition lull (P : event -> bool) (L : list event) (h : sighandler)
    (sc : list tick) (s : St) : Prop :=
  emits P L s /\ sigint s = h /\ script (world s) = sc /\
  is_Some (_rpi (session s)).

(** [J] holds when [m] returns, and [K] however it ends. *)
Class Guarded (J K : St -> Prop) {A} (m : M A) : Prop :=
  guarded_call : forall s, J s -> wp m s (fun r s' => K s' /\ (is_ok r -> J s')).

(** ** The pins of the board *)

(** Both paws are on their rests: the board's two paw pins read high. *)
Definition resting (s : St) : Prop :=
  exists r p0 p1,
    _rpi (session s) = Some r /\
    py_nth (paw_pins r) 0 = Some p0 /\ py_nth (paw_pins r) 1 = Some p1 /\
    snd (GPIO.input p0 s) = Ok true /\ snd (GPIO.input p1 s) = Ok true.

(** The session is [x]: what the library calls of a method leave alone. *)
Definition same_session (x : Session) (s : St) : Prop := session s = x.

(** A spout as [_initialise_pins] leaves it: no timepoint yet. *)
Definition blank (p : Spout) : Spout :=
  set_touch_timepoints [] (set_cue_timepoints [] p).

(** [data['cue_timepoints']] is a list of [n] entries. *)
Definition cue_lists (n : nat) (s : St) : Prop :=
  exists cl, data (session s) !! "cue_timepoints" = Some (PList cl) /\ length cl = n.

(** Board and reward counter are [r] and [n]. *)
Definition counted (r : option RPi) (n : Z) (s : St) : Prop :=
  _rpi (session s) = r /\ _reward_count (session s) = n.

(** Away from a Raspberry Pi: the pins are as [g] has them, and the board, if
    there is one, is the mock. *)
Definition mock_only (g : GPIO) (s : St) : Prop :=
  gpio s = g /\
  (forall r, _rpi (session s) = Some r -> board_of r = RPiMock) /\
  is_raspberry_pi (world s) = false.

(** ** Draws and paw lifts of an interval *)

(** The durations that the count-down lines of a log show, in order. *)
Fixpoint durations (l : list event) : list Q :=
  match l with
  | [] => []
  | ECountingDown _ d :: l' => d :: durations l'
  | _ :: l' => durations l'
  end.

(** The first [k] numbers that [next_draw] takes from the source [l]; a
    source that has run out gives 0. *)
Fixpoint draws (k : nat) (l : list N) : list N :=
  match k with
  | O => []
  | S k' =>
      match l with
      | [] => 0%N :: draws k' []
      | r :: l' => r :: draws k' l'
      end
  end.

(** [random.uniform(a, b) / 1000] when [random.random()] is the fraction of
    the draw [r]. *)
Definition iti_seconds (a b : Q) (r : N) : Q :=
  ((a + (b - a) * unit_fraction r) / 1000)%Q.

(** The two entries of [data['iti']], as numbers. *)
Definition iti_bounds (iti : option pyval) : option (Q * Q) :=
  match iti with
  | Some (PList [a; b]) =>
      match as_num a, as_num b with
      | Some qa, Some qb => Some (qa, qb)
      | _, _ => None
      end
  | _ => None
  end.

(** The durations [ds] are those that [random.uniform] computes from the
    bounds of [iti] and the first draws of the source [E0], one draw each. *)
Definition drawn_in_turn (iti : option pyval) (E0 : list N) (ds : list Q) : Prop :=
  match iti_bounds iti with
  | Some (qa, qb) => ds = map (iti_seconds qa qb) (draws (length ds) E0)
  | None => ds = []
  end.

(** Since the log was [L] and the source of random numbers [E0], each
    count-down announced has used up one draw, in turn. *)
Definition rolled (iti : option pyval) (E0 : list N) (L : list event) (s : St) : Prop :=
  exists evs, log s = L ++ evs /\
    entropy (world s) = drop (length (durations evs)) E0 /\
    drawn_in_turn iti E0 (durations evs).

(** The reset callback is fired for [pin]. *)
Definition fires_reset (pin : Z) (e : event) : bool :=
  match e with
  | EFire reset_iti_callback pin' => pin =? pin'
  | _ => false
  end.

(** The signal is a falling edge of [pin]. *)
Definition falls (pin : Z) (x : Q * signal) : bool :=
  match snd x with
  | Edge FALLING pin' => pin =? pin'
  | _ => false
  end.

(** How many times [pin] falls in the ticks [l]. *)
Definition lifts (pin : Z) (l : list tick) : nat :=
  length (List.filter (falls pin) (concat (map fired l))).

(** Pins, board, log and environment are those of [s0]. *)
Definition framed (s0 s : St) : Prop :=
  gpio s = gpio s0 /\ _rpi (session s) = _rpi (session s0) /\ log s = log s0 /\
  world s = world s0.

(** While the sensors are armed as [G] has them and the signals still to
    come are [sc]: the reset callback was fired [n0] times for the left paw
    (pin 17) and [n1] times for the right paw (pin 18) since the log was [L],
    and the two lists of [data['resets_timepoints']], which were [x0] and
    [x1], have grown by as many entries. *)
Definition lift_inv (G : GPIO) (r : RPi) (L : list event) (x0 x1 : list pyval)
    (sc : list tick) (n0 n1 : nat) (s : St) : Prop :=
  gpio s = G /\ _rpi (session s) = Some r /\ script (world s) = sc /\
  exists evs y0 y1,
    log s = L ++ evs /\
    count (fires_reset 17) evs = n0 /\ count (fires_reset 18) evs = n1 /\
    data (session s) !! "resets_timepoints"
    = Some (PList [PList (x0 ++ y0); PList (x1 ++ y1)]) /\
    length y0 = n0 /\ length y1 = n1.

(** The same between two blocking calls, [sc0] being the signals still to
    come when the log was [L]: the counts are those of the falling edges of
    the two paw pins in the ticks used up since, and no SIGINT is to come. *)
Definition lifting (G : GPIO) (r : RPi) (L : list event) (x0 x1 : list pyval)
    (sc0 : list tick) (s : St) : Prop :=
  exists consumed,
    sigints (script (world s)) = 0%nat /\
    sc0 = consumed ++ script (world s) /\
    lift_inv G r L x0 x1 (script (world s)) (lifts 17 consumed) (lifts 18 consumed) s.

(** What an interval on the physical board does with the paw lifts, [body]
    being what it logged before the call of [disable_sensors]: if the board
    has the pins of the pin table, nothing but the shaping toggle is armed
    when the interval starts and no SIGINT is to come, then each falling edge
    of a paw pin that the library detects during the interval fires the reset
    callback once, and adds one entry to the list of that paw in
    [data['resets_timepoints']]. *)
Definition lifts_recorded (s s' : St) (body : list event) : Prop :=
  forall r x0 x1,
    _rpi (session s) = Some r ->
    board_of r = RPiReal ->
    _button_pins r = _PIN_NUMBERS_buttons ->
    paw_pins r = _PIN_NUMBERS_paw_sensors ->
    (forall pin e cb, detect (gpio s) !! pin = Some (e, cb) ->
                      cb = reverse_shaping_callback) ->
    sigints (script (world s)) = 0%nat ->
    data (session s) !! "resets_timepoints" = Some (PList [PList x0; PList x1]) ->
    exists consumed y0 y1,
      script (world s) = consumed ++ script (world s') /\
      count (fires_reset 17) body = lifts 17 consumed /\
      count (fires_reset 18) body = lifts 18 consumed /\
      data (session s') !! "resets_timepoints"
      = Some (PList [PList (x0 ++ y0); PList (x1 ++ y1)]) /\
      length y0 = lifts 17 consumed /\ length y1 = lifts 18 consumed.

(** The log and the state at the end of an interval that started in [s]:
    the log is an [iti_log]; the count-downs have used up one draw each of the
    source of random numbers, in turn, and last what [random.uniform] makes of
    the draw and the bounds of [data['iti']]; and on the physical board the
    paw lifts were recorded. *)
Definition iti_record (s s' : St) : Prop :=
  exists body deadline,
    log s' = log s ++ body ++ [EDisableSensors] /\
    count is_disable body = 0%nat /\
    Forall (drawn (data (session s) !! "iti")) body /\
    Forall (bounded (data (session s) !! "iti")) body /\
    iti_run body = CountingDown deadline /\
    (deadline <= clock (world s'))%Q /\
    _iti_broken (session s') = false /\
    entropy (world s') = drop (length (durations body)) (entropy (world s)) /\
    (exists qa qb,
       iti_bounds (data (session s) !! "iti") = Some (qa, qb) /\
       durations body
       = map (iti_seconds qa qb) (draws (length (durations body)) (entropy (world s)))) /\
    lifts_recorded s s' body.

(** ** Who assigns [_outcome] *)

(** A callback that assigns [_outcome] is fired. *)
Definition outcome_fire (e : event) : bool :=
  match e with
  | EFire cb _ => negb (outcome_code cb =? 0)
  | _ => false
  end.

(** Since the log was [L], [_outcome] is [o] unless a callback that assigns it
    has been fired. *)
Definition outcome_held (L : list event) (o : Z) (s : St) : Prop :=
  exists evs, log s = L ++ evs /\
    (count outcome_fire evs = 0%nat -> _outcome (session s) = o).


(** One of the two lines that announce a grasp. *)
Definition hit_line (e : event) : bool :=
  match e with
  | EPrint line => String.eqb line "Successful reach!" || String.eqb line "Incorrect reach!"
  | _ => false
  end.

(** Since the log was [L], no grasp has been announced unless a callback
    that assigns [_outcome] has been fired. *)
Definition misses_only (L : list event) (s : St) : Prop :=
  exists evs, log s = L ++ evs /\
    (count outcome_fire evs = 0%nat -> count hit_line evs = 0%nat).


(** What [run] prints when the merged [data] has the key
    [resets_timepoints]. *)
Definition resets_notice (d : gmap string pyval) : list event :=
  if bool_decide (is_Some (d !! "resets_timepoints"))
  then [EPrint "resets_timepoints key found in session data."]
  else [].

(** The line that announces a rewarded trial. *)
Definition is_success (e : event) : bool :=
  match e with
  | EPrint line => String.eqb line "Successful reach!"
  | _ => false
  end.

(** Every summary among the events [evs] shows as rewards [n] and the
    successes announced before it. *)
Definition shown (n : Z) (evs : list event) : Prop :=
  forall pre t c post,
    evs = pre ++ (EResults t c :: post) -> c = (n + Z.of_nat (count is_success pre))%Z.

(** Since the log was [L] and the reward counter [n], the counter went up with
    each success announced, and the summaries showed it. *)
Definition tallied (L : list event) (n : Z) (s : St) : Prop :=
  exists evs, log s = L ++ evs /\
    _reward_count (session s) = n + Z.of_nat (count is_success evs) /\
    shown n evs.

(** [data[k]] is the list of the lists of timepoints [ls]. *)
Definition float_lists (k : string) (ls : list (list Q)) (s : St) : Prop :=
  data (session s) !! k = Some (PList (map floats ls)).

(** The differences of two lists of numbers, position by position, as many as
    the shorter list has. *)
Fixpoint differences (xs ys : list Q) : list Q :=
  match xs, ys with
  | x :: xs', y :: ys' => (x - y)%Q :: differences xs' ys'
  | _, _ => []
  end.

(** ** Fuel *)

(** The result of a statement that did not stop for want of fuel: it returned
    or raised an exception of the program. *)
Definition halts {A} (r : res A) : Prop := r <> Raise OutOfFuel.

(** A statement that never needs fuel. *)
Class Halts {A} (m : M A) : Prop :=
  halts_run : forall s, halts (snd (m s)).


(** Log, session and clock are [l], [x] and [c]. *)
Definition settled (l : list event) (x : Session) (c : Q) (s : St) : Prop :=
  log s = l /\ session s = x /\ clock (world s) = c.

(** A name that is not a function of the program: where the automation stops
    when it is to stop nowhere. *)
Definition nowhere : unit := tt.

(** * Rules for running statements *)

Lemma wp_ret {A} (a : A) s Q : Q (Ok a) s -> wp (ret a) s Q.
Proof. exact id. Qed.

Lemma wp_raise {A} e s (Q : res A -> St -> Prop) : Q (Raise e) s -> wp (raise e) s Q.
Proof. exact id. Qed.

Lemma wp_gets {A} (f : St -> A) s Q : Q (Ok (f s)) s -> wp (gets f) s Q.
Proof. exact id. Qed.

Lemma wp_modify f s Q : Q (Ok tt) (f s) -> wp (modify f) s Q.
Proof. exact id. Qed.

Lemma wp_bind {A B} (m : M A) (k : A -> M B) s Q :
  wp m s (fun r s' => match r with
                      | Ok a => wp (k a) s' Q
                      | Raise e => Q (Raise e) s'
                      end) ->
  wp (bind m k) s Q.
Proof. unfold wp, bind. destruct (m s) as [s' [a|e]]; simpl; auto. Qed.

Lemma wp_mono {A} (m : M A) s (Q Q' : res A -> St -> Prop) :
  wp m s Q -> (forall r s', Q r s' -> Q' r s') -> wp m s Q'.
Proof. unfold wp. auto. Qed.

Lemma wp_swallow (m : M unit) s Q :
  wp m s (fun _ s' => Q (Ok tt) s') -> wp (swallow m) s Q.
Proof. exact id. Qed.

Lemma wp_some_or {A} e (o : option A) s Q :
  match o with Some a => Q (Ok a) s | None => Q (Raise e) s end ->
  wp (some_or e o) s Q.
Proof. destruct o; exact id. Qed.

Lemma wp_when (b : bool) m s Q :
  (if b then wp m s Q else Q (Ok tt) s) -> wp (when b m) s Q.
Proof. destruct b; exact id. Qed.

Lemma wp_run {A} (m : M A) s (Q : res A -> St -> Prop) s' r :
  m s = (s', r) -> wp m s Q -> Q r s'.
Proof. unfold wp. intros ->. exact id. Qed.

Lemma stable_for_each (I : St -> Prop) {A} (l : list A) body :
  (forall x, stable I (body x)) -> stable I (for_each l body).
Proof.
  intros H. induction l as [|x l IH]; intros s HI; simpl.
  - exact HI.
  - apply wp_bind. eapply wp_mono; [apply H, HI|].
    intros [[]|e] s' HI'; cbv beta iota; auto.
Qed.

(** Projections of a state changed by field updates. *)
Ltac st_simpl :=
  cbn [session gpio world sigint log
       with_session with_gpio with_world set_sigint emit
       data _outcome _iti_broken _current_spout _water_at_cue_onset _rpi
       _reward_count spont_reach_spouts
       set_data set_outcome set_iti_broken set_current_spout
       set_water_at_cue_onset set_rpi set_reward_count set_spont_reach_spouts
       board_of _button_pins paw_pins spouts lift_timepoints _pin_states
       set_spouts set_lift_timepoints set_pin_states
       cue touch solenoid cue_timepoints touch_timepoints
       set_cue_timepoints set_touch_timepoints
       clock script entropy levels is_raspberry_pi utc_offset
       set_clock set_script set_entropy set_levels
       mode_set channels outputs detect
       option_map fst snd].

Ltac head_of t := lazymatch t with ?f _ => head_of f | _ => t end.

(** The functions defined by recursion; the stepper leaves them alone. *)
Ltac is_loop h :=
  lazymatch h with
  | @for_each => idtac
  | collate_spouts => idtac
  | GPIO_wait_for_edge => idtac
  | Real_wait_for_rest => idtac
  | countdown => idtac
  | rest_and_count_down => idtac
  | await_outcome => idtac
  | trials => idtac
  | extend_all => idtac
  | map_sub => idtac
  end.

(** One step of the statement at the head of a [wp] goal. *)
Ltac wp_step :=
  lazymatch goal with
  | |- wp (bind _ _) _ _ => apply wp_bind
  | |- wp (ret _) _ _ => apply wp_ret; cbv beta iota
  | |- wp (raise _) _ _ => apply wp_raise; cbv beta iota
  | |- wp (gets _) _ _ => apply wp_gets; cbv beta iota
  | |- wp (modify _) _ _ => apply wp_modify; cbv beta iota
  | |- wp (some_or _ (Some _)) _ _ => apply wp_some_or; cbv beta iota
  | |- wp (some_or _ None) _ _ => apply wp_some_or; cbv beta iota
  | |- wp (some_or _ ?o) _ _ => apply wp_some_or; destruct o eqn:?; cbv beta iota
  | |- wp (when true ?m) _ _ => change (when true m) with m
  | |- wp (when false ?m) _ _ => change (when false m) with (ret tt)
  | |- wp (when ?b _) _ _ => apply wp_when; destruct b eqn:?; cbv beta iota
  | |- wp (swallow _) _ _ => apply wp_swallow
  | |- wp (if ?b then _ else _) _ _ => destruct b eqn:?
  | |- wp (match ?x with _ => _ end) _ _ => destruct x eqn:?
  | |- wp (let '(_, _) := ?x in _) _ _ => destruct x eqn:?
  | |- wp ?m _ _ =>
      let h := head_of m in
      tryif is_loop h then fail else unfold h at 1
  end.

(** Cut at the statement at the head of the goal: it establishes [J], and the
    rest runs from a state of which only [J] is known. *)
Ltac wp_cut J :=
  lazymatch goal with
  | |- wp (bind _ _) _ _ => apply wp_bind
  | |- _ => idtac
  end;
  eapply (wp_mono _ _ (fun _ s' => J s'));
  [ | let r := fresh "r" in let s' := fresh "s" in let H := fresh "HI" in
      intros r s' H; destruct r; cbv beta iota ].

(** The same for a statement that establishes [J] when it returns; what
    follows an exception is left to the caller. *)
Ltac wp_cut_ok J :=
  lazymatch goal with
  | |- wp (bind _ _) _ _ => apply wp_bind
  | |- _ => idtac
  end;
  eapply (wp_mono _ _ (fun r s' => is_ok r -> J s'));
  [ | let r := fresh "r" in let s' := fresh "s" in let H := fresh "HI" in
      intros r s' H; destruct r; cbv beta iota; [ specialize (H I) | ] ].

(** The statements that only read the state: the rest of the program is run
    with what they return. *)
Ltac is_read h :=
  lazymatch h with
  | @gets => idtac
  | @ret => idtac
  | @raise => idtac
  | @some_or => idtac
  | @bind => idtac
  | the_session => idtac
  | the_data => idtac
  | data_get => idtac
  | the_rpi => idtac
  | the_board => idtac
  | time_time => idtac
  | spout_at => idtac
  | spout_number_of => idtac
  | GPIO.the_gpio => idtac
  | GPIO.numbered => idtac
  end.

(** Run a statement with invariant [I], up to the first call of [f]: [tac]
    proves [I] of a changed state; a recursive function is called through its
    [Stable] instance; any other statement that is followed by more is run on
    its own, and the rest from a state of which only [I] is known. *)
Ltac wp_auto_to f I tac :=
  repeat first
    [ lazymatch goal with
      | |- wp (bind ?m _) _ _ =>
          let h := head_of m in
          lazymatch h with f => fail | _ => idtac end
      | |- wp ?m _ _ =>
          let h := head_of m in
          lazymatch h with f => fail | _ => idtac end
      | |- _ => idtac
      end;
      first
        [ lazymatch goal with
          | |- wp (bind (for_each _ _) _) _ _ =>
              wp_cut I; [ apply stable_for_each; [ intros ? ? ? | ] | | ]
          | |- wp (for_each _ _) _ _ =>
              wp_cut I; [ apply stable_for_each; [ intros ? ? ? | ] | | ]
          | |- wp (bind (modify _) _) _ _ =>
              wp_cut I; [ apply wp_modify; solve [ tac ] | | ]
          | |- wp (modify _) _ _ => fail
          | |- wp _ _ _ =>
              wp_cut I; [ apply stable_call | | ]
          end
        | lazymatch goal with
          | |- wp (bind ?m _) _ _ =>
              let h := head_of m in
              tryif is_read h then fail else (wp_cut I)
          end
        | wp_step
        | solve [ tac ] ] ].

Ltac wp_auto I tac := wp_auto_to nowhere I tac.

(** Step until the statement at the head is a call of [f]. *)
Ltac wp_steps_to f :=
  repeat (lazymatch goal with
          | |- wp ?m _ _ =>
              let h := head_of m in
              lazymatch h with f => fail | _ => idtac end
          | |- _ => idtac
          end; wp_step).

#[global] Instance stable_both (I J : St -> Prop) {A} (m : M A) :
  Stable I m -> Stable J m -> Stable (both I J) m.
Proof. intros HI HJ s [H1 H2]. split; [apply HI, H1 | apply HJ, H2]. Qed.

(** An invariant made of two, after one assignment. *)
Ltac both_tac t1 t2 :=
  idtac;
  match goal with
  | H : both ?I ?J ?s |- both ?I ?J _ =>
      let H1 := fresh in let H2 := fresh in
      destruct H as [H1 H2]; split; [ t1 | t2 ]
  end.

Lemma wp_data_get k v s (Q : res pyval -> St -> Prop) :
  data (session s) !! k = Some v -> Q (Ok v) s -> wp (data_get k) s Q.
Proof.
  intros H HQ. unfold wp, data_get, the_data, bind, gets, some_or. simpl.
  rewrite H. exact HQ.
Qed.

(** The last statement of a sequence decides what holds when the sequence
    returns. *)
Lemma wp_bind_last {A B} (m : M A) (k : A -> M B) s (Q : res B -> St -> Prop) :
  (forall e s', Q (Raise e) s') -> (forall a s', wp (k a) s' Q) -> wp (bind m k) s Q.
Proof.
  intros HR Hk. apply wp_bind. unfold wp at 1. destruct (m s) as [s' [a|e]]; simpl; auto.
Qed.

Lemma count_app P l1 l2 : count P (l1 ++ l2) = (count P l1 + count P l2)%nat.
Proof. unfold count. rewrite List.filter_app. apply length_app. Qed.

Lemma wp_conj {A} (m : M A) s (Q1 Q2 : res A -> St -> Prop) :
  wp m s Q1 -> wp m s Q2 -> wp m s (fun r s' => Q1 r s' /\ Q2 r s').
Proof. unfold wp. auto. Qed.

(** A sequence that returned: its first statement returned, and the rest
    returned from where it left. *)
Lemma bind_ok {A B} (m : M A) (k : A -> M B) s s' b :
  bind m k s = (s', Ok b) -> exists a s1, m s = (s1, Ok a) /\ k a s1 = (s', Ok b).
Proof.
  unfold bind. destruct (m s) as [s1 [a|e]]; [|discriminate]. intros H. eauto.
Qed.

Lemma some_or_ok {A} e (o : option A) s s' a :
  some_or e o s = (s', Ok a) -> o = Some a /\ s' = s.
Proof. destruct o; simpl; [|discriminate]. intros [= <- <-]. auto. Qed.

Lemma bind_run {A B} (m : M A) (k : A -> M B) s s1 a :
  m s = (s1, Ok a) -> bind m k s = k a s1.
Proof. unfold bind. intros ->. reflexivity. Qed.

Lemma bind_raise {A B} (m : M A) (k : A -> M B) s s1 e :
  m s = (s1, Raise e) -> bind m k s = (s1, Raise e).
Proof. unfold bind. intros ->. reflexivity. Qed.

Lemma stable_keeps {A} (I : St -> Prop) (m : M A) s s' r :
  stable I m -> I s -> m s = (s', r) -> I s'.
Proof. intros Hm HI H. specialize (Hm s HI). unfold wp in Hm. rewrite H in Hm. exact Hm. Qed.

(** What statements that returned tell. *)
Lemma gets_ok {A} (f : St -> A) s s' a : gets f s = (s', Ok a) -> a = f s /\ s' = s.
Proof. intros [= <- <-]. auto. Qed.

Lemma ret_ok {A} (x : A) s s' a : ret x s = (s', Ok a) -> a = x /\ s' = s.
Proof. intros [= <- <-]. auto. Qed.

Lemma modify_ok f s s' u : modify f s = (s', Ok u) -> s' = f s.
Proof. intros [= <-]. reflexivity. Qed.

Lemma data_get_ok k s s' v :
  data_get k s = (s', Ok v) -> data (session s) !! k = Some v /\ s' = s.
Proof.
  unfold data_get, the_data. intros H. apply bind_ok in H as (d & s1 & Hd & H).
  apply gets_ok in Hd as [-> ->]. apply some_or_ok in H. exact H.
Qed.

Lemma list_of_ok v s s' l : list_of v s = (s', Ok l) -> v = PList l /\ s' = s.
Proof. destruct v; try discriminate. intros [= <- <-]. auto. Qed.

Lemma num_of_ok v s s' q : num_of v s = (s', Ok q) -> as_num v = Some q /\ s' = s.
Proof. unfold num_of. apply some_or_ok. Qed.

Lemma when_ok b m s s' u :
  when b m s = (s', Ok u) -> (b = true /\ m s = (s', Ok u)) \/ (b = false /\ s' = s).
Proof. destruct b; simpl; [left; auto|]. intros [= <-]. right; auto. Qed.

Lemma the_rpi_ok s s' r : the_rpi s = (s', Ok r) -> _rpi (session s) = Some r /\ s' = s.
Proof.
  unfold the_rpi, the_session. intros H. apply bind_ok in H as (x & s1 & [= <- <-] & H).
  apply some_or_ok in H. exact H.
Qed.

(** Take apart a hypothesis that says that a statement returned. *)
Ltac inv_ok H :=
  lazymatch type of H with
  | bind _ _ _ = (_, Ok _) =>
      let a := fresh "a" in let s := fresh "s" in let H1 := fresh "H" in
      apply bind_ok in H as (a & s & H1 & H); inv_ok H1; inv_ok H
  | gets _ _ = (_, Ok _) => apply gets_ok in H as [-> ->]
  | the_session _ = (_, Ok _) => apply gets_ok in H as [-> ->]
  | time_time _ = (_, Ok _) => apply gets_ok in H as [-> ->]
  | ret _ _ = (_, Ok _) => apply ret_ok in H as [-> ->]
  | modify _ _ = (_, Ok _) => apply modify_ok in H; subst
  | say _ _ = (_, Ok _) => apply modify_ok in H; subst
  | data_set _ _ _ = (_, Ok _) => apply modify_ok in H; subst
  | update_rpi _ _ = (_, Ok _) => apply modify_ok in H; subst
  | some_or _ _ _ = (_, Ok _) => apply some_or_ok in H as [H ->]
  | the_rpi _ = (_, Ok _) => apply the_rpi_ok in H as [H ->]
  | data_get _ _ = (_, Ok _) => apply data_get_ok in H as [H ->]
  | list_of _ _ = (_, Ok _) => apply list_of_ok in H as [-> ->]
  | num_of _ _ = (_, Ok _) => apply num_of_ok in H as [H ->]
  | _ => idtac
  end.

(** * The outcome of a trial is overwritten by each callback *)

Lemma reward_callback_sets_outcome pin s :
  snd (_reward_callback pin s) = Ok tt ->
  _outcome (session (fst (_reward_callback pin s))) = 1.
Proof.
  revert s.
  assert (H : forall s, wp (_reward_callback pin) s
                (fun r s' => r = Ok tt -> _outcome (session s') = 1)).
  { intros s. unfold _reward_callback.
    apply wp_bind, wp_gets; cbv beta iota.
    apply wp_bind. unfold wp at 1.
    destruct (rpi_successful_grasp _ s) as [s1 [[]|e]]; simpl; [|discriminate].
    apply wp_bind, wp_modify; cbv beta iota.
    apply wp_bind, wp_gets; cbv beta iota.
    apply wp_when. destruct (negb _); [|reflexivity].
    apply wp_bind. unfold data_get at 1.
    apply wp_bind. unfold the_data at 1. apply wp_gets; cbv beta iota.
    apply wp_some_or. destruct (_ !! _); [|discriminate].
    unfold rpi_dispense_water.
    apply wp_bind. unfold the_board. apply wp_bind. unfold the_rpi.
    apply wp_bind. unfold the_session. apply wp_gets; cbv beta iota.
    apply wp_some_or. simpl. destruct (_rpi (session s1)) as [r|]; [|discriminate].
    apply wp_ret. apply wp_bind. unfold say. apply wp_modify; cbv beta iota.
    set (s2 := emit _ _).
    assert (Ho : _outcome (session s2) = 1) by reflexivity.
    clearbody s2. revert Ho.
    generalize (_current_spout (session (with_session (set_outcome 1) s1))).
    intros c Ho.
    assert (G : forall (m : M unit),
               (forall s, wp m s (fun _ s' => _outcome (session s') = _outcome (session s))) ->
               wp m s2 (fun r s' => r = Ok tt -> _outcome (session s') = 1)).
    { intros m Hm. eapply wp_mono; [apply Hm|]. intros; simpl in *; congruence. }
    destruct (board_of r); apply G; intros s0.
    - wp_auto (fun s' => _outcome (session s') = _outcome (session s0)) ltac:(first [reflexivity | assumption]).
    - wp_auto (fun s' => _outcome (session s') = _outcome (session s0)) ltac:(first [reflexivity | assumption]). }
  intros s Hs. specialize (H s). unfold wp in H. auto.
Qed.

Lemma incorrect_grasp_callback_sets_outcome pin s :
  snd (_incorrect_grasp_callback pin s) = Ok tt ->
  _outcome (session (fst (_incorrect_grasp_callback pin s))) = 2.
Proof.
  unfold _incorrect_grasp_callback, bind, the_session, gets, modify.
  destruct (rpi_incorrect_grasp _ s) as [s1 [[]|e]]; simpl; [reflexivity|discriminate].
Qed.

(** * Spontaneous reaches at collation *)

(** C5, on a two-spout session in which the only spontaneous reach touches
    spout 0 (pin 27): the reach is recognised as spout 0's, and its timepoint is
    filed under spout 1, spout 0's list staying empty. *)
Theorem spont_reach_of_spout_0_filed_under_spout_1 :
  let s' := fst (run 100 (Demo.config 2 (1 # 10) 40 40 false)
                   (boot ∅ (Demo.box Demo.stray_reach))) in
  spont_reach_spouts (session s') = [0] /\
  data (session s') !! "spont_reach_timepoints"
  = Some (PList [PList []; PList [PFloat (2001 # 2)]]).
Proof. vm_compute. split; reflexivity. Qed.

(** * Reaction times *)

(** C6, on the data of two trials on one spout, the first one missed: the
    touch of the second trial is paired with the cue of the first, which gives
    11 s where the matched pair gives 21 - 20 = 1 s. *)
Theorem reaction_time_pairs_touch_with_missed_cue :
  snd (reaction_times (boot Demo.missed_then_hit (Demo.desk [])))
  = Ok [PFloat (21 - 10)] /\
  ~ (21 - 10 == 21 - 20)%Q.
Proof. split; [vm_compute; reflexivity|]. intros H. vm_compute in H. discriminate. Qed.

(** * Cleaning up twice *)

Lemma output_keeps_session x pin v :
  stable (fun s => session s = x) (GPIO.output pin v).
Proof. intros s Hs. wp_auto (fun s => session s = x) ltac:(assumption). Qed.

Lemma Real_cleanup_spec s :
  wp Real.cleanup s (fun r s' =>
    session s' = session s /\ log s' = log s /\
    (r = Ok tt -> gpio s' = mkGPIO false ∅ ∅ ∅)).
Proof.
  unfold Real.cleanup. repeat wp_step; try (split; [|split]; done).
  wp_cut (fun s' => session s' = session s /\ log s' = log s).
  - apply stable_for_each; [|split; reflexivity].
    intros p s0 Hs0.
    wp_auto (fun s' => session s' = session s /\ log s' = log s) ltac:(assumption).
  - unfold GPIO.cleanup. wp_step. destruct HI as [H1 H2]. simpl. auto.
  - destruct HI as [H1 H2]. split; [|split]; [assumption..|discriminate].
Qed.

Lemma rpi_cleanup_spec s :
  wp rpi_cleanup s (fun r s' =>
    session s' = session s /\
    match r with
    | Ok _ =>
        exists b, option_map board_of (_rpi (session s)) = Some b /\
        match b with
        | RPiReal => gpio s' = mkGPIO false ∅ ∅ ∅
        | RPiMock => gpio s' = gpio s
        end
    | Raise _ => True
    end).
Proof.
  unfold rpi_cleanup, the_board, the_rpi, the_session, say.
  wp_steps_to Real.cleanup; try (split; done).
  - eapply wp_mono; [apply Real_cleanup_spec|].
    intros res s' (Hs & _ & Hg); simpl in *. split; [exact Hs|].
    destruct res as [[]|]; [|exact I]. exists RPiReal. split; [|auto].
    simpl. congruence.
  - split; [reflexivity|]. exists RPiMock. split; [|reflexivity].
    simpl. congruence.
Qed.

Lemma second_cleanup_on_cleaned_box s r :
  _rpi (session s) = Some r -> board_of r = RPiReal ->
  gpio s = mkGPIO false ∅ ∅ ∅ ->
  gpio (fst (rpi_cleanup s)) = gpio s /\
  (spouts r <> [] -> snd (rpi_cleanup s) = Raise RuntimeError).
Proof.
  intros Hr Hb Hg.
  unfold rpi_cleanup, the_board, the_rpi, the_session, say, bind, gets, modify, some_or, ret.
  rewrite Hr; simpl. rewrite Hb; simpl.
  unfold Real.cleanup, the_rpi, the_session, bind, gets, some_or, ret; simpl.
  rewrite Hr; simpl.
  destruct (spouts r) as [|p l]; simpl.
  - unfold bind, ret, GPIO.cleanup, modify; simpl. split; [symmetry; exact Hg|done].
  - unfold bind, GPIO.output, GPIO.numbered, GPIO.the_gpio, bind, gets; simpl.
    rewrite Hg; simpl. split; [exact Hg|reflexivity].
Qed.

Lemma second_cleanup_on_mock s r :
  _rpi (session s) = Some r -> board_of r = RPiMock ->
  gpio (fst (rpi_cleanup s)) = gpio s /\ snd (rpi_cleanup s) = Ok tt.
Proof.
  intros Hr Hb.
  unfold rpi_cleanup, the_board, the_rpi, the_session, say, bind, gets, modify, some_or, ret.
  rewrite Hr; simpl. rewrite Hb; simpl. split; reflexivity.
Qed.

Lemma cleaned_actuators_off : actuators_off (mkGPIO false ∅ ∅ ∅).
Proof. intros p _. unfold GPIO.driven; simpl. rewrite !lookup_empty. split; reflexivity. Qed.

(** C9, as the code has it: after a first [cleanup] that returns, a second one
    leaves the hardware state as the first one left it.  On the physical board
    that state has no channel set up and no cue or solenoid line driven, and
    the second call, when the board has a spout, raises [RuntimeError] at its
    first [GPIO.output]; on the mock board [cleanup] touches nothing and
    returns; the terminal board's [cleanup] restores the same terminal modes
    each time and never touches the pin states. *)
Theorem cleanup_twice_same_hardware_state (s : St) :
  snd (rpi_cleanup s) = Ok tt ->
  let s1 := fst (rpi_cleanup s) in
  let s2 := fst (rpi_cleanup s1) in
  gpio s2 = gpio s1 /\
  (exists r, _rpi (session s) = Some r /\
     match board_of r with
     | RPiReal =>
         gpio s1 = mkGPIO false ∅ ∅ ∅ /\ actuators_off (gpio s1) /\
         (spouts r <> [] -> snd (rpi_cleanup s1) = Raise RuntimeError)
     | RPiMock => gpio s1 = gpio s /\ snd (rpi_cleanup s1) = Ok tt
     end) /\
  (forall rig, Curses.cleanup (Curses.cleanup rig) = Curses.cleanup rig /\
               Curses.pin_states (Curses.cleanup rig) = Curses.pin_states rig).
Proof.
  intros Hok s1 s2.
  pose proof (rpi_cleanup_spec s) as H. unfold wp in H. rewrite Hok in H.
  fold s1 in H. destruct H as (Hs & b & Hb & Hg).
  destruct (_rpi (session s)) as [r|] eqn:Hr; [|discriminate].
  simpl in Hb. injection Hb as Hb.
  assert (Hr1 : _rpi (session s1) = Some r) by congruence.
  split; [|split].
  - subst s2. destruct b.
    + apply (second_cleanup_on_cleaned_box s1 r Hr1 Hb Hg).
    + apply (second_cleanup_on_mock s1 r Hr1 Hb).
  - exists r. split; [reflexivity|]. rewrite Hb. destruct b.
    + split; [exact Hg|]. split; [rewrite Hg; apply cleaned_actuators_off|].
      apply (second_cleanup_on_cleaned_box s1 r Hr1 Hb Hg).
    + split; [exact Hg|]. apply (second_cleanup_on_mock s1 r Hr1 Hb).
  - intros rig. split; reflexivity.
Qed.

(** A two-spout box cleaned up in the middle of a trial on spout 0. *)
Lemma cleanup_twice_same_hardware_state_witness :
  snd (rpi_cleanup (Demo.in_trial 2 0)) = Ok tt /\
  gpio (fst (rpi_cleanup (fst (rpi_cleanup (Demo.in_trial 2 0)))))
  = gpio (fst (rpi_cleanup (Demo.in_trial 2 0))).
Proof.
  split; [vm_compute; reflexivity|].
  apply (cleanup_twice_same_hardware_state (Demo.in_trial 2 0)).
  vm_compute; reflexivity.
Defined.

(** C9 as stated fails on the physical board: the second call raises. *)
Lemma second_cleanup_raises :
  let s := Demo.in_trial 2 0 in
  GPIO.driven (gpio s) 5 = true /\
  snd (rpi_cleanup s) = Ok tt /\
  snd (rpi_cleanup (fst (rpi_cleanup s))) = Raise RuntimeError.
Proof. vm_compute. repeat split. Qed.

(** * A box with one spout never sees an incorrect grasp *)

Lemma length_py_set_nth {A} (l : list A) i x : length (py_set_nth l i x) = length l.
Proof. unfold py_set_nth. destruct (0 <=? i); apply length_insert. Qed.

Lemma no_incorrect_insert g pin e cb m c o :
  cb <> incorrect_grasp_callback -> no_incorrect g ->
  no_incorrect (mkGPIO m c o (<[pin := (e, cb)]> (detect g))).
Proof.
  intros Hcb H p e'; simpl. destruct (decide (pin = p)) as [->|Hne].
  - rewrite lookup_insert_eq. congruence.
  - rewrite lookup_insert_ne by done. apply H.
Qed.

Lemma no_incorrect_delete g pin m c o :
  no_incorrect g -> no_incorrect (mkGPIO m c o (delete pin (detect g))).
Proof.
  intros H p e'; simpl. destruct (decide (pin = p)) as [->|Hne].
  - rewrite lookup_delete_eq. congruence.
  - rewrite lookup_delete_ne by done. apply H.
Qed.

Lemma no_incorrect_same g m c o : no_incorrect g -> no_incorrect (mkGPIO m c o (detect g)).
Proof. intros H p e'; simpl. apply H. Qed.

Lemma no_incorrect_empty m c o : no_incorrect (mkGPIO m c o ∅).
Proof. intros p e; simpl. rewrite lookup_empty. congruence. Qed.

Lemma one_spout_update x f :
  (forall r, length (spouts (f r)) = length (spouts r)) ->
  one_spout x -> one_spout (set_rpi (option_map f (_rpi x)) x).
Proof.
  unfold one_spout; simpl. intros Hf. destruct (_rpi x); simpl; auto. rewrite Hf; auto.
Qed.

Lemma not_in_snoc {A} (x y : A) (l : list A) : x ∉ l -> x <> y -> x ∉ l ++ [y].
Proof. intros H1 H2 H. apply elem_of_app in H as [H|H]; [auto|]. apply list_elem_of_singleton in H. auto. Qed.

(** [single] of a state changed by one assignment, from [single] of the state
    before. *)
Ltac single_field :=
  first
    [ assumption
    | apply no_incorrect_insert; [congruence | assumption]
    | apply no_incorrect_delete; assumption
    | apply no_incorrect_same; assumption
    | apply no_incorrect_empty
    | apply one_spout_update;
      [ intros; st_simpl; rewrite ?length_py_set_nth, ?length_map; reflexivity | assumption ]
    | congruence
    | (intros; apply not_in_snoc; [ auto | congruence ]) ].

Ltac single_tac :=
  idtac;
  match goal with
  | H : single ?s |- single _ =>
      let H1 := fresh in let H2 := fresh in let H3 := fresh in
      let H4 := fresh in let H5 := fresh in let H6 := fresh in
      destruct H as [H1 H2 H3 H4 H5 H6];
      solve [ split; st_simpl; single_field ]
  | H : single ?s, E : (_outcome (session ?s) =? 2) = true |- _ =>
      exfalso; apply (single_outcome _ H); apply Z.eqb_eq, E
  | H : single ?s, E : _rpi (session ?s) = Some ?r,
    B : (1 <? Z.of_nat (length (spouts ?r))) = true |- _ =>
      exfalso; pose proof (single_spout _ H) as Hs; unfold one_spout in Hs;
      rewrite E in Hs; apply Z.ltb_lt in B; lia
  end.

Ltac single_auto := intros ? ?; wp_auto single single_tac.

#[local] Instance single_collate_spouts idx l acc : Stable single (collate_spouts idx l acc).
Proof.
  revert idx acc. induction l as [|p l IH]; intros idx acc; simpl; single_auto.
Qed.

Lemma single_call cb pin :
  cb <> incorrect_grasp_callback -> stable single (call cb pin).
Proof. intros Hcb. destruct cb; try congruence; single_auto. Qed.

#[local] Instance single_handle_sigint : Stable single handle_sigint.
Proof. single_auto. Qed.

#[local] Instance single_deliver t sg : Stable single (deliver t sg).
Proof.
  intros s HI. unfold deliver.
  wp_cut single; [apply wp_modify; single_tac| |assumption].
  destruct sg as [e pin|]; [|apply single_handle_sigint; assumption].
  wp_cut single; [apply wp_modify; single_tac| |assumption].
  apply wp_bind, wp_gets; cbv beta iota.
  destruct (detect (gpio s1) !! pin) as [[e' cb]|] eqn:Hd; [|assumption].
  apply wp_when. destruct (edge_eqb e e'); [|assumption].
  assert (Hcb : cb <> incorrect_grasp_callback).
  { intros ->. apply (single_detect _ HI1 pin e'). exact Hd. }
  wp_cut single; [| |assumption].
  - apply wp_modify.
    destruct HI1 as [H1 H2 H3 H4 H5 H6]. split; st_simpl; single_field.
  - apply wp_swallow. apply single_call; assumption.
Qed.

#[local] Instance single_block d : Stable single (block d).
Proof.
  single_auto.
Qed.

#[local] Instance single_time_sleep d : Stable single (time_sleep d).
Proof. single_auto. Qed.

#[local] Instance single_wait_for_edge n pin e : Stable single (GPIO_wait_for_edge n pin e).
Proof. induction n as [|n IH]; simpl; single_auto. Qed.

#[local] Instance single_wait_for_rest n : Stable single (Real_wait_for_rest n).
Proof. induction n as [|n IH]; simpl; single_auto. Qed.

#[local] Instance single_countdown n trial_end now : Stable single (countdown n trial_end now).
Proof. revert now. induction n as [|n IH]; intros now; simpl; single_auto. Qed.

#[local] Instance single_rest_and_count_down n : Stable single (rest_and_count_down n).
Proof. induction n as [|n IH]; simpl; single_auto. Qed.

#[local] Instance single_await_outcome n cue_end now : Stable single (await_outcome n cue_end now).
Proof. revert now. induction n as [|n IH]; intros now; simpl; single_auto. Qed.

Lemma single_inter_trial_interval n : stable single (_inter_trial_interval n).
Proof. single_auto. Qed.

Lemma single_trial n : stable single (_trial n).
Proof. single_auto. Qed.

#[local] Instance single_trials n fuel trial_count now : Stable single (trials n fuel trial_count now).
Proof.
  revert trial_count now. induction n as [|n IH]; intros trial_count now; simpl; single_auto.
Qed.

Lemma single_end_session manual : stable single (_end_session manual).
Proof. single_auto. Qed.

Ltac before_board_tac :=
  idtac;
  match goal with
  | H : before_board ?s |- before_board _ =>
      let H1 := fresh in let H2 := fresh in let H3 := fresh in
      destruct H as (H1 & H2 & H3);
      solve [ split; [ single_tac | split; st_simpl;
                [ first [ assumption | rewrite lookup_insert_ne by discriminate; assumption ]
                | assumption ] ] ]
  | H : before_board ?s |- single ?s => exact (proj1 H)
  end.

(** C10: in a session configured with one spout on the physical board, no
    touch sensor is ever armed with the incorrect-grasp callback, the callback
    never fires, the board is never told of an incorrect grasp, no trial is
    announced as incorrect and the outcome is never Incorrect (2): every trial
    ends Rewarded or Missed. *)
Theorem one_spout_box_never_incorrect (fuel : nat) (config d : gmap string pyval) (w : World) :
  is_raspberry_pi w = true ->
  (config !! "spout_count" = Some (PInt 1)) ->
  let s' := fst (run fuel config (boot d w)) in
  no_incorrect (gpio s') /\
  (forall pin, EFire incorrect_grasp_callback pin ∉ log s') /\
  (forall c, EIncorrectGrasp c ∉ log s') /\
  (EPrint "Incorrect reach!" ∉ log s') /\
  _outcome (session s') <> 2.
Proof.
  intros Hpi Hc s'.
  assert (H : single s').
  { subst s'. change (wp (run fuel config) (boot d w) (fun _ s' => single s')).
    unfold run.
    wp_cut before_board.
    { apply wp_modify. split; [|split]; st_simpl.
      - split; st_simpl;
          [ exact I | apply no_incorrect_empty | discriminate
          | apply not_elem_of_nil | intros; apply not_elem_of_nil .. ].
      - apply lookup_union_Some_l, Hc.
      - exact Hpi. }
    2: { before_board_tac. }
    wp_auto_to _RPi before_board before_board_tac.
    match goal with
    | HI : before_board ?s, E : data (session ?s) !! "spout_count" = Some ?p |- _ =>
        assert (p = PInt 1) by (destruct HI as (_ & E' & _); congruence); subst p;
        destruct HI as (HS & _ & HW)
    end.
    apply wp_bind. unfold _RPi.
    apply wp_bind, wp_gets; cbv beta iota. rewrite HW.
    wp_cut single; [apply wp_modify; single_tac| |assumption].
    apply wp_bind. unfold spouts_upto; simpl. apply wp_bind, wp_ret; cbv beta iota.
    apply wp_ret; cbv beta iota.
    wp_cut single; [| |assumption].
    { apply wp_modify.
      match goal with H : single ?s |- single (_ ?s) =>
        destruct H as [H1 H2 H3 H4 H5 H6] end.
      split; st_simpl; try assumption. unfold one_spout; simpl. lia. }
    wp_cut single; [wp_auto single single_tac| |assumption].
    wp_auto single single_tac. }
  destruct H as [H1 H2 H3 H4 H5 H6]. auto.
Qed.

(** A session of a tenth of a second on a box with one spout: the one trial is
    rewarded. *)
Lemma one_spout_box_never_incorrect_witness :
  let r := run 100 (Demo.config 1 (1 # 10) 40 40 false) (boot ∅ (Demo.box Demo.one_reach)) in
  snd r = Ok tt /\
  no_incorrect (gpio (fst r)) /\
  (forall pin, EFire incorrect_grasp_callback pin ∉ log (fst r)) /\
  (forall c, EIncorrectGrasp c ∉ log (fst r)) /\
  (EPrint "Incorrect reach!" ∉ log (fst r)) /\
  _outcome (session (fst r)) <> 2.
Proof.
  split; [vm_compute; reflexivity|].
  apply (one_spout_box_never_incorrect 100); reflexivity.
Defined.

(** * What the blocking calls may log *)

Lemma emits_refl P L : forall s, log s = L -> emits P L s.
Proof. intros s <-. exists []. split; [symmetry; apply app_nil_r | reflexivity]. Qed.

Lemma emits_emit P L e s : P e = true -> emits P L s -> emits P L (emit e s).
Proof.
  intros He (evs & Hl & HP). exists (evs ++ [e]). split.
  - simpl. rewrite Hl. symmetry. apply app_assoc.
  - rewrite forallb_app, HP. simpl. rewrite He. reflexivity.
Qed.

Lemma emits_weaken (P P' : event -> bool) L s :
  (forall e, P e = true -> P' e = true) -> emits P L s -> emits P' L s.
Proof.
  intros H (evs & Hl & HP). exists evs. split; [exact Hl|].
  apply forallb_forall. intros e He. apply H.
  rewrite forallb_forall in HP. apply HP, He.
Qed.

(** [emits P L] of a state after one assignment. *)
Ltac emits_tac :=
  idtac;
  match goal with
  | H : emits ?P ?L ?s |- emits ?P ?L (emit ?e ?s) =>
      apply emits_emit;
      [ first [ reflexivity
              | (apply allows_async; reflexivity)
              | apply allows_sleep ]
      | exact H ]
  | H : emits ?P ?L ?s |- emits ?P ?L _ => exact H
  end.

Section Emits.

Context (P : event -> bool) (L : list event) `{!AllowsAsync P}.

Ltac go := intros ? ?; wp_auto (emits P L) emits_tac.

#[global] Instance emits_collate_spouts idx l acc : Stable (emits P L) (collate_spouts idx l acc).
Proof. revert idx acc. induction l as [|p l IH]; intros idx acc; simpl; go. Qed.

#[global] Instance emits_call cb pin : Stable (emits P L) (call cb pin).
Proof. destruct cb; go. Qed.

#[global] Instance emits_handle_sigint : Stable (emits P L) handle_sigint.
Proof. go. Qed.

#[global] Instance emits_deliver t sg : Stable (emits P L) (deliver t sg).
Proof.
  intros s HI. unfold deliver.
  wp_cut (emits P L); [apply wp_modify; emits_tac| |assumption].
  destruct sg as [e pin|]; [|apply emits_handle_sigint; assumption].
  wp_cut (emits P L); [apply wp_modify; emits_tac| |assumption].
  apply wp_bind, wp_gets; cbv beta iota.
  destruct (detect (gpio _) !! pin) as [[e' cb]|]; [|assumption].
  apply wp_when. destruct (edge_eqb e e'); [|assumption].
  wp_cut (emits P L); [apply wp_modify; emits_tac| |assumption].
  apply wp_swallow. apply emits_call; assumption.
Qed.


#[global] Instance emits_wait_for_edge n pin e : Stable (emits P L) (GPIO_wait_for_edge n pin e).
Proof. revert pin e. induction n as [|n IH]; intros pin e; simpl; go. Qed.

Context `{!AllowsSleep P}.

#[global] Instance emits_time_sleep d : Stable (emits P L) (time_sleep d).
Proof. go. Qed.

#[global] Instance emits_wait_for_rest n : Stable (emits P L) (Real_wait_for_rest n).
Proof. induction n as [|n IH]; simpl; go. Qed.

#[global] Instance emits_countdown n trial_end now : Stable (emits P L) (countdown n trial_end now).
Proof. revert now. induction n as [|n IH]; intros now; simpl; go. Qed.

#[global] Instance emits_await_outcome n cue_end now : Stable (emits P L) (await_outcome n cue_end now).
Proof. revert now. induction n as [|n IH]; intros now; simpl; go. Qed.

End Emits.

#[global] Instance any_event_allows_async : AllowsAsync any_event.
Proof. intros e _. reflexivity. Qed.

#[global] Instance any_event_allows_sleep : AllowsSleep any_event.
Proof. intros d. reflexivity. Qed.

(** The log only grows. *)
#[global] Instance grows_rest_and_count_down L n :
  Stable (emits any_event L) (rest_and_count_down n).
Proof. induction n as [|n IH]; simpl; intros ? ?; wp_auto (emits any_event L) emits_tac. Qed.

#[global] Instance grows_trials L n fuel trial_count now :
  Stable (emits any_event L) (trials n fuel trial_count now).
Proof.
  revert trial_count now. induction n as [|n IH]; intros trial_count now; simpl;
    intros ? ?; wp_auto (emits any_event L) emits_tac.
Qed.

#[global] Instance grows_wait_to_start L n : Stable (emits any_event L) (rpi_wait_to_start n).
Proof. intros ? ?; wp_auto (emits any_event L) emits_tac. Qed.

(** * The keys of [data] that the sequencer leaves alone *)

Lemma kept_insert k v k' x s :
  Unwritten k -> k' ∈ written_keys -> kept k v s ->
  kept k v (with_session (fun y => set_data (<[k' := x]> (data y)) y) s).
Proof.
  intros Hk Hk' H. unfold kept; st_simpl.
  rewrite lookup_insert_ne; [exact H|]. intros ->. exact (Hk Hk').
Qed.

(** [kept k v] of a state after one assignment. *)
Ltac kept_tac :=
  idtac;
  match goal with
  | H : kept ?k ?v ?s |- kept ?k ?v (with_session (fun y => set_data (<[_ := _]> _) y) ?s) =>
      apply kept_insert;
      [ typeclasses eauto
      | unfold written_keys; rewrite !elem_of_cons; tauto
      | exact H ]
  | H : kept ?k ?v ?s |- kept ?k ?v _ => exact H
  end.

Section Kept.

Context (k : string) (v : option pyval) `{!Unwritten k}.

Ltac go := intros ? ?; wp_auto (kept k v) kept_tac.

#[global] Instance kept_collate_spouts idx l acc : Stable (kept k v) (collate_spouts idx l acc).
Proof. revert idx acc. induction l as [|p l IH]; intros idx acc; simpl; go. Qed.

#[global] Instance kept_call cb pin : Stable (kept k v) (call cb pin).
Proof. destruct cb; go. Qed.

#[global] Instance kept_handle_sigint : Stable (kept k v) handle_sigint.
Proof. go. Qed.

#[global] Instance kept_deliver t sg : Stable (kept k v) (deliver t sg).
Proof.
  intros s HI. unfold deliver.
  wp_cut (kept k v); [apply wp_modify; kept_tac| |assumption].
  destruct sg as [e pin|]; [|apply kept_handle_sigint; assumption].
  wp_cut (kept k v); [apply wp_modify; kept_tac| |assumption].
  apply wp_bind, wp_gets; cbv beta iota.
  destruct (detect (gpio _) !! pin) as [[e' cb]|]; [|assumption].
  apply wp_when. destruct (edge_eqb e e'); [|assumption].
  wp_cut (kept k v); [apply wp_modify; kept_tac| |assumption].
  apply wp_swallow. apply kept_call; assumption.
Qed.

#[global] Instance kept_time_sleep d : Stable (kept k v) (time_sleep d).
Proof. go. Qed.

#[global] Instance kept_wait_for_edge n pin e : Stable (kept k v) (GPIO_wait_for_edge n pin e).
Proof. revert pin e. induction n as [|n IH]; intros pin e; simpl; go. Qed.

#[global] Instance kept_wait_for_rest n : Stable (kept k v) (Real_wait_for_rest n).
Proof. induction n as [|n IH]; simpl; go. Qed.

#[global] Instance kept_countdown n trial_end now : Stable (kept k v) (countdown n trial_end now).
Proof. revert now. induction n as [|n IH]; intros now; simpl; go. Qed.

#[global] Instance kept_rest_and_count_down n : Stable (kept k v) (rest_and_count_down n).
Proof. induction n as [|n IH]; simpl; go. Qed.

#[global] Instance kept_await_outcome n cue_end now : Stable (kept k v) (await_outcome n cue_end now).
Proof. revert now. induction n as [|n IH]; intros now; simpl; go. Qed.

#[global] Instance kept_inter_trial_interval n : Stable (kept k v) (_inter_trial_interval n).
Proof. go. Qed.

#[global] Instance kept_rpi_start_trial c f g : Stable (kept k v) (rpi_start_trial c f g).
Proof. go. Qed.

#[global] Instance kept_trial n : Stable (kept k v) (_trial n).
Proof. go. Qed.

#[global] Instance kept_trials n fuel trial_count now : Stable (kept k v) (trials n fuel trial_count now).
Proof.
  revert trial_count now. induction n as [|n IH]; intros trial_count now; simpl; go.
Qed.

#[global] Instance kept_end_session manual : Stable (kept k v) (_end_session manual).
Proof. go. Qed.

#[global] Instance kept_RPi c : Stable (kept k v) (_RPi c).
Proof. go. Qed.

#[global] Instance kept_wait_to_start n : Stable (kept k v) (rpi_wait_to_start n).
Proof. go. Qed.

End Kept.

#[global] Instance unwritten_reward_duration_ms : Unwritten "reward_duration_ms".
Proof. unfold Unwritten, written_keys. rewrite !not_elem_of_cons. repeat split; try discriminate. apply not_elem_of_nil. Qed.
#[global] Instance unwritten_iti : Unwritten "iti".
Proof. unfold Unwritten, written_keys. rewrite !not_elem_of_cons. repeat split; try discriminate. apply not_elem_of_nil. Qed.
#[global] Instance unwritten_spout_count : Unwritten "spout_count".
Proof. unfold Unwritten, written_keys. rewrite !not_elem_of_cons. repeat split; try discriminate. apply not_elem_of_nil. Qed.
#[global] Instance unwritten_reward_count : Unwritten "reward_count".
Proof. unfold Unwritten, written_keys. rewrite !not_elem_of_cons. repeat split; try discriminate. apply not_elem_of_nil. Qed.
#[global] Instance unwritten_trial_count : Unwritten "trial_count".
Proof. unfold Unwritten, written_keys. rewrite !not_elem_of_cons. repeat split; try discriminate. apply not_elem_of_nil. Qed.
#[global] Instance unwritten_cue_duration_ms : Unwritten "cue_duration_ms".
Proof. unfold Unwritten, written_keys. rewrite !not_elem_of_cons. repeat split; try discriminate. apply not_elem_of_nil. Qed.

(** * Statements that need no fuel *)

Lemma halts_ret {A} (a : A) : Halts (ret a).
Proof. intros s. discriminate. Qed.

Lemma halts_raise {A} e : e <> OutOfFuel -> Halts (@raise A e).
Proof. intros H s. unfold halts; simpl. congruence. Qed.

Lemma halts_gets {A} (f : St -> A) : Halts (gets f).
Proof. intros s. discriminate. Qed.

Lemma halts_modify f : Halts (modify f).
Proof. intros s. discriminate. Qed.

Lemma halts_bind {A B} (m : M A) (k : A -> M B) :
  Halts m -> (forall a, Halts (k a)) -> Halts (bind m k).
Proof.
  intros Hm Hk s. unfold bind. specialize (Hm s).
  destruct (m s) as [s' [a|e]]; simpl in *; [apply Hk|].
  unfold halts in *. congruence.
Qed.

Lemma halts_some_or {A} e (o : option A) : e <> OutOfFuel -> Halts (some_or e o).
Proof. intros H. destruct o; [apply halts_ret|apply halts_raise, H]. Qed.

Lemma halts_swallow m : Halts (swallow m).
Proof. intros s. discriminate. Qed.

Lemma halts_when b m : Halts m -> Halts (when b m).
Proof. intros H. destruct b; [exact H|apply halts_ret]. Qed.

Lemma halts_for_each {A} (l : list A) body :
  (forall x, Halts (body x)) -> Halts (for_each l body).
Proof.
  intros H. induction l as [|x l IH]; simpl; [apply halts_ret|].
  apply halts_bind; [apply H|intros _; exact IH].
Qed.

(** One step of the proof that a statement needs no fuel. *)
Ltac halts_step :=
  lazymatch goal with
  | |- Halts (bind _ _) => apply halts_bind; [ | intros ? ]
  | |- Halts (ret _) => apply halts_ret
  | |- Halts (raise _) => apply halts_raise; discriminate
  | |- Halts (gets _) => apply halts_gets
  | |- Halts (modify _) => apply halts_modify
  | |- Halts (some_or _ _) => apply halts_some_or; discriminate
  | |- Halts (when _ _) => apply halts_when
  | |- Halts (swallow _) => apply halts_swallow
  | |- Halts (for_each _ _) => apply halts_for_each; intros ?
  | |- Halts (if ?b then _ else _) => destruct b
  | |- Halts (match ?x with _ => _ end) => destruct x
  | |- Halts (let '(_, _) := ?x in _) => destruct x
  | |- Halts ?m =>
      first [ typeclasses eauto
            | let h := head_of m in
              tryif is_loop h then fail else unfold h at 1 ]
  end.

Ltac halts_auto := repeat halts_step.

#[global] Instance halts_collate_spouts idx l acc : Halts (collate_spouts idx l acc).
Proof. revert idx acc. induction l as [|p l IH]; intros idx acc; simpl; halts_auto. Qed.

#[global] Instance halts_call cb pin : Halts (call cb pin).
Proof. destruct cb; halts_auto. Qed.

#[global] Instance halts_handle_sigint : Halts handle_sigint.
Proof. halts_auto. Qed.

#[global] Instance halts_deliver t sg : Halts (deliver t sg).
Proof. halts_auto. Qed.

#[global] Instance halts_block d : Halts (block d).
Proof. halts_auto. Qed.

#[global] Instance halts_time_sleep d : Halts (time_sleep d).
Proof. halts_auto. Qed.

#[global] Instance halts_rpi_start_trial c f g : Halts (rpi_start_trial c f g).
Proof. halts_auto. Qed.

#[global] Instance halts_rpi_dispense_water sleep c d :
  (forall x, Halts (sleep x)) -> Halts (rpi_dispense_water sleep c d).
Proof. intros H. halts_auto. Qed.

#[global] Instance halts_rpi_end_trial : Halts rpi_end_trial.
Proof. halts_auto. Qed.

#[global] Instance halts_reward_pause : Halts reward_pause.
Proof. halts_auto. Qed.







(** * Only the two trial callbacks assign the outcome *)

Lemma count_snoc_zero P l e :
  count P (l ++ [e]) = 0%nat -> count P l = 0%nat /\ P e = false.
Proof.
  rewrite count_app. unfold count at 2. simpl. destruct (P e); simpl; [lia|].
  intros H. split; [lia|reflexivity].
Qed.

Lemma count_app_zero P l1 l2 :
  count P (l1 ++ l2) = 0%nat -> count P l1 = 0%nat /\ count P l2 = 0%nat.
Proof. rewrite count_app. lia. Qed.

Lemma outcome_held_refl o s : _outcome (session s) = o -> outcome_held (log s) o s.
Proof. intros H. exists []. split; [symmetry; apply app_nil_r|]. intros _. exact H. Qed.

Lemma outcome_held_emit L o e s : outcome_held L o s -> outcome_held L o (emit e s).
Proof.
  intros (evs & Hl & Ho). exists (evs ++ [e]). split.
  - simpl. rewrite Hl. symmetry. apply app_assoc.
  - intros H. apply count_snoc_zero in H as [H _]. apply Ho, H.
Qed.

(** Once one of the two callbacks has been fired, nothing is claimed. *)
Lemma outcome_held_fired L o s s' cb pin :
  outcome_code cb <> 0 ->
  (exists evs, log s = L ++ evs) ->
  emits any_event (log s ++ [EFire cb pin]) s' ->
  outcome_held L o s'.
Proof.
  intros Hcb (evs & Hl) (evs' & Hl' & _). exists (evs ++ [EFire cb pin] ++ evs'). split.
  - rewrite Hl', Hl, <- !app_assoc. reflexivity.
  - intros H. apply count_app_zero in H as [_ H]. apply count_app_zero in H as [H _].
    unfold count in H. simpl in H. apply Z.eqb_neq in Hcb. rewrite Hcb in H.
    discriminate H.
Qed.

Lemma misses_only_refl s : misses_only (log s) s.
Proof. exists []. split; [symmetry; apply app_nil_r|]. intros _. reflexivity. Qed.

Lemma misses_only_emit L e s :
  hit_line e = false -> misses_only L s -> misses_only L (emit e s).
Proof.
  intros He (evs & Hl & Ho). exists (evs ++ [e]). split.
  - simpl. rewrite Hl. symmetry. apply app_assoc.
  - intros H. apply count_snoc_zero in H as [H _].
    rewrite count_app, (Ho H). unfold count. simpl. rewrite He. reflexivity.
Qed.

Lemma misses_only_fired L s s' cb pin :
  outcome_code cb <> 0 ->
  (exists evs, log s = L ++ evs) ->
  emits any_event (log s ++ [EFire cb pin]) s' ->
  misses_only L s'.
Proof.
  intros Hcb (evs & Hl) (evs' & Hl' & _). exists (evs ++ [EFire cb pin] ++ evs'). split.
  - rewrite Hl', Hl, <- !app_assoc. reflexivity.
  - intros H. apply count_app_zero in H as [_ H]. apply count_app_zero in H as [H _].
    unfold count in H. simpl in H. apply Z.eqb_neq in Hcb. rewrite Hcb in H.
    discriminate H.
Qed.

(** The log has grown since a state in which [_outcome] was not what it is
    held to be. *)
Lemma misses_only_grown L o s s' :
  outcome_held L o s -> _outcome (session s) <> o ->
  emits any_event (log s) s' -> misses_only L s'.
Proof.
  intros (evs & Hl & Ho) Hne (evs' & Hl' & _). exists (evs ++ evs'). split.
  - rewrite Hl', Hl, <- app_assoc. reflexivity.
  - intros H. apply count_app_zero in H as [H _]. destruct (Hne (Ho H)).
Qed.

Lemma outcome_held_grown L o s s' :
  outcome_held L o s -> _outcome (session s) <> o ->
  emits any_event (log s) s' -> outcome_held L o s'.
Proof.
  intros (evs & Hl & Ho) Hne (evs' & Hl' & _). exists (evs ++ evs'). split.
  - rewrite Hl', Hl, <- app_assoc. reflexivity.
  - intros H. apply count_app_zero in H as [H _]. destruct (Hne (Ho H)).
Qed.

(** [outcome_held L o] of a state after an assignment to something else than
    [_outcome]. *)
Ltac held_tac :=
  idtac;
  match goal with
  | H : outcome_held ?L ?o ?s |- outcome_held ?L ?o (emit ?e ?s) =>
      apply outcome_held_emit; exact H
  | H : outcome_held ?L ?o ?s |- outcome_held ?L ?o _ => exact H
  end.

(** [misses_only L] of a state after an assignment or a line that announces
    no grasp. *)
Ltac misses_tac :=
  idtac;
  match goal with
  | H : misses_only ?L ?s |- misses_only ?L (emit ?e ?s) =>
      apply misses_only_emit; [ reflexivity | exact H ]
  | H : misses_only ?L ?s |- misses_only ?L _ => exact H
  end.

Section Held.

Context (L : list event) (o : Z).

Ltac go := intros ? ?; wp_auto (outcome_held L o) held_tac.

#[global] Instance held_collate_spouts idx l acc :
  Stable (outcome_held L o) (collate_spouts idx l acc).
Proof. revert idx acc. induction l as [|p l IH]; intros idx acc; simpl; go. Qed.

Lemma held_call cb pin :
  outcome_code cb = 0 -> stable (outcome_held L o) (call cb pin).
Proof. intros Hcb. destruct cb; try discriminate Hcb; go. Qed.

#[global] Instance held_handle_sigint : Stable (outcome_held L o) handle_sigint.
Proof. go. Qed.

#[global] Instance held_deliver t sg : Stable (outcome_held L o) (deliver t sg).
Proof.
  intros s HI. unfold deliver.
  wp_cut (outcome_held L o); [apply wp_modify; held_tac| |assumption].
  destruct sg as [e pin|]; [|apply held_handle_sigint; assumption].
  wp_cut (outcome_held L o); [apply wp_modify; held_tac| |assumption].
  apply wp_bind, wp_gets; cbv beta iota.
  destruct (detect (gpio _) !! pin) as [[e' cb]|]; [|assumption].
  apply wp_when. destruct (edge_eqb e e'); [|assumption].
  destruct (Z.eq_dec (outcome_code cb) 0) as [Hcb|Hcb].
  - wp_cut (outcome_held L o); [apply wp_modify; held_tac| |assumption].
    apply wp_swallow. apply held_call; assumption.
  - apply wp_bind. unfold say. apply wp_modify; cbv beta iota.
    apply wp_swallow.
    eapply wp_mono; [apply (emits_call any_event (log s1 ++ [EFire cb pin])), emits_refl;
                     reflexivity|].
    intros r s' H. cbv beta.
    assert (G : outcome_held L o s').
    { apply (outcome_held_fired L o s1 s' cb pin Hcb); [|exact H].
      destruct HI1 as (evs & Hl & _). eauto. }
    destruct r; exact G.
Qed.

#[global] Instance held_block d : Stable (outcome_held L o) (block d).
Proof. go. Qed.

#[global] Instance held_time_sleep d : Stable (outcome_held L o) (time_sleep d).
Proof. go. Qed.

#[global] Instance held_wait_for_edge n pin e :
  Stable (outcome_held L o) (GPIO_wait_for_edge n pin e).
Proof. revert pin e. induction n as [|n IH]; intros pin e; simpl; go. Qed.

#[global] Instance held_wait_for_rest n : Stable (outcome_held L o) (Real_wait_for_rest n).
Proof. induction n as [|n IH]; simpl; go. Qed.

#[global] Instance held_countdown n trial_end now :
  Stable (outcome_held L o) (countdown n trial_end now).
Proof. revert now. induction n as [|n IH]; intros now; simpl; go. Qed.

#[global] Instance held_rest_and_count_down n :
  Stable (outcome_held L o) (rest_and_count_down n).
Proof. induction n as [|n IH]; simpl; go. Qed.

#[global] Instance held_await_outcome n cue_end now :
  Stable (outcome_held L o) (await_outcome n cue_end now).
Proof. revert now. induction n as [|n IH]; intros now; simpl; go. Qed.


#[global] Instance held_inter_trial_interval n :
  Stable (outcome_held L o) (_inter_trial_interval n).
Proof. go. Qed.

#[global] Instance held_trial n : Stable (outcome_held L o) (_trial n).
Proof. go. Qed.

End Held.

Section Misses.

Context (L : list event).

Ltac go := intros ? ?; wp_auto (misses_only L) misses_tac.

#[global] Instance misses_collate_spouts idx l acc :
  Stable (misses_only L) (collate_spouts idx l acc).
Proof. revert idx acc. induction l as [|p l IH]; intros idx acc; simpl; go. Qed.

#[global] Instance misses_call cb pin : Stable (misses_only L) (call cb pin).
Proof. destruct cb; go. Qed.

#[global] Instance misses_handle_sigint : Stable (misses_only L) handle_sigint.
Proof. go. Qed.

#[global] Instance misses_deliver t sg : Stable (misses_only L) (deliver t sg).
Proof.
  intros s HI. unfold deliver.
  wp_cut (misses_only L); [apply wp_modify; misses_tac| |assumption].
  destruct sg as [e pin|]; [|apply misses_handle_sigint; assumption].
  wp_cut (misses_only L); [apply wp_modify; misses_tac| |assumption].
  apply wp_bind, wp_gets; cbv beta iota.
  destruct (detect (gpio _) !! pin) as [[e' cb]|]; [|assumption].
  apply wp_when. destruct (edge_eqb e e'); [|assumption].
  wp_cut (misses_only L); [apply wp_modify; misses_tac| |assumption].
  apply wp_swallow. apply misses_call; assumption.
Qed.

#[global] Instance misses_block d : Stable (misses_only L) (block d).
Proof. go. Qed.

#[global] Instance misses_time_sleep d : Stable (misses_only L) (time_sleep d).
Proof. go. Qed.

#[global] Instance misses_wait_for_edge n pin e :
  Stable (misses_only L) (GPIO_wait_for_edge n pin e).
Proof. revert pin e. induction n as [|n IH]; intros pin e; simpl; go. Qed.

#[global] Instance misses_wait_for_rest n : Stable (misses_only L) (Real_wait_for_rest n).
Proof. induction n as [|n IH]; simpl; go. Qed.

#[global] Instance misses_countdown n trial_end now :
  Stable (misses_only L) (countdown n trial_end now).
Proof. revert now. induction n as [|n IH]; intros now; simpl; go. Qed.

#[global] Instance misses_rest_and_count_down n :
  Stable (misses_only L) (rest_and_count_down n).
Proof. induction n as [|n IH]; simpl; go. Qed.

#[global] Instance misses_await_outcome n cue_end now :
  Stable (misses_only L) (await_outcome n cue_end now).
Proof. revert now. induction n as [|n IH]; intros now; simpl; go. Qed.

#[global] Instance misses_reward_pause : Stable (misses_only L) reward_pause.
Proof. go. Qed.

#[global] Instance misses_inter_trial_interval n :
  Stable (misses_only L) (_inter_trial_interval n).
Proof. go. Qed.

End Misses.

(** * The outcome variable from one trial to the next *)

Lemma held_and_misses_grown L o s s' :
  outcome_held L o s -> _outcome (session s) <> o ->
  emits any_event (log s) s' ->
  both (outcome_held L o) (misses_only L) s'.
Proof.
  intros HH Hne He. split.
  - apply (outcome_held_grown L o s s' HH Hne He).
  - apply (misses_only_grown L o s s' HH Hne He).
Qed.

(** A trial that starts with [_outcome] at 0 announces a grasp only if one of
    the two callbacks was fired. *)
#[global] Instance misses_trial L n :
  Stable (both (outcome_held L 0) (misses_only L)) (_trial n).
Proof.
  intros s HI. unfold _trial.
  wp_auto_to rpi_end_trial (both (outcome_held L 0) (misses_only L))
    ltac:(both_tac held_tac misses_tac).
  wp_cut (both (outcome_held L 0) (misses_only L)); [| |assumption].
  { wp_auto (both (outcome_held L 0) (misses_only L)) ltac:(both_tac held_tac misses_tac). }
  match goal with
  | H : both _ _ ?s |- wp _ ?s _ => rename H into HB
  end.
  apply wp_bind. unfold the_session. apply wp_gets; cbv beta iota.
  match goal with |- wp (if ?b then _ else _) ?s _ => destruct b eqn:E1 end.
  - apply Z.eqb_eq in E1.
    match goal with
    | |- wp _ ?s _ => eapply (wp_mono _ _ (fun _ s' => emits any_event (log s) s'))
    end.
    { match goal with
      | |- wp _ ?s _ =>
          remember (log s) as L' eqn:HL';
          assert (He : emits any_event L' s) by (apply emits_refl; symmetry; exact HL');
          clear HL'
      end.
      wp_auto (emits any_event L') emits_tac. }
    intros r s' He. cbv beta.
    destruct HB as [HH _].
    apply (held_and_misses_grown L 0 _ s' HH); [rewrite E1; discriminate|exact He].
  - apply wp_bind, wp_gets; cbv beta iota.
    match goal with |- wp (if ?b then _ else _) ?s _ => destruct b eqn:E2 end.
    + apply Z.eqb_eq in E2.
      match goal with
      | |- wp _ ?s _ => eapply (wp_mono _ _ (fun _ s' => emits any_event (log s) s'))
      end.
      { match goal with
        | |- wp _ ?s _ =>
            remember (log s) as L' eqn:HL';
            assert (He : emits any_event L' s) by (apply emits_refl; symmetry; exact HL');
            clear HL'
        end.
        wp_auto (emits any_event L') emits_tac. }
      intros r s' He. cbv beta.
      destruct HB as [HH _].
      apply (held_and_misses_grown L 0 _ s' HH); [rewrite E2; discriminate|exact He].
    + wp_auto (both (outcome_held L 0) (misses_only L)) ltac:(both_tac held_tac misses_tac).
Qed.

(** The loop of [run] assigns 0 before each trial. *)
#[global] Instance misses_trials L n fuel : forall trial_count now,
  Stable (misses_only L) (trials n fuel trial_count now).
Proof.
  induction n as [|n IH]; intros trial_count now s HM; simpl.
  - wp_auto (misses_only L) misses_tac.
  - wp_steps_to modify; try assumption.
    apply wp_modify; cbv beta iota.
    match goal with
    | |- wp _ ?s1 _ => assert (HB : both (outcome_held L 0) (misses_only L) s1)
    end.
    { split; [|misses_tac]. destruct HM as (evs & Hl & _). exists evs.
      split; [exact Hl|]. intros _. reflexivity. }
    wp_auto_to trials (both (outcome_held L 0) (misses_only L))
      ltac:(both_tac held_tac misses_tac).
    all: try (match goal with H : both _ _ ?s |- misses_only _ ?s => destruct H; assumption end).
    eapply wp_mono; [apply IH|intros; assumption].
    match goal with H : both _ _ ?s |- misses_only _ ?s => destruct H; assumption end.
Qed.

(** C2, as the code has it: the outcome variable is not single-assignment.
    Whatever [_outcome] holds, a reward or incorrect-grasp callback that runs
    to its end leaves its own code in it (1 for the reward callback, 2 for the
    incorrect-grasp callback), so the last callback to run before the outcome
    is read decides it.  The wait for the deadline assigns nothing: unless one
    of the two callbacks is fired during it, [_outcome] is after the wait what
    it was before.  And the loop of [run] assigns 0 before each trial: in a
    loop during which neither callback is fired no trial announces a grasp,
    whatever [_outcome] held when the loop began. *)
Theorem callback_overwrites_outcome (cb : callback) (pin : Z) (s : St)
    (n fuel : nat) (cue_end now : Q) (trial_count : Z) (s0 : St) :
  cb = reward_callback \/ cb = incorrect_grasp_callback ->
  snd (call cb pin s) = Ok tt ->
  _outcome (session (fst (call cb pin s))) = outcome_code cb /\
  outcome_held (log s0) (_outcome (session s0)) (fst (await_outcome n cue_end now s0)) /\
  misses_only (log s0) (fst (trials n fuel trial_count now s0)).
Proof.
  intros Hcb H. split; [|split].
  - destruct Hcb as [-> | ->]; simpl in *.
    + apply reward_callback_sets_outcome, H.
    + apply incorrect_grasp_callback_sets_outcome, H.
  - apply (held_await_outcome (log s0) (_outcome (session s0)) n cue_end now s0).
    apply outcome_held_refl. reflexivity.
  - apply (misses_trials (log s0) n fuel trial_count now s0), misses_only_refl.
Qed.

(** In a two-spout trial on spout 0, the incorrect-grasp callback runs after the
    reward callback has latched Rewarded: the outcome becomes Incorrect.  The
    wait and the loop start from a state in which [_outcome] is still 1, and
    nothing happens during the one trial of the loop. *)
Lemma callback_overwrites_outcome_witness :
  let s1 := fst (call reward_callback 27 (Demo.in_trial 2 0)) in
  let s0 := with_session (fun x =>
              set_outcome 1
                (set_data (<["start_time" := PFloat 1000]>
                             (<["end_time" := PFloat (100005 # 100)]> (data x))) x))
              (Demo.at_rest []) in
  snd (call incorrect_grasp_callback 23 s1) = Ok tt /\
  _outcome (session (fst (call incorrect_grasp_callback 23 s1))) = 2 /\
  outcome_held (log s0) (_outcome (session s0)) (fst (await_outcome 100 1001 1000 s0)) /\
  misses_only (log s0) (fst (trials 100 100 0 1000 s0)).
Proof.
  split; [vm_compute; reflexivity|].
  apply (callback_overwrites_outcome incorrect_grasp_callback 23).
  - right; reflexivity.
  - vm_compute; reflexivity.
Defined.

(** C2 as stated fails: a later callback of the same trial is not a no-op. *)
Lemma later_callback_changes_latched_outcome :
  let s1 := fst (_reward_callback 27 (Demo.in_trial 2 0)) in
  let s2 := fst (_incorrect_grasp_callback 23 s1) in
  _outcome (session (Demo.in_trial 2 0)) = 0 /\
  _outcome (session s1) = 1 /\
  _outcome (session s2) = 2 /\
  _outcome (session s2) <> _outcome (session s1).
Proof. vm_compute. repeat split; discriminate. Qed.

(** * One trial *)

#[global] Instance asynchronous_allows_async : AllowsAsync asynchronous.
Proof. intros e H. exact H. Qed.



#[global] Instance before_end_allows_sleep : AllowsSleep before_end.
Proof. intros d. reflexivity. Qed.
















(** * One inter-trial interval *)

Lemma iti_run_snoc l e : iti_run (l ++ [e]) = iti_step (iti_run l) e.
Proof. unfold iti_run. rewrite fold_left_app. reflexivity. Qed.

Lemma plain_step e ph : plain e = true -> iti_step ph e = ph.
Proof. destruct e; try discriminate; try reflexivity. destruct cb; try discriminate; reflexivity. Qed.

Lemma plain_drawn iti e : plain e = true -> drawn iti e.
Proof. destruct e; try discriminate; exact (fun _ => I). Qed.

Lemma plain_not_disable e : plain e = true -> negb (is_disable e) = true.
Proof. destruct e; try discriminate; reflexivity. Qed.

Lemma iti_inv_emit L iti ok e s :
  plain e = true -> iti_inv L iti ok s -> iti_inv L iti ok (emit e s).
Proof.
  intros He (evs & Hl & Hd & Hr & Hok). exists (evs ++ [e]). repeat split.
  - simpl. rewrite Hl. symmetry. apply app_assoc.
  - rewrite forallb_app, Hd. simpl. rewrite (plain_not_disable e He). reflexivity.
  - apply Forall_app. split; [exact Hr|]. constructor; [|constructor].
    apply plain_drawn, He.
  - rewrite iti_run_snoc, (plain_step e _ He). exact Hok.
Qed.

Lemma iti_inv_weaken L iti (ok ok' : iti_phase -> bool -> Prop) s :
  (forall ph, ok ph (_iti_broken (session s)) -> ok' ph (_iti_broken (session s))) ->
  iti_inv L iti ok s -> iti_inv L iti ok' s.
Proof. intros H (evs & Hl & Hd & Hr & Hok). exists evs. auto. Qed.

(** [iti_inv] of a state after an assignment that is neither to the flag nor
    the logging of an event that moves the phase. *)
Ltac iti_tac :=
  idtac;
  match goal with
  | H : iti_inv ?L ?v ?ok ?s |- iti_inv ?L ?v ?ok (emit ?e ?s) =>
      apply iti_inv_emit; [ reflexivity | exact H ]
  | H : iti_inv ?L ?v ?ok ?s |- iti_inv ?L ?v ?ok _ => exact H
  end.

#[global] Instance breakable_any : Breakable ok_any.
Proof. intros ph flag pin _ _. reflexivity. Qed.

#[global] Instance breakable_wait : Breakable ok_wait.
Proof. intros ph flag pin ->. reflexivity. Qed.

#[global] Instance breakable_count deadline : Breakable (ok_count deadline).
Proof. intros ph flag pin [-> | [-> _]]; right; split; reflexivity. Qed.

Section Interval.

Context (L : list event) (iti : option pyval) (ok : iti_phase -> bool -> Prop)
        `{!Breakable ok}.

Ltac go := intros ? ?; wp_auto (iti_inv L iti ok) iti_tac.

#[global] Instance iti_collate_spouts idx l acc : Stable (iti_inv L iti ok) (collate_spouts idx l acc).
Proof. revert idx acc. induction l as [|p l IH]; intros idx acc; simpl; go. Qed.

Lemma iti_call cb pin :
  cb <> reset_iti_callback -> stable (iti_inv L iti ok) (call cb pin).
Proof. intros Hcb. destruct cb; try congruence; go. Qed.

Lemma iti_fire_reset pin s :
  iti_inv L iti ok s ->
  wp (say (EFire reset_iti_callback pin) ;; swallow (_reset_iti_callback pin)) s
     (fun _ s' => iti_inv L iti ok s').
Proof.
  intros (evs & Hl & Hd & Hr & Hok).
  apply wp_bind. unfold say. apply wp_modify; cbv beta iota.
  apply wp_swallow. unfold _reset_iti_callback.
  wp_cut (iti_inv L iti ok).
  - apply wp_modify. exists (evs ++ [EFire reset_iti_callback pin]). repeat split.
    + simpl. rewrite Hl. symmetry. apply app_assoc.
    + rewrite forallb_app, Hd. reflexivity.
    + apply Forall_app. split; [exact Hr|]. constructor; [exact I|constructor].
    + rewrite iti_run_snoc. exact (breakable _ _ pin Hok).
  - wp_auto (iti_inv L iti ok) iti_tac.
  - assumption.
Qed.

#[global] Instance iti_handle_sigint : Stable (iti_inv L iti ok) handle_sigint.
Proof. go. Qed.

#[global] Instance iti_deliver t sg : Stable (iti_inv L iti ok) (deliver t sg).
Proof.
  intros s HI. unfold deliver.
  wp_cut (iti_inv L iti ok); [apply wp_modify; iti_tac| |assumption].
  destruct sg as [e pin|]; [|apply iti_handle_sigint; assumption].
  wp_cut (iti_inv L iti ok); [apply wp_modify; iti_tac| |assumption].
  apply wp_bind, wp_gets; cbv beta iota.
  destruct (detect (gpio _) !! pin) as [[e' cb]|]; [|assumption].
  apply wp_when. destruct (edge_eqb e e'); [|assumption].
  assert (cb = reset_iti_callback \/ cb <> reset_iti_callback) as [->|Hcb]
    by (destruct cb; first [left; reflexivity | right; discriminate]).
  - apply iti_fire_reset. assumption.
  - wp_cut (iti_inv L iti ok); [| |assumption].
    + apply wp_modify. apply iti_inv_emit; [|assumption].
      destruct cb; try congruence; reflexivity.
    + apply wp_swallow. apply iti_call; assumption.
Qed.

#[global] Instance iti_time_sleep d : Stable (iti_inv L iti ok) (time_sleep d).
Proof. go. Qed.

#[global] Instance iti_wait_for_rest n : Stable (iti_inv L iti ok) (Real_wait_for_rest n).
Proof. induction n as [|n IH]; simpl; go. Qed.

End Interval.

Lemma unit_fraction_bounds r : (0 <= unit_fraction r)%Q /\ (unit_fraction r < 1)%Q.
Proof.
  unfold unit_fraction, Qle, Qlt; simpl.
  pose proof (Z.mod_pos_bound (Z.of_N r) (Z.pos two53) eq_refl) as [H1 H2].
  split; lia.
Qed.

Lemma uniform_in_bounded a b x :
  uniform_in a b x ->
  ((a <= b)%Q -> (a <= x)%Q /\ (x <= b)%Q) /\ ((a == b)%Q -> (x == a)%Q).
Proof.
  intros (r & H0 & H1 & Hx). split.
  - intros Hab. rewrite Hx. split.
    + rewrite <- (Qplus_0_r a) at 1. apply Qplus_le_r.
      apply Qmult_le_0_compat; [|exact H0].
      unfold Qminus. rewrite <- (Qplus_opp_r a). apply Qplus_le_l, Hab.
    + assert (Hb : (b == a + (b - a) * 1)%Q) by ring.
      rewrite Hb at 2. apply Qplus_le_r.
      rewrite (Qmult_comm _ r), (Qmult_comm _ 1).
      apply Qmult_le_compat_r; [apply Qlt_le_weak, H1|].
      unfold Qminus. rewrite <- (Qplus_opp_r a). apply Qplus_le_l, Hab.
  - intros Hab. rewrite Hx, Hab. ring.
Qed.

Lemma drawn_bounded iti e : drawn iti e -> bounded iti e.
Proof.
  destruct e; try exact (fun _ => I). simpl.
  intros (a & b & qa & qb & Hi & Ha & Hb & Hu). exists a, b, qa, qb.
  repeat split; try assumption.
  - apply uniform_in_bounded in Hu as [Hu _]. destruct (Hu H) as [H1 _].
    apply Qle_shift_div_r; [reflexivity|]. exact H1.
  - apply uniform_in_bounded in Hu as [Hu _]. destruct (Hu H) as [_ H2].
    apply Qle_shift_div_l; [reflexivity|]. exact H2.
  - intros Hab. apply uniform_in_bounded in Hu as [_ Hu]. specialize (Hu Hab).
    rewrite <- Hu. field.
Qed.

Lemma Qlt_bool_false x y : Qlt_bool x y = false -> (y <= x)%Q.
Proof. unfold Qlt_bool. intros H. apply negb_false_iff in H. apply Qle_bool_iff, H. Qed.

Lemma countdown_spec L iti n : forall trial_end now s,
  iti_inv L iti (ok_count trial_end) s ->
  (now <= clock (world s))%Q ->
  wp (countdown n trial_end now) s (fun r s' =>
    iti_inv L iti (ok_count trial_end) s' /\
    (r = Ok tt -> _iti_broken (session s') = false ->
     (trial_end <= clock (world s'))%Q)).
Proof.
  induction n as [|n IH]; intros trial_end now s HI Hnow; simpl;
    apply wp_bind; unfold the_session; apply wp_gets; cbv beta iota;
    destruct (Qlt_bool now trial_end && negb (_iti_broken (session s))) eqn:Hc.
  - apply wp_raise. split; [exact HI|discriminate].
  - apply wp_ret. split; [exact HI|]. intros _ Hf. rewrite Hf in Hc.
    rewrite andb_true_r in Hc. apply Qlt_bool_false in Hc.
    eapply Qle_trans; eassumption.
  - wp_cut (iti_inv L iti (ok_count trial_end)).
    + apply stable_call. exact HI.
    + apply wp_bind. unfold time_time. apply wp_gets; cbv beta iota.
      apply IH; [assumption|apply Qle_refl].
    + split; [assumption|discriminate].
  - apply wp_ret. split; [exact HI|]. intros _ Hf. rewrite Hf in Hc.
    rewrite andb_true_r in Hc. apply Qlt_bool_false in Hc.
    eapply Qle_trans; eassumption.
Qed.

(** Drawing the duration reads [data['iti']] and uses up one random draw. *)
Lemma draw_iti_spec s :
  wp draw_iti s (fun r s' =>
    session s' = session s /\ log s' = log s /\
    clock (world s') = clock (world s) /\
    forall u, r = Ok u ->
      exists a b qa qb,
        data (session s) !! "iti" = Some (PList [a; b]) /\
        as_num a = Some qa /\ as_num b = Some qb /\ uniform_in qa qb u).
Proof.
  unfold draw_iti, data_get, the_data, list_of, num_of, random_uniform, next_draw.
  repeat wp_step; repeat split; try discriminate.
  all: intros u [= <-]; do 4 eexists; repeat split; try eassumption;
    try (st_simpl; eassumption).
  all: eexists; split; [|split]; [apply unit_fraction_bounds..|reflexivity].
Qed.

Lemma iti_inv_same L iti ok s s' :
  session s' = session s -> log s' = log s ->
  iti_inv L iti ok s -> iti_inv L iti ok s'.
Proof. intros Hs Hl (evs & H1 & H2 & H3 & H4). exists evs. rewrite Hs, Hl. auto. Qed.

Lemma iti_inv_wait L iti s :
  iti_inv L iti ok_any s -> iti_inv L iti ok_wait (emit EWaitForRest s).
Proof.
  intros (evs & Hl & Hd & Hr & _). exists (evs ++ [EWaitForRest]). repeat split.
  - simpl. rewrite Hl. symmetry. apply app_assoc.
  - rewrite forallb_app, Hd. reflexivity.
  - apply Forall_app. split; [exact Hr|]. constructor; [exact I|constructor].
  - rewrite iti_run_snoc. reflexivity.
Qed.

Lemma iti_inv_count L iti s now d :
  drawn iti (ECountingDown now d) ->
  iti_inv L iti ok_wait s ->
  iti_inv L iti (ok_count (now + d)) (emit (ECountingDown now d) s).
Proof.
  intros Hdr (evs & Hl & Hd & Hr & Hw). exists (evs ++ [ECountingDown now d]). repeat split.
  - simpl. rewrite Hl. symmetry. apply app_assoc.
  - rewrite forallb_app, Hd. reflexivity.
  - apply Forall_app. split; [exact Hr|]. constructor; [exact Hdr|constructor].
  - rewrite iti_run_snoc. unfold ok_wait in Hw. rewrite Hw. left. reflexivity.
Qed.

Lemma rest_and_count_down_spec L iti n : forall s,
  kept "iti" iti s -> iti_inv L iti ok_any s ->
  wp (rest_and_count_down n) s (fun r s' =>
    r = Ok tt ->
    exists deadline,
      iti_inv L iti (fun ph _ => ph = CountingDown deadline) s' /\
      _iti_broken (session s') = false /\
      (deadline <= clock (world s'))%Q).
Proof.
  induction n as [|n IH]; intros s HK HI; simpl.
  { apply wp_raise. discriminate. }
  wp_cut_ok (both (kept "iti" iti) (iti_inv L iti ok_wait)); [| |discriminate].
  { unfold rpi_wait_for_rest, the_board, the_rpi, the_session.
    apply wp_bind, wp_bind, wp_bind, wp_gets; cbv beta iota.
    apply wp_some_or. destruct (_rpi (session s)) as [r|]; [|intros []].
    apply wp_ret; cbv beta iota.
    apply wp_bind. unfold say. apply wp_modify; cbv beta iota.
    assert (HW : both (kept "iti" iti) (iti_inv L iti ok_wait) (emit EWaitForRest s))
      by (split; [exact HK|apply iti_inv_wait, HI]).
    destruct (board_of r);
      (eapply (wp_mono _ _ (fun _ s' =>
                 both (kept "iti" iti) (iti_inv L iti ok_wait) s'));
       [apply stable_call, HW | intros; assumption]). }
  destruct HI0 as [HK0 HI0].
  apply wp_bind, wp_modify; cbv beta iota.
  apply wp_bind. unfold time_time. apply wp_gets; cbv beta iota.
  apply wp_bind. eapply wp_mono; [apply draw_iti_spec|].
  intros [u|e] s1 (Hs & Hl & Hc & Hu); cbv beta iota; [|discriminate].
  destruct (Hu u eq_refl) as (va & vb & qa & qb & Hiti & Ha & Hb & Hun). clear Hu.
  apply wp_bind. unfold say. apply wp_modify; cbv beta iota.
  apply wp_bind.
  eapply wp_mono.
  { apply wp_conj.
    - apply (countdown_spec L iti).
      + apply iti_inv_count.
        * exists va, vb, qa, qb. repeat split; try assumption.
          -- rewrite <- HK0. st_simpl. exact Hiti.
          -- destruct Hun as (r & H0 & H1 & Hx). exists r. repeat split; try assumption.
             rewrite <- Hx. field.
        * apply (iti_inv_same L iti ok_wait (with_session (set_iti_broken false) s0));
            [exact Hs|exact Hl|].
          destruct HI0 as (evs & H1 & H2 & H3 & H4). exists evs. auto.
      + st_simpl. rewrite Hc. st_simpl. apply Qle_refl.
    - apply (stable_call (I := kept "iti" iti)).
      unfold kept. st_simpl. rewrite Hs. exact HK0. }
  intros [[]|e] s2 [[HI2 Hdead] HK2]; cbv beta iota; [|discriminate].
  apply wp_bind. unfold the_session. apply wp_gets; cbv beta iota.
  destruct (_iti_broken (session s2)) eqn:Hf.
  - apply IH; [exact HK2|].
    eapply iti_inv_weaken; [|exact HI2].
    intros ph [-> | [_ H]] H'; [discriminate|rewrite <- Hf; reflexivity].
  - apply wp_ret. intros _. eexists. split; [|split; [exact Hf|apply Hdead; auto]].
    eapply iti_inv_weaken; [|exact HI2].
    intros ph [-> | [_ H]]; [reflexivity|congruence].
Qed.

Ltac settled_tac :=
  idtac;
  match goal with
  | H : settled ?l ?x ?c ?s |- settled ?l ?x ?c _ => exact H
  end.

(** The board's [disable_sensors] logs its call and leaves session and clock
    alone. *)
Lemma rpi_disable_sensors_spec s :
  wp rpi_disable_sensors s (fun r s' =>
    r = Ok tt ->
    settled (log s ++ [EDisableSensors]) (session s) (clock (world s)) s').
Proof.
  unfold rpi_disable_sensors.
  apply wp_bind. unfold the_board, the_rpi, the_session.
  apply wp_bind, wp_bind, wp_gets; cbv beta iota.
  apply wp_some_or. destruct (_rpi (session s)) as [r|]; [|discriminate].
  apply wp_ret; cbv beta iota.
  apply wp_bind. unfold say. apply wp_modify; cbv beta iota.
  assert (HS : settled (log s ++ [EDisableSensors]) (session s) (clock (world s))
                 (emit EDisableSensors s)) by (repeat split).
  eapply (wp_mono _ _ (fun _ s' =>
            settled (log s ++ [EDisableSensors]) (session s) (clock (world s)) s'));
    [|intros; assumption].
  destruct (board_of r); [|apply wp_ret, HS].
  wp_auto (settled (log s ++ [EDisableSensors]) (session s) (clock (world s))) settled_tac.
Qed.

Lemma count_is_disable l :
  forallb (fun e => negb (is_disable e)) l = true -> count is_disable l = 0%nat.
Proof.
  unfold count. induction l as [|e l IH]; simpl; [reflexivity|].
  intros H. apply andb_true_iff in H as [He Hl]. destruct (is_disable e); [discriminate|].
  apply IH, Hl.
Qed.

Lemma inter_trial_interval_spec n s :
  wp (_inter_trial_interval n) s (fun r s' =>
    r = Ok tt -> iti_log (data (session s) !! "iti") (log s) s').
Proof.
  set (iti := data (session s) !! "iti"). set (L := log s).
  assert (HI : both (kept "iti" iti) (iti_inv L iti ok_any) s).
  { split; [reflexivity|]. exists []. unfold L. rewrite app_nil_r.
    repeat split; [constructor|discriminate]. }
  unfold _inter_trial_interval.
  wp_auto_to rest_and_count_down (both (kept "iti" iti) (iti_inv L iti ok_any))
    ltac:(first [ both_tac kept_tac iti_tac | (intros; discriminate) ]).
  match goal with
  | H : both _ _ ?s |- wp _ ?s _ => destruct H as [HK HI']
  end.
  apply wp_bind. eapply wp_mono; [apply (rest_and_count_down_spec L iti n); assumption|].
  intros [[]|e] sa Hsa; cbv beta iota; [|discriminate].
  destruct (Hsa eq_refl) as (deadline & (evs & Hl & Hd & Hr & Hph) & Hf & Hdl).
  eapply wp_mono; [apply rpi_disable_sensors_spec|].
  intros r sb Hsb Hrb. destruct (Hsb Hrb) as (Hl3 & Hx3 & Hc3).
  exists evs, deadline. repeat split.
  - rewrite Hl3, Hl, app_assoc. reflexivity.
  - apply count_is_disable, Hd.
  - exact Hr.
  - eapply Forall_impl; [exact Hr|]. intros e. apply drawn_bounded.
  - exact Hph.
  - rewrite Hc3. exact Hdl.
  - rewrite Hx3. exact Hf.
Qed.

Lemma reset_iti_callback_spec pin s :
  lift_recorded pin s (fst (_reset_iti_callback pin s)).
Proof.
  intros r i l x Hr Hi Hd Hn.
  unfold _reset_iti_callback, data_get, the_data, the_rpi, the_session, list_of,
    time_time, data_set, bind, modify, gets, some_or, ret.
  st_simpl. rewrite Hd. st_simpl. rewrite Hr. st_simpl. rewrite Hi. st_simpl.
  rewrite Hn. st_simpl.
  repeat split.
Qed.

(** ** The draws that the count-downs use up *)

Lemma durations_app l1 l2 : durations (l1 ++ l2) = durations l1 ++ durations l2.
Proof.
  induction l1 as [|e l1 IH]; simpl; [reflexivity|].
  destruct e; simpl; rewrite ?IH; reflexivity.
Qed.

Lemma draws_S k : forall l, draws (S k) l = draws k l ++ [hd 0%N (drop k l)].
Proof.
  induction k as [|k IH]; intros l.
  - destruct l; reflexivity.
  - destruct l as [|r l].
    + change (0%N :: draws (S k) [] = (0%N :: draws k []) ++ [hd 0%N (drop (S k) [])]).
      rewrite (IH []), !drop_nil. reflexivity.
    + change (r :: draws (S k) l = (r :: draws k l) ++ [hd 0%N (drop k l)]).
      rewrite (IH l). reflexivity.
Qed.

Lemma drop_tail {A} k (l : list A) : drop (S k) l = tail (drop k l).
Proof.
  revert l. induction k as [|k IH]; intros [|a l]; try reflexivity. apply IH.
Qed.

Lemma rolled_emit iti E0 L e s :
  durations [e] = [] -> rolled iti E0 L s -> rolled iti E0 L (emit e s).
Proof.
  intros He (evs & Hl & Hen & Hd). exists (evs ++ [e]).
  rewrite durations_app, He, app_nil_r. repeat split; try assumption.
  simpl. rewrite Hl. symmetry. apply app_assoc.
Qed.

(** One more draw, one more count-down. *)
Lemma rolled_count iti E0 L s s1 now qa qb :
  iti_bounds iti = Some (qa, qb) ->
  rolled iti E0 L s ->
  log s1 = log s -> entropy (world s1) = tail (entropy (world s)) ->
  rolled iti E0 L
    (emit (ECountingDown now (iti_seconds qa qb (hd 0%N (entropy (world s))))) s1).
Proof.
  intros Hb (evs & Hl & Hen & Hd) Hl1 He1.
  exists (evs ++ [ECountingDown now (iti_seconds qa qb (hd 0%N (entropy (world s))))]).
  rewrite durations_app. simpl durations. rewrite length_app. simpl length.
  rewrite Nat.add_1_r. repeat split.
  - simpl. rewrite Hl1, Hl. symmetry. apply app_assoc.
  - st_simpl. rewrite He1, Hen. symmetry. apply drop_tail.
  - unfold drawn_in_turn in *. rewrite Hb in *. rewrite length_app. simpl length.
    rewrite Nat.add_1_r, draws_S, map_app, <- Hd, Hen. reflexivity.
Qed.

(** [rolled] of a state after an assignment or a line that is not a
    count-down. *)
Ltac rolled_tac :=
  idtac;
  match goal with
  | H : rolled ?i ?E ?L ?s |- rolled ?i ?E ?L (emit ?e ?s) =>
      apply rolled_emit; [ reflexivity | exact H ]
  | H : rolled ?i ?E ?L ?s |- rolled ?i ?E ?L _ => exact H
  end.

Section Rolled.

Context (iti : option pyval) (E0 : list N) (L : list event).

Ltac go := intros ? ?; wp_auto (rolled iti E0 L) rolled_tac.

#[global] Instance rolled_collate_spouts idx l acc :
  Stable (rolled iti E0 L) (collate_spouts idx l acc).
Proof. revert idx acc. induction l as [|p l IH]; intros idx acc; simpl; go. Qed.

#[global] Instance rolled_call cb pin : Stable (rolled iti E0 L) (call cb pin).
Proof. destruct cb; go. Qed.

#[global] Instance rolled_handle_sigint : Stable (rolled iti E0 L) handle_sigint.
Proof. go. Qed.

#[global] Instance rolled_deliver t sg : Stable (rolled iti E0 L) (deliver t sg).
Proof.
  intros s HI. unfold deliver.
  wp_cut (rolled iti E0 L); [apply wp_modify; rolled_tac| |assumption].
  destruct sg as [e pin|]; [|apply rolled_handle_sigint; assumption].
  wp_cut (rolled iti E0 L); [apply wp_modify; rolled_tac| |assumption].
  apply wp_bind, wp_gets; cbv beta iota.
  destruct (detect (gpio _) !! pin) as [[e' cb]|]; [|assumption].
  apply wp_when. destruct (edge_eqb e e'); [|assumption].
  wp_cut (rolled iti E0 L); [apply wp_modify; rolled_tac| |assumption].
  apply wp_swallow. apply rolled_call; assumption.
Qed.

#[global] Instance rolled_block d : Stable (rolled iti E0 L) (block d).
Proof. go. Qed.

#[global] Instance rolled_time_sleep d : Stable (rolled iti E0 L) (time_sleep d).
Proof. go. Qed.

#[global] Instance rolled_wait_for_rest n : Stable (rolled iti E0 L) (Real_wait_for_rest n).
Proof. induction n as [|n IH]; simpl; go. Qed.

#[global] Instance rolled_countdown n trial_end now :
  Stable (rolled iti E0 L) (countdown n trial_end now).
Proof. revert now. induction n as [|n IH]; intros now; simpl; go. Qed.

End Rolled.

(** Drawing the duration uses up one draw of the source, and computes
    [random.uniform] of the two entries of [data['iti']] from it. *)
Lemma draw_iti_rolls s :
  wp draw_iti s (fun r s' =>
    session s' = session s /\ log s' = log s /\
    match r with
    | Ok u =>
        exists qa qb,
          iti_bounds (data (session s) !! "iti") = Some (qa, qb) /\
          (u / 1000)%Q = iti_seconds qa qb (hd 0%N (entropy (world s))) /\
          entropy (world s') = tail (entropy (world s))
    | Raise _ => s' = s
    end).
Proof.
  unfold draw_iti, data_get, the_data, list_of, num_of, random_uniform, next_draw.
  repeat wp_step; repeat split.
  all: st_simpl; unfold iti_bounds;
    repeat match goal with H : _ = _ |- _ => rewrite H end;
    do 2 eexists; repeat split.
Qed.

Lemma rolled_rest_and_count_down iti E0 L n :
  Stable (both (kept "iti" iti) (rolled iti E0 L)) (rest_and_count_down n).
Proof.
  induction n as [|n IH]; intros s HI; simpl.
  { apply wp_raise. exact HI. }
  wp_cut (both (kept "iti" iti) (rolled iti E0 L)); [| |assumption].
  { wp_auto (both (kept "iti" iti) (rolled iti E0 L)) ltac:(both_tac kept_tac rolled_tac). }
  apply wp_bind, wp_modify; cbv beta iota.
  apply wp_bind. unfold time_time. apply wp_gets; cbv beta iota.
  apply wp_bind. eapply wp_mono; [apply draw_iti_rolls|].
  destruct HI0 as [HK0 HR0].
  intros [u|e] s1 (Hs & Hl & Hu); cbv beta iota; [|subst s1; split; assumption].
  destruct Hu as (qa & qb & Hb & Hu & He).
  revert Hb Hu He. st_simpl. intros Hb Hu He.
  wp_cut (both (kept "iti" iti) (rolled iti E0 L)); [| |assumption].
  { unfold say. apply wp_modify. split.
    - unfold kept. st_simpl. rewrite Hs. exact HK0.
    - rewrite Hu. unfold kept in HK0. rewrite HK0 in Hb.
      apply (rolled_count iti E0 L (with_session (set_iti_broken false) s0) s1);
        assumption. }
  wp_cut (both (kept "iti" iti) (rolled iti E0 L)); [apply stable_call; assumption| |assumption].
  apply wp_bind. unfold the_session. apply wp_gets; cbv beta iota.
  destruct (_iti_broken (session s3)); [apply IH; assumption|apply wp_ret; assumption].
Qed.

Lemma inter_trial_interval_rolled n s :
  wp (_inter_trial_interval n) s (fun _ s' =>
    rolled (data (session s) !! "iti") (entropy (world s)) (log s) s').
Proof.
  set (iti := data (session s) !! "iti"). set (E0 := entropy (world s)). set (L := log s).
  assert (HI : both (kept "iti" iti) (rolled iti E0 L) s).
  { split; [reflexivity|]. exists []. unfold L, E0. rewrite app_nil_r.
    repeat split. unfold drawn_in_turn. destruct (iti_bounds iti) as [[qa qb]|]; reflexivity. }
  unfold _inter_trial_interval.
  wp_auto_to rest_and_count_down (both (kept "iti" iti) (rolled iti E0 L))
    ltac:(both_tac kept_tac rolled_tac).
  all: try (match goal with H : both _ _ ?s |- rolled _ _ _ ?s => destruct H; assumption end).
  wp_cut (both (kept "iti" iti) (rolled iti E0 L));
    [apply rolled_rest_and_count_down; assumption| |].
  2: match goal with H : both _ _ ?s |- rolled _ _ _ ?s => destruct H; assumption end.
  eapply (wp_mono _ _ (fun _ s' => both (kept "iti" iti) (rolled iti E0 L) s')).
  - wp_auto (both (kept "iti" iti) (rolled iti E0 L)) ltac:(both_tac kept_tac rolled_tac).
  - intros r s' [_ H]. exact H.
Qed.

(** A log without count-down is not counting down. *)
Lemma no_duration_no_countdown l : forall ph,
  durations l = [] -> (forall d, ph <> CountingDown d) ->
  forall d, fold_left iti_step l ph <> CountingDown d.
Proof.
  induction l as [|e l IH]; intros ph Hd Hph; simpl; [exact Hph|].
  apply IH.
  - destruct e; simpl in Hd; try exact Hd. discriminate Hd.
  - destruct e; simpl in *; try exact Hph; try discriminate Hd.
    + discriminate.
    + destruct cb; try exact Hph. destruct ph; try exact Hph. discriminate.
Qed.

(** * [run] does not check the configuration *)

(** What [run] has merged from the configuration is read back. *)
Lemma merged_lookup (config d : gmap string pyval) k v x y :
  k <> "spont_reach_timepoints" -> k <> "resets_timepoints" ->
  config !! k = Some v ->
  (<["resets_timepoints" := x]> (<["spont_reach_timepoints" := y]> (config ∪ d))) !! k
  = Some v.
Proof.
  intros H1 H2 Hk. rewrite !lookup_insert_ne by congruence.
  apply lookup_union_Some_l, Hk.
Qed.

Lemma run_reaches_board fuel config d w a b c dur cue sh :
  (config !! "iti" = Some (PList [a; b])) ->
  (config !! "spout_count" = Some c) ->
  (config !! "duration" = Some dur) ->
  (config !! "cue_duration_ms" = Some cue) ->
  (config !! "shaping" = Some sh) ->
  wp (run fuel config) (boot d w) (fun _ s' =>
    both (emits any_event
            (resets_notice (config ∪ d) ++
             [ESettings c dur cue a b sh; ENew (board_in w) c]))
         (kept "spout_count" (Some c)) s').
Proof.
  intros Hiti Hc Hdur Hcue Hsh.
  assert (Hmerge : forall k v, config !! k = Some v -> (config ∪ d) !! k = Some v)
    by (intros; apply lookup_union_Some_l; assumption).
  unfold run.
  apply wp_bind, wp_modify; cbv beta iota.
  apply wp_bind. unfold the_data at 1. apply wp_gets; cbv beta iota.
  apply wp_bind.
  apply (wp_mono _ _ (fun r s' =>
           r = Ok tt /\ log s' = resets_notice (config ∪ d) /\ world s' = w /\
           data (session s') = config ∪ d)).
  { st_simpl. change (data (session (boot d w))) with d. unfold resets_notice.
    destruct (bool_decide (is_Some ((config ∪ d) !! "resets_timepoints")));
      cbn [when]; [unfold say; apply wp_modify|apply wp_ret]; repeat split. }
  intros r s0 (-> & Hl0 & Hw0 & Hd0). cbv beta iota.
  apply wp_bind, wp_modify; cbv beta iota.
  apply wp_bind. unfold data_set at 1. apply wp_modify; cbv beta iota.
  apply wp_bind. unfold data_set at 1. apply wp_modify; cbv beta iota.
  match goal with |- wp _ ?s _ => set (s1 := s) end.
  assert (Hd1 : forall k v, k <> "spont_reach_timepoints" -> k <> "resets_timepoints" ->
                  config !! k = Some v -> data (session s1) !! k = Some v).
  { intros k v H1 H2 Hk. subst s1. st_simpl. rewrite !lookup_insert_ne by congruence.
    rewrite Hd0. apply Hmerge, Hk. }
  assert (Hl1 : log s1 = resets_notice (config ∪ d)) by exact Hl0.
  assert (Hw1 : world s1 = w) by exact Hw0.
  clearbody s1.
  apply wp_bind, (wp_data_get _ sh); [apply Hd1; [discriminate..|assumption]|].
  apply wp_bind, wp_modify; cbv beta iota.
  match goal with |- wp _ ?s _ => set (s2 := s) end.
  assert (Hd2 : forall k v, k <> "spont_reach_timepoints" -> k <> "resets_timepoints" ->
                  config !! k = Some v -> data (session s2) !! k = Some v)
    by exact Hd1.
  assert (Hl2 : log s2 = resets_notice (config ∪ d)) by exact Hl1.
  assert (Hw2 : world s2 = w) by exact Hw1.
  clearbody s2. clear s1 Hd1 Hl1 Hw1.
  apply wp_bind. unfold _display_training_settings.
  apply wp_bind, (wp_data_get _ (PList [a; b])); [apply Hd2; [discriminate..|assumption]|].
  apply wp_bind. unfold unpack_pair. apply wp_ret; cbv beta iota.
  apply wp_bind, (wp_data_get _ c); [apply Hd2; [discriminate..|assumption]|].
  apply wp_bind, (wp_data_get _ dur); [apply Hd2; [discriminate..|assumption]|].
  apply wp_bind, (wp_data_get _ cue); [apply Hd2; [discriminate..|assumption]|].
  apply wp_bind, (wp_data_get _ sh); [apply Hd2; [discriminate..|assumption]|].
  unfold say at 1. apply wp_modify; cbv beta iota. cbn [fst snd].
  apply wp_bind, (wp_data_get _ c); [apply Hd2; [discriminate..|assumption]|].
  apply wp_bind. unfold _RPi.
  apply wp_bind, wp_gets; cbv beta iota. st_simpl. rewrite Hw2. fold (board_in w).
  remember (resets_notice (config ∪ d) ++
            [ESettings c dur cue a b sh; ENew (board_in w) c]) as L eqn:HL.
  wp_cut (both (emits any_event L) (kept "spout_count" (Some c))).
  { unfold say. apply wp_modify. split.
    - apply emits_refl. simpl. rewrite Hl2, HL, <- app_assoc. reflexivity.
    - unfold kept. st_simpl. apply Hd2; [discriminate..|assumption]. }
  2: assumption.
  clear HL.
  wp_cut (both (emits any_event L) (kept "spout_count" (Some c))); [| |assumption].
  { wp_auto (both (emits any_event L) (kept "spout_count" (Some c)))
      ltac:(both_tac emits_tac kept_tac). }
  wp_auto (both (emits any_event L) (kept "spout_count" (Some c)))
    ltac:(both_tac emits_tac kept_tac).
Qed.

(** [run] checks nothing about the configuration.  For every configuration
    that holds the five settings that [run] reads first, whatever their values,
    [run] prints its notice if the merged [data] has the key
    [resets_timepoints], prints the settings as they stand, and then builds the
    board with [data['spout_count']] as it stands: these are the first things
    it does to the outside, and the setting is still in [data], unchanged,
    when [run] ends, however it ends. *)
Theorem run_builds_board_first (fuel : nat) (config d : gmap string pyval)
    (w : World) (a b c dur cue sh : pyval) :
  (config !! "iti" = Some (PList [a; b])) ->
  (config !! "spout_count" = Some c) ->
  (config !! "duration" = Some dur) ->
  (config !! "cue_duration_ms" = Some cue) ->
  (config !! "shaping" = Some sh) ->
  let r := run fuel config (boot d w) in
  (exists tail,
     log (fst r) = resets_notice (config ∪ d) ++
                   ESettings c dur cue a b sh :: ENew (board_in w) c :: tail) /\
  (data (session (fst r)) !! "spout_count" = Some c).
Proof.
  intros Hiti Hc Hdur Hcue Hsh r.
  destruct (run_reaches_board fuel config d w a b c dur cue sh Hiti Hc Hdur Hcue Hsh)
    as [(evs & Hl & _) HK].
  fold r in Hl, HK. split; [|exact HK].
  exists evs. rewrite Hl, <- app_assoc. reflexivity.
Qed.

(** Three spouts and an interval from 500 ms down to 100 ms, at a desk, for a
    session whose data holds resets of an earlier run. *)
Lemma run_builds_board_first_witness :
  let r := run 100 (Demo.config 3 (1 # 10) 500 100 false)
             (boot {["resets_timepoints" := PList []]} (Demo.desk [])) in
  snd r = Ok tt /\
  (exists tail,
     log (fst r) =
       [EPrint "resets_timepoints key found in session data."] ++
       ESettings (PInt 3) (PFloat (1 # 10)) (PInt 100) (PInt 500) (PInt 100) (PBool false)
       :: ENew RPiMock (PInt 3) :: tail) /\
  (data (session (fst r)) !! "spout_count" = Some (PInt 3)).
Proof.
  split; [vm_compute; reflexivity|].
  assert (E : resets_notice (Demo.config 3 (1 # 10) 500 100 false ∪
                             {["resets_timepoints" := PList []]})
              = [EPrint "resets_timepoints key found in session data."])
    by (vm_compute; reflexivity).
  rewrite <- E.
  apply (run_builds_board_first 100 _ {["resets_timepoints" := PList []]} (Demo.desk [])
           (PInt 500) (PInt 100) (PInt 3) (PFloat (1 # 10)) (PInt 100) (PBool false));
    reflexivity.
Defined.

(** * The record that a session leaves *)

Lemma has_insert ks k v s :
  has ks s -> has ks (with_session (fun x => set_data (<[k := v]> (data x)) x) s).
Proof.
  unfold has. st_simpl. intros H. eapply Forall_impl; [exact H|].
  intros k' H'. apply lookup_insert_is_Some'. right. exact H'.
Qed.

Lemma has_cons ks k v s :
  has ks s -> has (k :: ks) (with_session (fun x => set_data (<[k := v]> (data x)) x) s).
Proof.
  intros H. constructor; [|apply has_insert, H].
  st_simpl. apply lookup_insert_is_Some'. left. reflexivity.
Qed.

Lemma has_nil s : has [] s.
Proof. constructor. Qed.

(** [has ks] of a state after one assignment. *)
Ltac has_tac :=
  idtac;
  match goal with
  | H : has ?ks ?s |- has ?ks (with_session (fun y => set_data (<[_ := _]> _) y) ?s) =>
      apply has_insert; exact H
  | H : has ?ks ?s |- has ?ks _ => exact H
  end.

#[global] Instance has_collate_spouts ks idx l acc : Stable (has ks) (collate_spouts idx l acc).
Proof.
  revert idx acc. induction l as [|p l IH]; intros idx acc; simpl;
    intros ? ?; wp_auto (has ks) has_tac.
Qed.

Lemma collate_data_keys manual s :
  wp (_collate_data manual) s (fun r s' => is_ok r -> has collated_keys s').
Proof.
  unfold _collate_data.
  apply wp_bind_last; [intros ? ? []|intros _ s0].
  apply wp_bind_last; [intros ? ? []|intros _ s1].
  apply wp_bind. unfold data_set at 1. apply wp_modify; cbv beta iota.
  apply wp_bind. unfold data_set at 1. apply wp_modify; cbv beta iota.
  pose proof (has_cons _ "touch_timepoints" (PList [])
                _ (has_cons _ "cue_timepoints" (PList []) _ (has_nil s1))) as H2.
  apply wp_bind. unfold the_rpi at 1, the_session.
  apply wp_bind, wp_gets; cbv beta iota.
  apply wp_some_or.
  match goal with |- match ?o with _ => _ end => destruct o as [r|] end;
    cbv beta iota; [|intros H; destruct H].
  wp_cut (has ["touch_timepoints"; "cue_timepoints"]); [apply stable_call, H2| |intros H; destruct H].
  clear H2 s0 s1.
  unfold data_set, the_rpi, the_session, data_get, the_data, seconds_of, num_of, time_time.
  repeat wp_step; try (intros H; destruct H; fail); intros _.
  all: unfold has, collated_keys in *; st_simpl.
  all: repeat match goal with H : Forall _ (_ :: _) |- _ => 
                apply Forall_cons in H; destruct H as [? H] end.
  all: repeat constructor; rewrite ?lookup_insert_is_Some'; auto 10.
Qed.

Lemma end_session_keys manual s :
  wp (_end_session manual) s (fun r s' => is_ok r -> has collated_keys s').
Proof.
  unfold _end_session.
  apply wp_bind_last; [intros ? ? H; destruct H|intros _ s0].
  wp_cut_ok (has collated_keys); [apply collate_data_keys| |intros H; destruct H].
  eapply wp_mono; [|intros r s' H _; exact H].
  wp_auto (has collated_keys) has_tac.
Qed.

Lemma run_keys fuel config s :
  wp (run fuel config) s (fun r s' => is_ok r -> has collated_keys s').
Proof.
  unfold run.
  repeat lazymatch goal with
         | |- wp (bind _ _) _ _ =>
             apply wp_bind_last; [intros ? ? H; destruct H|intros ? ?]
         end.
  apply end_session_keys.
Qed.

Lemma run_keeps k `{!Unwritten k} fuel config d w :
  wp (run fuel config) (boot d w) (fun _ s' => kept k ((config ∪ d) !! k) s').
Proof.
  unfold run.
  wp_cut (kept k ((config ∪ d) !! k)); [apply wp_modify; reflexivity| |assumption].
  wp_auto (kept k ((config ∪ d) !! k)) kept_tac.
Qed.

(** When [run] returns, [data] holds every key that [_collate_data] assigns:
    the per-spout cue and touch timepoints, the spontaneous reaches, the cued
    lifts, the date and the formatted start and end times. *)
Theorem run_returns_with_collated_record (fuel : nat) (config : gmap string pyval)
    (s : St) :
  snd (run fuel config s) = Ok tt ->
  has collated_keys (fst (run fuel config s)).
Proof.
  intros Hok. assert (H := run_keys fuel config s). unfold wp in H.
  rewrite Hok in H. exact (H I).
Qed.

(** A session of two seconds at a desk, one spout: two trials, both missed. *)
Lemma run_returns_with_collated_record_witness :
  has collated_keys
    (fst (run 100 (Demo.config 1 2 40 40 false) (boot ∅ (Demo.desk [])))).
Proof.
  apply (run_returns_with_collated_record 100). vm_compute; reflexivity.
Defined.

(** [run] merges the configuration over the data that the session had, and
    then assigns under nine keys only: under every other key [data] holds at
    the end, however [run] ends, what the configuration held there, or else
    what the session's data held. *)
Theorem run_leaves_other_keys (fuel : nat) (config d : gmap string pyval)
    (w : World) (k : string) :
  k ∉ written_keys ->
  data (session (fst (run fuel config (boot d w)))) !! k = (config ∪ d) !! k.
Proof. intros Hk. exact (run_keeps k (Unwritten0 := Hk) fuel config d w). Qed.

(** The weight noted before the session of two seconds at a desk. *)
Lemma run_leaves_other_keys_witness :
  data (session (fst (run 100 (Demo.config 1 2 40 40 false)
                        (boot (<["weight" := PStr "25.1"]> ∅) (Demo.desk [])))))
    !! "weight" = Some (PStr "25.1").
Proof.
  rewrite (run_leaves_other_keys 100 _ _ _ "weight").
  - vm_compute; reflexivity.
  - unfold written_keys. rewrite !not_elem_of_cons.
    repeat split; try discriminate. apply not_elem_of_nil.
Defined.

Lemma missing_after_merge (config d : gmap string pyval) k x y :
  k ∈ settings_read -> (config ∪ d) !! k = None ->
  (<["resets_timepoints" := x]> (<["spont_reach_timepoints" := y]> (config ∪ d))) !! k
  = None.
Proof.
  intros Hk Hn. unfold settings_read in Hk. rewrite !elem_of_cons, elem_of_nil in Hk.
  rewrite !lookup_insert_ne; [exact Hn|..]; intros <-; intuition discriminate.
Qed.

(** A session without one of the five settings that [run] reads first is
    stopped by an exception before the settings are printed and the board is
    built: nothing is logged but the notice that [run] prints if the merged
    [data] has the key [resets_timepoints], there is no board, and the pins
    are as they were. *)
Theorem run_stops_on_missing_setting (fuel : nat) (config d : gmap string pyval)
    (w : World) (k : string) :
  k ∈ settings_read ->
  (config ∪ d) !! k = None ->
  let r := run fuel config (boot d w) in
  (exists e, snd r = Raise e) /\
  log (fst r) = resets_notice (config ∪ d) /\
  _rpi (session (fst r)) = None /\ gpio (fst r) = gpio (boot d w).
Proof.
  intros Hk Hn r.
  assert (Hmiss := fun x y => missing_after_merge config d k x y Hk Hn).
  enough (H : wp (run fuel config) (boot d w) (fun r s' =>
                (exists e, r = Raise e) /\ log s' = resets_notice (config ∪ d) /\
                _rpi (session s') = None /\ gpio s' = gpio (boot d w))) by exact H.
  unfold run, resets_notice, data_set, data_get, the_data, _display_training_settings,
    unpack_pair.
  apply wp_bind, wp_modify; cbv beta iota.
  apply wp_bind, wp_gets; cbv beta iota. st_simpl.
  change (data (session (boot d w))) with d.
  repeat (lazymatch goal with
          | |- wp (bind (_RPi _) _) _ _ => fail
          | |- _ => idtac
          end; wp_step).
  all: try (repeat split; eauto; fail).
  all: exfalso; specialize (Hmiss (PList [PList []; PList []]) (PList []));
    unfold settings_read in Hk; rewrite !elem_of_cons, elem_of_nil in Hk;
    destruct Hk as [-> | [-> | [-> | [-> | [-> | []]]]]];
    match goal with
    | H : data (session _) !! ?k = Some _, Hm : _ !! ?k = None |- _ =>
        discriminate (eq_trans (eq_sym Hm) H)
    end.
Qed.

(** No duration in the configuration, at a desk. *)
Lemma run_stops_on_missing_setting_witness :
  let r := run 100 (delete "duration" (Demo.config 1 2 40 40 false))
             (boot ∅ (Demo.desk [])) in
  (exists e, snd r = Raise e) /\
  log (fst r) = [] /\ _rpi (session (fst r)) = None /\
  gpio (fst r) = gpio (boot ∅ (Demo.desk [])).
Proof.
  assert (E : resets_notice (delete "duration" (Demo.config 1 2 40 40 false) ∪ ∅) = [])
    by (vm_compute; reflexivity).
  rewrite <- E.
  apply (run_stops_on_missing_setting 100 _ ∅ (Demo.desk []) "duration").
  - unfold settings_read. rewrite !elem_of_cons. auto.
  - vm_compute; reflexivity.
Defined.

(** * Cleaning up and collating at the end of a session *)

Lemma count_snoc P l e :
  count P (l ++ [e]) = (count P l + (if P e then 1 else 0))%nat.
Proof.
  unfold count. rewrite List.filter_app, length_app. simpl. destruct (P e); reflexivity.
Qed.

Lemma count_cons P e l :
  count P (e :: l) = ((if P e then 1 else 0) + count P l)%nat.
Proof. unfold count. simpl. destruct (P e); reflexivity. Qed.

Lemma count_quiet (P : event -> bool) l :
  (forall e, quiet_end e = true -> P e = false) ->
  forallb quiet_end l = true -> count P l = 0%nat.
Proof.
  intros HP. unfold count. induction l as [|e l IH]; simpl; [reflexivity|].
  intros H. apply andb_true_iff in H as [He Hl]. rewrite (HP e He). apply IH, Hl.
Qed.

Lemma quiet_not_cleanup e : quiet_end e = true -> is_cleanup e = false.
Proof. unfold quiet_end. destruct (is_cleanup e); [discriminate|reflexivity]. Qed.

Lemma quiet_not_collate e : quiet_end e = true -> is_collate e = false.
Proof.
  unfold quiet_end. destruct (is_cleanup e), (is_collate e); try discriminate; reflexivity.
Qed.

Lemma quiet_not_exiting e : quiet_end e = true -> is_exiting e = false.
Proof.
  unfold quiet_end.
  destruct (is_cleanup e), (is_collate e), (is_exiting e); try discriminate; reflexivity.
Qed.

Lemma end_run_snoc l e : end_run (l ++ [e]) = end_step (end_run l) e.
Proof. unfold end_run. rewrite fold_left_app. reflexivity. Qed.

Lemma end_run_app l1 l2 : end_run (l1 ++ l2) = fold_left end_step l2 (end_run l1).
Proof. unfold end_run. apply fold_left_app. Qed.

Lemma end_step_quiet ph e :
  quiet_end e = true -> ph <> Disorder -> end_step ph e = Training.
Proof.
  intros He Hph. destruct ph; try congruence; destruct e; try reflexivity; discriminate He.
Qed.

Lemma end_fold_quiet l : forall ph,
  forallb quiet_end l = true -> ph <> Disorder -> fold_left end_step l ph <> Disorder.
Proof.
  induction l as [|e l IH]; intros ph Hl Hph; simpl; [exact Hph|].
  simpl in Hl. apply andb_true_iff in Hl as [He Hl].
  apply IH; [exact Hl|]. rewrite (end_step_quiet ph e He Hph). discriminate.
Qed.

Lemma end_log_nil : end_log [].
Proof. split; [discriminate|reflexivity..]. Qed.

Lemma end_log_quiet evs e : quiet_end e = true -> end_log evs -> end_log (evs ++ [e]).
Proof.
  intros He [H1 H2 H3]. split.
  - rewrite end_run_snoc, (end_step_quiet _ e He H1). discriminate.
  - rewrite !count_snoc, (quiet_not_collate e He), (quiet_not_cleanup e He). lia.
  - rewrite !count_snoc, (quiet_not_exiting e He), (quiet_not_cleanup e He). lia.
Qed.

(** ** The invariant of the trial loop *)

Lemma ending_relax L b p s : ending L b p s -> ending L false p s.
Proof.
  intros (Hh & Hr & evs & Hl & He & Hn & _). split; [exact Hh|]. split; [exact Hr|].
  exists evs. repeat split; try assumption; try apply He. discriminate.
Qed.

Lemma ending_fewer L b p p' s : (p' <= p)%nat -> ending L b p s -> ending L b p' s.
Proof.
  intros Hp (Hh & Hr & evs & Hl & He & Hn & Hc). split; [exact Hh|]. split; [exact Hr|].
  exists evs. repeat split; try assumption; try apply He. lia.
Qed.

Lemma ending_emit L b p e s :
  quiet_end e = true -> ending L b p s -> ending L b p (emit e s).
Proof.
  intros Hq (Hh & Hr & evs & Hl & He & Hn & Hc). split; [exact Hh|]. split; [exact Hr|].
  exists (evs ++ [e]). split; [|split; [|split]].
  - simpl. rewrite Hl. symmetry. apply app_assoc.
  - apply end_log_quiet; assumption.
  - rewrite count_snoc, (quiet_not_cleanup e Hq). st_simpl. lia.
  - rewrite count_snoc, (quiet_not_cleanup e Hq), Nat.add_0_r. exact Hc.
Qed.

Lemma closed_data_set k v s :
  k <> "end_time" ->
  closed s -> closed (with_session (fun x => set_data (<[k := v]> (data x)) x) s).
Proof.
  intros Hk [str H]. exists str. st_simpl. rewrite lookup_insert_ne by exact Hk. exact H.
Qed.

Lemma ending_data_set L b p k v s :
  k <> "end_time" ->
  ending L b p s ->
  ending L b p (with_session (fun x => set_data (<[k := v]> (data x)) x) s).
Proof.
  intros Hk (Hh & Hr & evs & Hl & He & Hn & Hc). split; [exact Hh|]. split; [exact Hr|].
  exists evs. repeat split; try assumption; try apply He.
  intros Hb H0. apply closed_data_set; [exact Hk|]. apply Hc; assumption.
Qed.

Lemma ending_update_rpi L b p f s :
  ending L b p s ->
  ending L b p (with_session (fun x => set_rpi (option_map f (_rpi x)) x) s).
Proof.
  intros (Hh & Hr & evs & Hl & He & Hn & Hc). split; [exact Hh|]. split.
  - st_simpl. destruct Hr as [r ->]. eexists; reflexivity.
  - exists evs. repeat split; try assumption; apply He.
Qed.

(** [ending L b p] of a state after one assignment. *)
Ltac ending_tac :=
  idtac;
  match goal with
  | H : ending ?L ?b ?p ?s |- ending ?L ?b ?p (emit ?e ?s) =>
      apply ending_emit; [ reflexivity | exact H ]
  | H : ending ?L ?b ?p ?s
    |- ending ?L ?b ?p (with_session (fun y => set_data (<[_ := _]> _) y) ?s) =>
      apply ending_data_set; [ discriminate | exact H ]
  | H : ending ?L ?b ?p ?s
    |- ending ?L ?b ?p (with_session (fun y => set_rpi (option_map _ _) y) ?s) =>
      apply ending_update_rpi; exact H
  | H : ending ?L ?b ?p ?s |- ending ?L ?b ?p _ => exact H
  end.

Lemma ending_call L b p cb pin : stable (ending L b p) (call cb pin).
Proof. destruct cb; intros ? ?; wp_auto (ending L b p) ending_tac. Qed.

(** ** Cleaning up, collating, showing the results *)

Lemma lull_emit P L h sc e s : P e = true -> lull P L h sc s -> lull P L h sc (emit e s).
Proof.
  intros He (H1 & H2 & H3 & H4). split; [apply emits_emit; assumption|]. auto.
Qed.

Lemma lull_update_rpi P L h sc f s :
  lull P L h sc s ->
  lull P L h sc (with_session (fun x => set_rpi (option_map f (_rpi x)) x) s).
Proof.
  intros (H1 & H2 & H3 & H4). split; [exact H1|]. split; [exact H2|]. split; [exact H3|].
  st_simpl. destruct H4 as [r ->]. eexists; reflexivity.
Qed.

(** [lull P L h sc] of a state after one assignment. *)
Ltac lull_tac :=
  idtac;
  match goal with
  | H : lull ?P ?L ?h ?sc ?s |- lull ?P ?L ?h ?sc (emit ?e ?s) =>
      apply lull_emit; [ reflexivity | exact H ]
  | H : lull ?P ?L ?h ?sc ?s
    |- lull ?P ?L ?h ?sc (with_session (fun y => set_rpi (option_map _ _) y) ?s) =>
      apply lull_update_rpi; exact H
  | H : lull ?P ?L ?h ?sc ?s |- lull ?P ?L ?h ?sc _ => exact H
  end.

Ltac closed_tac :=
  idtac;
  match goal with
  | H : closed ?s |- closed (with_session (fun y => set_data (<[_ := _]> _) y) ?s) =>
      apply closed_data_set; [ discriminate | exact H ]
  | H : closed ?s |- closed _ => exact H
  end.

#[global] Instance lull_collate_spouts P L h sc idx l acc :
  Stable (lull P L h sc) (collate_spouts idx l acc).
Proof.
  revert idx acc. induction l as [|p l IH]; intros idx acc; simpl;
    intros ? ?; wp_auto (lull P L h sc) lull_tac.
Qed.

Lemma no_event_nil l : forallb no_event l = true -> l = [].
Proof. destruct l; [reflexivity|discriminate]. Qed.

(** The board's [cleanup] logs its call, and nothing else. *)
Lemma rpi_cleanup_lull s :
  is_Some (_rpi (session s)) ->
  wp rpi_cleanup s (fun _ s' =>
    lull no_event (log s ++ [ECleanup]) (sigint s) (script (world s)) s').
Proof.
  intros [r Hr]. unfold rpi_cleanup.
  apply wp_bind. unfold the_board, the_rpi, the_session.
  apply wp_bind, wp_bind, wp_gets; cbv beta iota. rewrite Hr.
  apply wp_some_or; cbv beta iota. apply wp_ret; cbv beta iota.
  apply wp_bind. unfold say. apply wp_modify; cbv beta iota.
  assert (H : lull no_event (log s ++ [ECleanup]) (sigint s) (script (world s))
                (emit ECleanup s)).
  { split; [apply emits_refl; reflexivity|]. repeat split. st_simpl. rewrite Hr. eauto. }
  destruct (board_of r); [|apply wp_ret, H].
  wp_auto (lull no_event (log s ++ [ECleanup]) (sigint s) (script (world s))) lull_tac.
Qed.

(** The collation logs its call first; when it returns, the end time is a
    string. *)
Lemma collate_data_lull manual L h sc s :
  lull no_event L h sc s ->
  wp (_collate_data manual) s (fun r s' =>
    lull quiet_end (L ++ [ECollate manual]) h sc s' /\ (is_ok r -> closed s')).
Proof.
  intros ((evs & Hl & He) & Hh & Hsc & Hr). apply no_event_nil in He. subst evs.
  rewrite app_nil_r in Hl.
  unfold _collate_data. apply wp_bind. unfold say. apply wp_modify; cbv beta iota.
  assert (H : lull quiet_end (L ++ [ECollate manual]) h sc (emit (ECollate manual) s)).
  { split; [apply emits_refl; simpl; rewrite Hl; reflexivity|]. auto. }
  apply wp_conj.
  - destruct manual;
      [ wp_auto (lull quiet_end (L ++ [ECollate true]) h sc) lull_tac
      | wp_auto (lull quiet_end (L ++ [ECollate false]) h sc) lull_tac ].
  - repeat lazymatch goal with
           | |- wp (bind _ _) _ _ =>
               apply wp_bind_last; [intros ? ? X; destruct X|intros ? ?]
           end.
    unfold data_set. apply wp_modify. intros _. eexists. st_simpl. apply lookup_insert_eq.
Qed.

(** What one call of [_end_session] does to log, handler and script. *)
Lemma end_session_spec manual s :
  is_Some (_rpi (session s)) ->
  wp (_end_session manual) s (fun r s' =>
    sigint s' = sigint s /\ script (world s') = script (world s) /\
    is_Some (_rpi (session s')) /\
    ((log s' = log s ++ [ECleanup] /\ ~ is_ok r) \/
     (exists evs,
        log s' = log s ++ ECleanup :: ECollate manual :: evs /\
        forallb quiet_end evs = true /\ (is_ok r -> closed s')))).
Proof.
  intros Hr. unfold _end_session.
  wp_cut (lull no_event (log s ++ [ECleanup]) (sigint s) (script (world s)));
    [apply rpi_cleanup_lull, Hr| |].
  2: { destruct HI as ((evs & Hl & He) & Hh & Hsc & Hr'). apply no_event_nil in He.
       subst evs. rewrite app_nil_r in Hl. repeat split; try assumption.
       left. split; [exact Hl|]. intros X; destruct X. }
  apply wp_bind. eapply wp_mono; [apply collate_data_lull, HI|].
  assert (Hpost : forall (r : res unit) s',
            lull quiet_end ((log s ++ [ECleanup]) ++ [ECollate manual])
              (sigint s) (script (world s)) s' ->
            (is_ok r -> closed s') ->
            sigint s' = sigint s /\ script (world s') = script (world s) /\
            is_Some (_rpi (session s')) /\
            ((log s' = log s ++ [ECleanup] /\ ~ is_ok r) \/
             (exists evs,
                log s' = log s ++ ECleanup :: ECollate manual :: evs /\
                forallb quiet_end evs = true /\ (is_ok r -> closed s')))).
  { intros r s' ((evs & Hl & He) & Hh & Hsc & Hr') Hc. repeat split; try assumption.
    right. exists evs. split; [|split; assumption].
    rewrite Hl, <- !app_assoc. reflexivity. }
  intros [[]|e] s1 [HL HC]; cbv beta iota.
  2: { apply Hpost; [exact HL|]. intros X; destruct X. }
  specialize (HC I).
  assert (HB : both (lull quiet_end ((log s ++ [ECleanup]) ++ [ECollate manual])
                       (sigint s) (script (world s))) closed s1) by (split; assumption).
  clear HL HC HI.
  eapply (wp_mono _ _ (fun _ s' =>
            both (lull quiet_end ((log s ++ [ECleanup]) ++ [ECollate manual])
                    (sigint s) (script (world s))) closed s')).
  { wp_auto (both (lull quiet_end ((log s ++ [ECleanup]) ++ [ECollate manual])
                     (sigint s) (script (world s))) closed)
      ltac:(both_tac lull_tac closed_tac). }
  intros r s' [HL HC]. apply Hpost; [exact HL|]. intros _. exact HC.
Qed.

(** ** One more cleanup *)

Lemma end_log_cleanup evs pre tail :
  end_log evs ->
  pre = [] \/ pre = [EPrint "Exiting."] ->
  tail = [] \/ (exists m rest, tail = ECollate m :: rest /\ forallb quiet_end rest = true) ->
  end_log (evs ++ pre ++ ECleanup :: tail) /\
  count is_cleanup (evs ++ pre ++ ECleanup :: tail) = S (count is_cleanup evs).
Proof.
  intros [H1 H2 H3] Hpre Htail.
  assert (Hc : count is_cleanup tail = 0%nat /\
               (count is_collate tail <= 1)%nat /\ count is_exiting tail = 0%nat /\
               fold_left end_step tail Cleaned <> Disorder).
  { destruct Htail as [->|(m & rest & -> & Hq)]; [repeat split; auto; discriminate|].
    rewrite !count_cons. simpl.
    rewrite (count_quiet is_cleanup rest quiet_not_cleanup Hq),
            (count_quiet is_collate rest quiet_not_collate Hq),
            (count_quiet is_exiting rest quiet_not_exiting Hq).
    repeat split; auto. apply end_fold_quiet; [exact Hq|discriminate]. }
  destruct Hc as (Hc1 & Hc2 & Hc3 & Hc4).
  assert (Hp : count is_cleanup pre = 0%nat /\ count is_collate pre = 0%nat /\
               (count is_exiting pre <= 1)%nat /\
               fold_left end_step pre (end_run evs) <> Disorder).
  { destruct Hpre as [-> | ->]; simpl; repeat split; auto.
    destruct (end_run evs); [discriminate..|congruence]. }
  destruct Hp as (Hp1 & Hp2 & Hp3 & Hp4).
  split; [split|].
  - rewrite end_run_app, fold_left_app. simpl.
    destruct (fold_left end_step pre (end_run evs)); [exact Hc4..|congruence].
  - rewrite !count_app, !count_cons. simpl. lia.
  - rewrite !count_app, !count_cons. simpl. lia.
  - rewrite !count_app, !count_cons. simpl. lia.
Qed.

(** The handler that [run] installs for SIGINT. *)
Lemma handle_sigint_ending L b p s :
  ending L b (S p) s ->
  wp handle_sigint s (fun r s' => ending L false p s' /\ (is_ok r -> ending L true p s')).
Proof.
  intros (Hh & Hr & evs & Hl & He & Hn & Hc).
  unfold handle_sigint. apply wp_bind, wp_gets; cbv beta iota. rewrite Hh.
  unfold _end_session_manually. apply wp_bind. unfold say. apply wp_modify; cbv beta iota.
  eapply wp_mono; [apply end_session_spec; exact Hr|].
  intros r s' (Hh' & Hsc' & Hr' & Hcase). revert Hh' Hsc' Hcase. st_simpl.
  intros Hh' Hsc' Hcase.
  assert (Hs : forall tail,
            log s' = (log s ++ [EPrint "Exiting."]) ++ ECleanup :: tail ->
            tail = [] \/ (exists m rest, tail = ECollate m :: rest /\
                                         forallb quiet_end rest = true) ->
            forall strict, (strict = true -> closed s') -> ending L strict p s').
  { intros tail Hlog Htail strict Hstrict.
    destruct (end_log_cleanup evs [EPrint "Exiting."] tail He (or_intror eq_refl) Htail)
      as [He' Hcount].
    split; [congruence|]. split; [exact Hr'|].
    exists (evs ++ [EPrint "Exiting."] ++ ECleanup :: tail). split; [|split; [|split]].
    - rewrite Hlog, Hl, <- !app_assoc. reflexivity.
    - exact He'.
    - rewrite Hcount, Hsc'. lia.
    - intros Hb _. apply Hstrict, Hb. }
  destruct Hcase as [[Hlog Hno] | (rest & Hlog & Hq & Hclosed)].
  - split.
    + apply (Hs []); [rewrite Hlog, <- app_assoc; reflexivity|left; reflexivity|discriminate].
    + intros Hok. destruct (Hno Hok).
  - split.
    + apply (Hs (ECollate true :: rest)); [rewrite Hlog, <- app_assoc; reflexivity| |discriminate].
      right. eauto.
    + intros Hok. apply (Hs (ECollate true :: rest));
        [rewrite Hlog, <- app_assoc; reflexivity| |intros _; exact (Hclosed Hok)].
      right. eauto.
Qed.

Lemma ending_clock L b p f s :
  ending L b p s -> ending L b p (with_world (fun w => set_clock (f w) w) s).
Proof. exact id. Qed.

(** One signal of a tick. *)
Lemma deliver_ending L p t sg s :
  ending L true (sig_count sg + p) s ->
  wp (deliver t sg) s (fun r s' => ending L false p s' /\ (is_ok r -> ending L true p s')).
Proof.
  intros HI. unfold deliver. apply wp_bind, wp_modify; cbv beta iota.
  apply (ending_clock L true _ (fun w => Qmax (clock w) t)) in HI.
  destruct sg as [e pin|]; [|apply (handle_sigint_ending L true p), HI].
  simpl in HI.
  eapply (wp_mono _ _ (fun _ s' => ending L true p s'));
    [|intros r s' H; split; [apply (ending_relax L true), H|intros _; exact H]].
  wp_cut (ending L true p); [apply wp_modify; ending_tac| |assumption].
  apply wp_bind, wp_gets; cbv beta iota.
  destruct (detect (gpio _) !! pin) as [[e' cb]|]; [|assumption].
  apply wp_when. destruct (edge_eqb e e'); [|assumption].
  wp_cut (ending L true p); [apply wp_modify; apply ending_emit; [|assumption]| |assumption].
  { destruct cb; reflexivity. }
  apply wp_swallow. apply ending_call; assumption.
Qed.

Lemma deliver_all_ending L l : forall s,
  ending L true (sigints_of l) s ->
  wp (for_each l (fun '(t, sg) => deliver t sg)) s
     (fun r s' => ending L false 0 s' /\ (is_ok r -> ending L true 0 s')).
Proof.
  induction l as [|[t sg] l IH]; intros s HI; simpl.
  - apply wp_ret. split; [apply (ending_relax L true), HI|intros _; exact HI].
  - apply wp_bind. eapply wp_mono; [apply (deliver_ending L (sigints_of l)), HI|].
    intros [[]|e] s' [HK HJ]; cbv beta iota.
    + apply IH, HJ. exact I.
    + split; [|intros X; destruct X]. apply (ending_fewer L false (sigints_of l)); [lia|exact HK].
Qed.

Lemma ending_pop L b tk rest s :
  script (world s) = tk :: rest ->
  ending L b 0 s -> ending L b (sigints_of (fired tk)) (with_world (set_script rest) s).
Proof.
  intros Hsc (Hh & Hr & evs & Hl & He & Hn & Hc). split; [exact Hh|]. split; [exact Hr|].
  exists evs. split; [|split; [|split]]; try assumption.
  st_simpl. rewrite Hsc in Hn. simpl in Hn. lia.
Qed.

#[global] Instance guarded_block L d :
  Guarded (ending L true 0) (ending L false 0) (block d).
Proof.
  intros s HI. unfold block.
  apply wp_bind. unfold time_time. apply wp_gets; cbv beta iota.
  apply wp_bind. unfold next_tick. apply wp_bind, wp_gets; cbv beta iota.
  assert (Hrest : forall tk s1, ending L true (sigints_of (fired tk)) s1 ->
    forall c,
    wp (for_each (fired tk) (fun '(t, sg) => deliver t sg) ;;
        modify (with_world (fun w => set_clock (Qmax (clock w) (c w)) w))) s1
       (fun r s' => ending L false 0 s' /\ (is_ok r -> ending L true 0 s'))).
  { intros tk s1 H1 c. apply wp_bind. eapply wp_mono; [apply deliver_all_ending, H1|].
    intros [[]|e] s2 [HK HJ]; cbv beta iota.
    - apply wp_modify. specialize (HJ I).
      split; [apply (ending_relax L true)|intros _]; exact HJ.
    - split; [exact HK|intros X; destruct X]. }
  destruct (script (world s)) as [|tk rest] eqn:Hsc.
  - apply wp_ret; cbv beta iota. apply (Hrest (mkTick [] 0) s HI).
  - apply wp_bind, wp_modify; cbv beta iota. apply wp_ret; cbv beta iota.
    apply (Hrest tk). apply ending_pop; assumption.
Qed.

(** ** The statements of the trial loop *)

Lemma guarded_of_stable L {A} (m : M A) :
  stable (ending L true 0) m -> Guarded (ending L true 0) (ending L false 0) m.
Proof.
  intros H s HI. eapply wp_mono; [apply H, HI|].
  intros r s' HJ. split; [apply (ending_relax L true), HJ|intros _; exact HJ].
Qed.

Section Calls.

Context (L : list event).

Ltac go := apply guarded_of_stable; intros ? ?; wp_auto (ending L true 0) ending_tac.

#[global] Instance guarded_monitor_sensors f g :
  Guarded (ending L true 0) (ending L false 0) (rpi_monitor_sensors f g).
Proof. go. Qed.

#[global] Instance guarded_set_button_callback i f :
  Guarded (ending L true 0) (ending L false 0) (rpi_set_button_callback i f).
Proof. go. Qed.

#[global] Instance guarded_disable_sensors :
  Guarded (ending L true 0) (ending L false 0) rpi_disable_sensors.
Proof. go. Qed.

#[global] Instance guarded_start_trial c f g :
  Guarded (ending L true 0) (ending L false 0) (rpi_start_trial c f g).
Proof. go. Qed.

#[global] Instance guarded_end_trial :
  Guarded (ending L true 0) (ending L false 0) rpi_end_trial.
Proof. go. Qed.

End Calls.

(** The goal after a statement that raised, or at a statement that ends the
    sequence. *)
Ltac end_done :=
  split;
  [ first [ assumption | apply (ending_relax _ true); ending_tac ]
  | let X := fresh in intros X; first [ solve [ destruct X ] | ending_tac ] ].

(** Cut at the statement at the head: [ending L true 0] when it returns,
    [ending L false 0] when it raises. *)
Ltac end_cut L :=
  lazymatch goal with
  | |- wp (bind _ _) _ _ => apply wp_bind
  | |- _ => idtac
  end;
  eapply (wp_mono _ _ (fun r s' => ending L false 0 s' /\ (is_ok r -> ending L true 0 s')));
  [ | let r := fresh "r" in let s' := fresh "s" in
      let HK := fresh "HK" in let HJ := fresh "HJ" in
      intros r s' [HK HJ]; destruct r; cbv beta iota;
      [ specialize (HJ I); clear HK | clear HJ ] ].

Ltac end_auto L :=
  repeat first
    [ lazymatch goal with
      | |- wp (bind (modify _) _) _ _ =>
          end_cut L; [ apply wp_modify; solve [ end_done ] | | solve [ end_done ] ]
      | |- wp (modify _) _ _ => fail
      | |- wp _ _ _ =>
          end_cut L; [ apply guarded_call; assumption | | solve [ end_done ] ]
      end
    | lazymatch goal with
      | |- wp (bind ?m _) _ _ =>
          let h := head_of m in
          tryif is_read h then fail else (end_cut L; [ | | solve [ end_done ] ])
      end
    | wp_step
    | solve [ end_done ] ].

Section Loops.

Context (L : list event).

#[global] Instance guarded_time_sleep d :
  Guarded (ending L true 0) (ending L false 0) (time_sleep d).
Proof. intros s HI. unfold time_sleep. end_auto L. Qed.

#[global] Instance guarded_wait_for_rest n :
  Guarded (ending L true 0) (ending L false 0) (Real_wait_for_rest n).
Proof. induction n as [|n IH]; intros s HI; simpl; end_auto L. Qed.

#[global] Instance guarded_countdown n trial_end now :
  Guarded (ending L true 0) (ending L false 0) (countdown n trial_end now).
Proof. revert now. induction n as [|n IH]; intros now s HI; simpl; end_auto L. Qed.

#[global] Instance guarded_rest_and_count_down n :
  Guarded (ending L true 0) (ending L false 0) (rest_and_count_down n).
Proof. induction n as [|n IH]; intros s HI; simpl; end_auto L. Qed.

#[global] Instance guarded_await_outcome n cue_end now :
  Guarded (ending L true 0) (ending L false 0) (await_outcome n cue_end now).
Proof. revert now. induction n as [|n IH]; intros now s HI; simpl; end_auto L. Qed.

#[global] Instance guarded_inter_trial_interval n :
  Guarded (ending L true 0) (ending L false 0) (_inter_trial_interval n).
Proof. intros s HI. unfold _inter_trial_interval. end_auto L. Qed.

#[global] Instance guarded_trial n :
  Guarded (ending L true 0) (ending L false 0) (_trial n).
Proof. intros s HI. unfold _trial. end_auto L. Qed.

End Loops.

(** * The board of the training box *)

(** Reading a pin changes nothing. *)
Lemma GPIO_input_pure pin s : fst (GPIO.input pin s) = s.
Proof.
  unfold GPIO.input, GPIO.numbered, GPIO.the_gpio, bind, gets, ret, raise.
  destruct (mode_set (gpio s)); simpl; [|reflexivity].
  destruct (channels (gpio s) !! pin) as [[|]|]; reflexivity.
Qed.

Lemma the_rpi_pure s : fst (the_rpi s) = s.
Proof.
  unfold the_rpi, the_session, bind, gets, some_or. simpl.
  destruct (_rpi (session s)); reflexivity.
Qed.

Lemma wait_for_rest_resting n : forall s s',
  Real_wait_for_rest n s = (s', Ok tt) -> resting s'.
Proof.
  induction n as [|n IH]; intros s s' H; simpl in H.
  all: apply bind_ok in H as (r & s1 & Hr & H); apply the_rpi_ok in Hr as [Hr ->].
  all: apply bind_ok in H as (p0 & s1 & H0 & H); apply some_or_ok in H0 as [H0 ->].
  all: apply bind_ok in H as (l & s1 & Hl & H);
    pose proof (GPIO_input_pure p0 s) as Hp; rewrite Hl in Hp; simpl in Hp; subst s1.
  all: apply bind_ok in H as (p1 & s1 & H1 & H); apply some_or_ok in H1 as [H1 ->].
  all: apply bind_ok in H as (h & s1 & Hh & H);
    pose proof (GPIO_input_pure p1 s) as Hp; rewrite Hh in Hp; simpl in Hp; subst s1.
  all: destruct (l && h) eqn:Elh.
  1, 3: injection H as <-; apply andb_true_iff in Elh as [-> ->];
    exists r, p0, p1; rewrite Hl, Hh; auto.
  - discriminate H.
  - apply bind_ok in H as ([] & s1 & _ & H). exact (IH _ _ H).
Qed.

(** [wait_for_rest] of the physical board returns only with both paws on
    their rests: read at the state it returns in, both paw pins are high. *)
Theorem wait_for_rest_returns_at_rest (n : nat) (s : St) :
  snd (Real_wait_for_rest n s) = Ok tt ->
  resting (fst (Real_wait_for_rest n s)).
Proof.
  intros H. apply (wait_for_rest_resting n s).
  destruct (Real_wait_for_rest n s) as [s' r]. simpl in H. subst r. reflexivity.
Qed.

(** The left paw of the box at rest lifts and comes back while the board
    waits. *)
Lemma wait_for_rest_returns_at_rest_witness :
  resting (fst (Real_wait_for_rest 100
                  (with_world (set_levels (<[18 := true]> ∅))
                     (Demo.at_rest [Demo.quiet; Demo.settle_and_start])))).
Proof. apply wait_for_rest_returns_at_rest. vm_compute; reflexivity. Defined.

(** ** The end of a trial *)

Lemma numbered_ok s s' : GPIO.numbered s = (s', Ok tt) -> mode_set (gpio s) = true /\ s' = s.
Proof.
  unfold GPIO.numbered, GPIO.the_gpio, bind, gets. simpl.
  destruct (mode_set (gpio s)); [|discriminate]. intros [= <-]. auto.
Qed.

Lemma remove_event_detect_ok pin s s' :
  GPIO.remove_event_detect pin s = (s', Ok tt) ->
  session s' = session s /\
  channels (gpio s') = channels (gpio s) /\ outputs (gpio s') = outputs (gpio s) /\
  detect (gpio s') = delete pin (detect (gpio s)).
Proof.
  unfold GPIO.remove_event_detect. intros H.
  apply bind_ok in H as ([] & s1 & Hn & H). apply numbered_ok in Hn as [_ ->].
  injection H as <-. auto.
Qed.

Lemma output_ok pin v s s' :
  GPIO.output pin v s = (s', Ok tt) ->
  session s' = session s /\
  channels (gpio s') = channels (gpio s) /\ detect (gpio s') = detect (gpio s) /\
  channels (gpio s) !! pin = Some OUT /\
  outputs (gpio s') = <[pin := v]> (outputs (gpio s)).
Proof.
  unfold GPIO.output. intros H.
  apply bind_ok in H as ([] & s1 & Hn & H). apply numbered_ok in Hn as [_ ->].
  apply bind_ok in H as (g & s1 & [= <- <-] & H).
  destruct (channels (gpio s) !! pin) as [[|]|]; try discriminate H.
  injection H as <-. auto.
Qed.

Lemma remove_all_ok {A} (f : A -> Z) l : forall s s',
  for_each l (fun x => GPIO.remove_event_detect (f x)) s = (s', Ok tt) ->
  session s' = session s /\
  channels (gpio s') = channels (gpio s) /\ outputs (gpio s') = outputs (gpio s) /\
  (forall pin, pin ∈ map f l \/ detect (gpio s) !! pin = None ->
               detect (gpio s') !! pin = None).
Proof.
  induction l as [|x l IH]; intros s s' H; simpl in H.
  - injection H as <-. repeat split. intros pin [Hp|Hp]; [|exact Hp].
    apply elem_of_nil in Hp. destruct Hp.
  - apply bind_ok in H as ([] & s1 & H1 & H).
    apply remove_event_detect_ok in H1 as (Hs1 & Hc1 & Ho1 & Hd1).
    apply IH in H as (Hs & Hc & Ho & Hd).
    repeat split; try congruence.
    intros pin Hp. apply Hd. rewrite Hd1.
    destruct (decide (f x = pin)) as [<-|Hne]; [right; apply lookup_delete_eq|].
    rewrite lookup_delete_ne by exact Hne.
    destruct Hp as [Hp|Hp]; [|right; exact Hp].
    simpl in Hp. apply elem_of_cons in Hp as [Hp|Hp]; [congruence|left; exact Hp].
Qed.

Lemma cues_off_ok l : forall s s',
  for_each l (fun spout => GPIO.output (cue spout) false) s = (s', Ok tt) ->
  session s' = session s /\ detect (gpio s') = detect (gpio s) /\
  channels (gpio s') = channels (gpio s) /\
  (forall pin, GPIO.driven (gpio s) pin = false -> GPIO.driven (gpio s') pin = false) /\
  (forall p, p ∈ l -> GPIO.driven (gpio s') (cue p) = false).
Proof.
  induction l as [|x l IH]; intros s s' H; simpl in H.
  - injection H as <-. repeat split; auto. intros p Hp. apply elem_of_nil in Hp. destruct Hp.
  - apply bind_ok in H as ([] & s1 & H1 & H).
    apply output_ok in H1 as (Hs1 & Hc1 & Hd1 & Hx & Ho1).
    apply IH in H as (Hs & Hd & Hc & Hkeep & Hoff).
    assert (Hstep : forall pin, GPIO.driven (gpio s) pin = false \/ pin = cue x ->
                                GPIO.driven (gpio s1) pin = false).
    { intros pin Hp. unfold GPIO.driven in *. rewrite Hc1, Ho1.
      destruct (decide (cue x = pin)) as [<-|Hne].
      - rewrite Hx, lookup_insert_eq. reflexivity.
      - rewrite lookup_insert_ne by exact Hne.
        destruct Hp as [Hp|Hp]; [exact Hp|congruence]. }
    repeat split; try congruence.
    + intros pin Hp. apply Hkeep, Hstep. left; exact Hp.
    + intros p Hp. apply elem_of_cons in Hp as [->|Hp]; [|apply Hoff, Hp].
      apply Hkeep, Hstep. right; reflexivity.
Qed.

Lemma elem_of_map {A B} (f : A -> B) l x : x ∈ l -> f x ∈ map f l.
Proof.
  induction l as [|y l IH]; intros H; [apply elem_of_nil in H; destruct H|].
  simpl. apply elem_of_cons in H as [->|H]; [left|right; apply IH, H].
Qed.

(** When [end_trial] of the physical board returns, no callback is armed on a
    paw pin or on the touch pin of a spout of the board, and no cue of the
    board is lit: nothing that the trial armed can fire any more. *)
Theorem end_trial_disarms (s : St) (r : RPi) :
  _rpi (session s) = Some r ->
  snd (Real.end_trial s) = Ok tt ->
  let g := gpio (fst (Real.end_trial s)) in
  (forall pin, pin ∈ paw_pins r -> detect g !! pin = None) /\
  (forall p, p ∈ spouts r -> detect g !! touch p = None) /\
  (forall p, p ∈ spouts r -> GPIO.driven g (cue p) = false).
Proof.
  intros Hr Hok g. subst g.
  destruct (Real.end_trial s) as [s' res] eqn:H. simpl in Hok. subst res. simpl.
  unfold Real.end_trial, Real.disable_sensors in H.
  apply bind_ok in H as ([] & s1 & H1 & H).
  apply bind_ok in H1 as (r1 & s0 & Hr1 & H1). apply the_rpi_ok in Hr1 as [Hr1 ->].
  assert (r1 = r) by congruence. subst r1.
  apply bind_ok in H1 as ([] & s2 & Hpaw & Htouch).
  apply (remove_all_ok (fun x => x)) in Hpaw as (Hs2 & _ & _ & Hd2).
  apply (remove_all_ok touch) in Htouch as (Hs1 & _ & _ & Hd1).
  apply bind_ok in H as (r2 & s0 & Hr2 & H). apply the_rpi_ok in Hr2 as [Hr2 ->].
  assert (r2 = r) by congruence. subst r2.
  apply cues_off_ok in H as (_ & Hd & _ & _ & Hoff).
  rewrite Hd. repeat split.
  - intros pin Hp. apply Hd1. right. apply Hd2. left.
    rewrite map_id. exact Hp.
  - intros p Hp. apply Hd1. left. apply elem_of_map, Hp.
  - exact Hoff.
Qed.

(** The end of a trial on spout 0 of a two-spout box. *)
Lemma end_trial_disarms_witness :
  let g := gpio (fst (Real.end_trial (Demo.in_trial 2 0))) in
  (forall pin, pin ∈ [17; 18] -> detect g !! pin = None) /\
  (forall p, p ∈ [mkSpout 5 27 25 [1000%Q] []; mkSpout 22 23 24 [] []] ->
             detect g !! touch p = None) /\
  (forall p, p ∈ [mkSpout 5 27 25 [1000%Q] []; mkSpout 22 23 24 [] []] ->
             GPIO.driven g (cue p) = false).
Proof.
  apply (end_trial_disarms (Demo.in_trial 2 0)
           (mkRPi RPiReal [4; 13] [17; 18]
              [mkSpout 5 27 25 [1000%Q] []; mkSpout 22 23 24 [] []] [[]; []] []));
    vm_compute; reflexivity.
Defined.

(** ** The solenoid *)

Lemma spout_at_ok i s s' p :
  spout_at i s = (s', Ok p) ->
  exists r, _rpi (session s) = Some r /\ py_nth (spouts r) i = Some p /\ s' = s.
Proof.
  unfold spout_at. intros H. apply bind_ok in H as (r & s1 & Hr & H).
  apply the_rpi_ok in Hr as [Hr ->]. apply some_or_ok in H as [H ->]. eauto.
Qed.

(** When [dispense_water] of the physical board returns, the solenoid of the
    spout is closed again, whatever happened while it slept. *)
Theorem dispense_water_closes_solenoid (sleep : Q -> M unit) (n : Z) (v : pyval)
    (s : St) :
  snd (Real.dispense_water sleep n v s) = Ok tt ->
  let s' := fst (Real.dispense_water sleep n v s) in
  exists r p,
    _rpi (session s') = Some r /\ py_nth (spouts r) n = Some p /\
    GPIO.driven (gpio s') (solenoid p) = false.
Proof.
  intros Hok. destruct (Real.dispense_water sleep n v s) as [s' res] eqn:H.
  simpl in Hok. subst res. simpl. unfold Real.dispense_water in H.
  apply bind_ok in H as (p & s1 & _ & H).
  apply bind_ok in H as ([] & s2 & _ & H).
  apply bind_ok in H as (d & s3 & _ & H).
  apply bind_ok in H as ([] & s4 & _ & H).
  apply bind_ok in H as (q & s5 & Hq & H).
  apply spout_at_ok in Hq as (r & Hr & Hq & ->).
  apply output_ok in H as (Hs & Hc & _ & Hx & Ho).
  exists r, q. rewrite Hs. repeat split; try assumption.
  unfold GPIO.driven. rewrite Hc, Hx, Ho, lookup_insert_eq. reflexivity.
Qed.

(** A reward of 50 ms on spout 0 of a two-spout box, from a callback. *)
Lemma dispense_water_closes_solenoid_witness :
  let s' := fst (Real.dispense_water thread_sleep 0 (PInt 50) (Demo.in_trial 2 0)) in
  exists r p,
    _rpi (session s') = Some r /\ py_nth (spouts r) 0 = Some p /\
    GPIO.driven (gpio s') (solenoid p) = false.
Proof.
  apply (dispense_water_closes_solenoid thread_sleep 0 (PInt 50) (Demo.in_trial 2 0)).
  vm_compute; reflexivity.
Defined.

Lemma negative_sleep (sleep : Q -> M unit) d s :
  sleep = time_sleep \/ sleep = thread_sleep -> (d < 0)%Q ->
  sleep (d / 1000)%Q s = (s, Raise ValueError).
Proof.
  intros Hsl Hd.
  assert (Hq : Qle_bool 0 (d / 1000) = false).
  { apply not_true_iff_false. intros H. apply Qle_bool_iff in H.
    apply (Qlt_not_le _ _ Hd).
    assert (E : (d == d / 1000 * 1000)%Q) by field.
    rewrite E. apply Qmult_le_0_compat; [exact H|discriminate]. }
  destruct Hsl as [-> | ->]; unfold time_sleep, thread_sleep; rewrite Hq; reflexivity.
Qed.

(** With a duration that is not a number, or a negative one, [dispense_water]
    of the physical board opens the solenoid and is then stopped by the
    exception of the division or of [time.sleep]: it leaves the solenoid
    open. *)
Theorem dispense_water_bad_duration_leaves_solenoid_open (sleep : Q -> M unit)
    (n : Z) (v : pyval) (r : RPi) (p : Spout) (s : St) :
  sleep = time_sleep \/ sleep = thread_sleep ->
  _rpi (session s) = Some r ->
  py_nth (spouts r) n = Some p ->
  mode_set (gpio s) = true ->
  (channels (gpio s) !! solenoid p = Some OUT) ->
  as_num v = None \/ (exists d, as_num v = Some d /\ (d < 0)%Q) ->
  let res := Real.dispense_water sleep n v s in
  (exists e, snd res = Raise e) /\
  GPIO.driven (gpio (fst res)) (solenoid p) = true.
Proof.
  intros Hsl Hr Hp Hm Hc Hv res.
  set (s1 := with_gpio (fun g =>
               mkGPIO (mode_set g) (channels g) (<[solenoid p := true]> (outputs g))
                 (detect g)) s).
  assert (Hopen : GPIO.driven (gpio s1) (solenoid p) = true).
  { unfold GPIO.driven, s1. st_simpl. rewrite Hc, lookup_insert_eq. reflexivity. }
  assert (Hat : spout_at n s = (s, Ok p)).
  { unfold spout_at, the_rpi, the_session, bind, gets. simpl. rewrite Hr. simpl.
    rewrite Hp. reflexivity. }
  assert (Hout : GPIO.output (solenoid p) true s = (s1, Ok tt)).
  { unfold GPIO.output, GPIO.numbered, GPIO.the_gpio, bind, gets. simpl.
    rewrite Hm. simpl. rewrite Hc. reflexivity. }
  assert (Hres : exists e, res = (s1, Raise e)).
  { subst res. unfold Real.dispense_water.
    rewrite (bind_run _ _ _ _ _ Hat), (bind_run _ _ _ _ _ Hout).
    destruct Hv as [Hv | (d & Hv & Hd)].
    - exists TypeError. apply bind_raise. unfold num_of. rewrite Hv. reflexivity.
    - exists ValueError.
      assert (Hnum : num_of v s1 = (s1, Ok d)) by (unfold num_of; rewrite Hv; reflexivity).
      rewrite (bind_run _ _ _ _ _ Hnum).
      apply bind_raise. apply negative_sleep; assumption. }
  destruct Hres as [e ->]. split; [exists e; reflexivity|exact Hopen].
Qed.

(** A reward of -50 ms on spout 0 of a two-spout box. *)
Lemma dispense_water_bad_duration_leaves_solenoid_open_witness :
  let res := Real.dispense_water time_sleep 0 (PInt (-50)) (Demo.in_trial 2 0) in
  (exists e, snd res = Raise e) /\
  GPIO.driven (gpio (fst res)) 25 = true.
Proof.
  apply (dispense_water_bad_duration_leaves_solenoid_open time_sleep 0 (PInt (-50))
           (mkRPi RPiReal [4; 13] [17; 18]
              [mkSpout 5 27 25 [1000%Q] []; mkSpout 22 23 24 [] []] [[]; []] [])
           (mkSpout 5 27 25 [1000%Q] []) (Demo.in_trial 2 0)).
  - left; reflexivity.
  - vm_compute; reflexivity.
  - reflexivity.
  - vm_compute; reflexivity.
  - vm_compute; reflexivity.
  - right. exists (-50)%Q. split; reflexivity.
Defined.

(** ** Building the board *)

Ltac same_session_tac :=
  idtac;
  match goal with
  | H : same_session ?x ?s |- same_session ?x _ => exact H
  end.

Lemma setup_same_session x pin d i : stable (same_session x) (GPIO.setup pin d i).
Proof. intros ? ?. wp_auto (same_session x) same_session_tac. Qed.

Lemma length_py_slice_to {A} (l : list A) n : (length (py_slice_to l n) <= length l)%nat.
Proof. unfold py_slice_to. destruct (0 <=? n); rewrite length_take; lia. Qed.

Lemma length_py_slice_to_nonneg {A} (l : list A) n :
  0 <= n -> length (py_slice_to l n) = Z.to_nat (Z.min n (Z.of_nat (length l))).
Proof.
  intros Hn. unfold py_slice_to. apply Z.leb_le in Hn as Hb. rewrite Hb, length_take. lia.
Qed.

Lemma spouts_upto_ok c s s' sp :
  spouts_upto c s = (s', Ok sp) ->
  s' = s /\ (length sp <= 2)%nat /\
  (forall n, c = PInt n -> 0 <= n -> length sp = Z.to_nat (Z.min n 2)).
Proof.
  unfold spouts_upto. intros H.
  destruct c as [| b | n | q | str | l]; try discriminate H.
  - injection H as <- <-. repeat split; [simpl; lia|discriminate].
  - apply bind_ok in H as (m & s1 & Hm & [= <- <-]). apply some_or_ok in Hm as [_ ->].
    repeat split; [apply (length_py_slice_to _PIN_NUMBERS_spouts)|discriminate].
  - apply bind_ok in H as (m & s1 & Hm & [= <- <-]). apply some_or_ok in Hm as [Hm ->].
    injection Hm as <-.
    repeat split; [apply (length_py_slice_to _PIN_NUMBERS_spouts)|].
    intros n' [= <-] Hn. apply (length_py_slice_to_nonneg _PIN_NUMBERS_spouts n Hn).
Qed.

Lemma update_rpi_ok f s s' :
  update_rpi f s = (s', Ok tt) ->
  s' = with_session (fun x => set_rpi (option_map f (_rpi x)) x) s.
Proof. intros [= <-]. reflexivity. Qed.

(** The pins of the physical board are set up without a word to the
    session, and the spouts come out blank. *)
Lemma real_initialise_pins_ok s s' r :
  _rpi (session s) = Some r ->
  Real._initialise_pins s = (s', Ok tt) ->
  session s' = set_rpi (Some (set_spouts (map blank (spouts r)) r)) (session s).
Proof.
  intros Hr H. unfold Real._initialise_pins in H.
  apply bind_ok in H as (r1 & s0 & Hr1 & H). apply the_rpi_ok in Hr1 as [Hr1 ->].
  assert (r1 = r) by congruence. subst r1.
  apply bind_ok in H as ([] & s1 & [= <-] & H).
  apply bind_ok in H as ([] & s2 & H2 & H).
  apply bind_ok in H as ([] & s3 & H3 & H).
  apply bind_ok in H as ([] & s4 & H4 & H).
  apply update_rpi_ok in H. subst s'.
  assert (E2 : same_session (session s) s2).
  { refine (stable_keeps _ _ _ _ _
              (stable_for_each _ _ _ (fun pin => setup_same_session _ pin IN false))
              _ H2). reflexivity. }
  assert (E3 : same_session (session s) s3).
  { apply (stable_keeps _ _ _ _ _
             (stable_for_each _ _ _ (fun pin => setup_same_session _ pin IN false)) E2 H3). }
  assert (E4 : same_session (session s) s4).
  { refine (stable_keeps _ _ _ _ _ (stable_for_each _ _ _ _) E3 H4).
    intros spout ? ?. wp_auto (same_session (session s)) same_session_tac. }
  unfold same_session in E4. st_simpl. rewrite E4, Hr. reflexivity.
Qed.

Lemma mock_initialise_pins_ok s s' r :
  _rpi (session s) = Some r ->
  Mock._initialise_pins s = (s', Ok tt) ->
  exists st,
    session s' = set_rpi (Some (set_spouts (map blank (spouts r)) (set_pin_states st r)))
                   (session s).
Proof.
  intros Hr H. unfold Mock._initialise_pins in H.
  apply bind_ok in H as (r1 & s0 & Hr1 & H). apply the_rpi_ok in Hr1 as [Hr1 ->].
  apply bind_ok in H as ([] & s1 & H1 & H).
  apply update_rpi_ok in H1. apply update_rpi_ok in H. subst s' s1.
  eexists. st_simpl. rewrite Hr. reflexivity.
Qed.

(** The board that [_RPi(spout_count)] builds, when it returns, is of the
    class of the environment, listens to the two buttons and the two paw rests
    of the pin table, and has at most two spouts whatever [spout_count] is:
    for a count that is not negative, that many or two, whichever is less.
    Its spouts and lifts hold no timepoint yet, and its [cleanup] has become
    the handler of SIGINT. *)
Theorem new_board_has_at_most_two_spouts (c : pyval) (s : St) :
  snd (_RPi c s) = Ok tt ->
  let s' := fst (_RPi c s) in
  exists r,
    _rpi (session s') = Some r /\
    board_of r = board_in (world s) /\
    _button_pins r = [4; 13] /\ paw_pins r = [17; 18] /\
    (length (spouts r) <= 2)%nat /\
    (forall n, c = PInt n -> 0 <= n -> length (spouts r) = Z.to_nat (Z.min n 2)) /\
    Forall (fun p => cue_timepoints p = [] /\ touch_timepoints p = []) (spouts r) /\
    lift_timepoints r = [[]; []] /\
    sigint s' = rpi_cleanup_handler.
Proof.
  intros Hok. destruct (_RPi c s) as [s' res] eqn:H. simpl in Hok. subst res. simpl.
  unfold _RPi in H.
  apply bind_ok in H as (w & s0 & [= <- <-] & H). fold (board_in (world s)) in H.
  apply bind_ok in H as ([] & s1 & [= <-] & H).
  apply bind_ok in H as (sp & s2 & Hsp & H).
  apply spouts_upto_ok in Hsp as (-> & Hlen & Hcount).
  apply bind_ok in H as ([] & s3 & [= <-] & H).
  apply bind_ok in H as ([] & s4 & Hinit & H).
  apply bind_ok in H as ([] & s5 & Hlift & [= <-]).
  apply update_rpi_ok in Hlift. subst s5.
  set (r0 := mkRPi (board_in (world s)) _PIN_NUMBERS_buttons _PIN_NUMBERS_paw_sensors
               sp [] []) in *.
  assert (Hblank : Forall (fun p => cue_timepoints p = [] /\ touch_timepoints p = [])
                     (map blank sp)).
  { clear. induction sp as [|p sp IH]; constructor; [split; reflexivity|exact IH]. }
  assert (Hr4 : exists st, session s4
                = set_rpi (Some (set_spouts (map blank sp) (set_pin_states st r0)))
                    (session (emit (ENew (board_in (world s)) c) s))).
  { destruct (board_in (world s)) eqn:Hb.
    - exists []. apply (real_initialise_pins_ok _ _ r0) in Hinit; [exact Hinit|reflexivity].
    - apply (mock_initialise_pins_ok _ _ r0) in Hinit; [exact Hinit|reflexivity]. }
  destruct Hr4 as [st Hr4].
  eexists. st_simpl. rewrite Hr4. st_simpl. split; [reflexivity|].
  st_simpl. repeat split; try reflexivity.
  - rewrite length_map. exact Hlen.
  - intros n Hc Hn. rewrite length_map. exact (Hcount n Hc Hn).
  - exact Hblank.
Qed.

(** Three spouts asked of a box. *)
Lemma new_board_has_at_most_two_spouts_witness :
  exists r,
    _rpi (session (fst (_RPi (PInt 3) (boot ∅ (Demo.box []))))) = Some r /\
    length (spouts r) = 2%nat.
Proof.
  destruct (new_board_has_at_most_two_spouts (PInt 3) (boot ∅ (Demo.box [])))
    as (r & Hr & _ & _ & _ & _ & Hn & _); [vm_compute; reflexivity|].
  exists r. split; [exact Hr|]. exact (Hn 3 eq_refl ltac:(lia)).
Defined.

(** ** Arming and disarming the sensors *)

Lemma add_event_detect_ok pin e cb s s' :
  GPIO.add_event_detect pin e cb s = (s', Ok tt) ->
  channels (gpio s) !! pin = Some IN /\ detect (gpio s) !! pin = None /\
  s' = with_gpio (fun g =>
         mkGPIO (mode_set g) (channels g) (outputs g) (<[pin := (e, cb)]> (detect g))) s.
Proof.
  unfold GPIO.add_event_detect. intros H.
  apply bind_ok in H as ([] & s1 & Hn & H). apply numbered_ok in Hn as [_ ->].
  apply bind_ok in H as (g & s1 & Hg & H). apply gets_ok in Hg as [-> ->].
  destruct (channels (gpio s) !! pin) as [[|]|]; try discriminate H.
  destruct (detect (gpio s) !! pin); [discriminate H|].
  apply modify_ok in H. auto.
Qed.

(** The state differs from [s] in the callbacks armed only. *)
Lemma arm_all_ok {A} (f : A -> Z) e cb l : forall s s',
  for_each l (fun x => GPIO.add_event_detect (f x) e cb) s = (s', Ok tt) ->
  session s' = session s /\ world s' = world s /\
  mode_set (gpio s') = mode_set (gpio s) /\
  channels (gpio s') = channels (gpio s) /\ outputs (gpio s') = outputs (gpio s) /\
  (forall pin, pin ∈ map f l ->
               detect (gpio s) !! pin = None /\ detect (gpio s') !! pin = Some (e, cb)) /\
  (forall pin, pin ∉ map f l -> detect (gpio s') !! pin = detect (gpio s) !! pin).
Proof.
  induction l as [|x l IH]; intros s s' H; simpl in H.
  - apply ret_ok in H as [_ ->]. do 5 (split; [reflexivity|]). split; [|reflexivity].
    intros pin Hp. apply elem_of_nil in Hp. destruct Hp.
  - apply bind_ok in H as ([] & s1 & H1 & H).
    apply add_event_detect_ok in H1 as (Hc & Hd & ->).
    apply IH in H as (Hs & Hw & Hm & Hch & Ho & Hin & Hout). clear IH.
    revert Hs Hw Hm Hch Ho Hin Hout. st_simpl. intros Hs Hw Hm Hch Ho Hin Hout.
    do 5 (split; [assumption|]). split; [intros pin H; split|].
    + destruct (decide (pin ∈ map f l)) as [Hl|Hl].
      * destruct (Hin pin Hl) as [Hnone _].
        destruct (decide (f x = pin)) as [<-|Hne]; [exact Hd|].
        rewrite lookup_insert_ne in Hnone by exact Hne. exact Hnone.
      * simpl in H. apply elem_of_cons in H as [->|H]; [exact Hd|contradiction].
    + destruct (decide (pin ∈ map f l)) as [Hl|Hl]; [apply (Hin pin Hl)|].
      rewrite (Hout pin Hl).
      simpl in H. apply elem_of_cons in H as [->|H]; [|contradiction].
      apply lookup_insert_eq.
    + intros pin Hp. simpl in Hp. apply not_elem_of_cons in Hp as [Hne Hp].
      rewrite (Hout pin Hp). apply lookup_insert_ne. congruence.
Qed.

Lemma disarm_all_ok {A} (f : A -> Z) l : forall s s',
  for_each l (fun x => GPIO.remove_event_detect (f x)) s = (s', Ok tt) ->
  session s' = session s /\ world s' = world s /\
  mode_set (gpio s') = mode_set (gpio s) /\
  channels (gpio s') = channels (gpio s) /\ outputs (gpio s') = outputs (gpio s) /\
  (forall pin, pin ∈ map f l -> detect (gpio s') !! pin = None) /\
  (forall pin, pin ∉ map f l -> detect (gpio s') !! pin = detect (gpio s) !! pin).
Proof.
  induction l as [|x l IH]; intros s s' H; simpl in H.
  - apply ret_ok in H as [_ ->]. do 5 (split; [reflexivity|]). split; [|reflexivity].
    intros pin Hp. apply elem_of_nil in Hp. destruct Hp.
  - apply bind_ok in H as ([] & s1 & H1 & H).
    unfold GPIO.remove_event_detect in H1.
    apply bind_ok in H1 as ([] & s0 & Hn & H1). apply numbered_ok in Hn as [_ ->].
    apply modify_ok in H1. subst s1.
    apply IH in H as (Hs & Hw & Hm & Hch & Ho & Hin & Hout). clear IH.
    revert Hs Hw Hm Hch Ho Hin Hout. st_simpl. intros Hs Hw Hm Hch Ho Hin Hout.
    do 5 (split; [assumption|]). split.
    + intros pin Hp. destruct (decide (pin ∈ map f l)) as [Hl|Hl]; [apply (Hin pin Hl)|].
      rewrite (Hout pin Hl).
      simpl in Hp. apply elem_of_cons in Hp as [->|Hp]; [|contradiction].
      apply lookup_delete_eq.
    + intros pin Hp. simpl in Hp. apply not_elem_of_cons in Hp as [Hne Hp].
      rewrite (Hout pin Hp). apply lookup_delete_ne. congruence.
Qed.

Lemma gpio_eq (g g' : GPIO) :
  mode_set g' = mode_set g -> channels g' = channels g -> outputs g' = outputs g ->
  (forall pin, detect g' !! pin = detect g !! pin) -> g' = g.
Proof.
  destruct g, g'. simpl. intros -> -> -> H. f_equal. apply map_eq, H.
Qed.

(** Arming the sensors for an interval and disarming them again leaves the
    state as it was: when [monitor_sensors] and then [disable_sensors] of the
    physical board have returned, session and pins are what they were before
    the two calls. *)
Theorem monitor_then_disable_restores_pins (f g : callback) (s : St) :
  snd ((Real.monitor_sensors f g ;; Real.disable_sensors) s) = Ok tt ->
  let s' := fst ((Real.monitor_sensors f g ;; Real.disable_sensors) s) in
  session s' = session s /\ gpio s' = gpio s.
Proof.
  intros Hok.
  destruct ((Real.monitor_sensors f g ;; Real.disable_sensors) s) as [s' res] eqn:H.
  simpl in Hok. subst res. simpl.
  apply bind_ok in H as ([] & s1 & H1 & H2).
  unfold Real.monitor_sensors in H1. unfold Real.disable_sensors in H2.
  apply bind_ok in H1 as (r & s0 & Hr & H1). apply the_rpi_ok in Hr as [Hr ->].
  apply bind_ok in H1 as ([] & sa & Ha & Hb).
  apply (arm_all_ok (fun x => x)) in Ha as (As & _ & Am & Ac & Ao & Ain & Aout).
  apply (arm_all_ok touch) in Hb as (Bs & _ & Bm & Bc & Bo & Bin & Bout).
  apply bind_ok in H2 as (r' & s0 & Hr' & H2). apply the_rpi_ok in Hr' as [Hr' ->].
  assert (r' = r) by congruence. subst r'.
  apply bind_ok in H2 as ([] & sc & Hc & Hd).
  apply (disarm_all_ok (fun x => x)) in Hc as (Cs & _ & Cm & Cc & Co & Cin & Cout).
  apply (disarm_all_ok touch) in Hd as (Ds & _ & Dm & Dc & Do & Din & Dout).
  split; [congruence|].
  apply gpio_eq; try congruence.
  intros pin.
  destruct (decide (pin ∈ map touch (spouts r))) as [Ht|Ht].
  - rewrite (Din pin Ht).
    destruct (decide (pin ∈ map (fun x => x) (paw_pins r))) as [Hp|Hp].
    + symmetry. apply (Ain pin Hp).
    + rewrite <- (Aout pin Hp). symmetry. apply (Bin pin Ht).
  - rewrite (Dout pin Ht).
    destruct (decide (pin ∈ map (fun x => x) (paw_pins r))) as [Hp|Hp].
    + rewrite (Cin pin Hp). symmetry. apply (Ain pin Hp).
    + rewrite (Cout pin Hp), (Bout pin Ht). apply (Aout pin Hp).
Qed.

(** A two-spout box between two trials. *)
Lemma monitor_then_disable_restores_pins_witness :
  let s := Demo.at_rest [] in
  let s' := fst ((Real.monitor_sensors reset_iti_callback increase_spont_reaches_callback ;;
                  Real.disable_sensors) s) in
  session s' = session s /\ gpio s' = gpio s.
Proof.
  apply (monitor_then_disable_restores_pins reset_iti_callback
           increase_spont_reaches_callback (Demo.at_rest [])).
  vm_compute; reflexivity.
Defined.

(** [set_button_callback] of the physical board never meets a callback in its
    way: on a board whose button pin is an input, it returns, whatever was
    armed on the pin before, with the new callback armed for a falling edge
    there and every other pin as it was. *)
Theorem set_button_callback_replaces (button : Z) (func : callback) (s : St)
    (r : RPi) (pin : Z) :
  _rpi (session s) = Some r ->
  py_nth (_button_pins r) button = Some pin ->
  mode_set (gpio s) = true ->
  (channels (gpio s) !! pin = Some IN) ->
  let res := Real.set_button_callback button func s in
  snd res = Ok tt /\
  session (fst res) = session s /\
  detect (gpio (fst res)) = <[pin := (FALLING, func)]> (detect (gpio s)) /\
  channels (gpio (fst res)) = channels (gpio s) /\
  outputs (gpio (fst res)) = outputs (gpio s).
Proof.
  intros Hr Hp Hm Hc res.
  set (s1 := with_gpio (fun g =>
               mkGPIO (mode_set g) (channels g) (outputs g) (delete pin (detect g))) s).
  set (s2 := with_gpio (fun g =>
               mkGPIO (mode_set g) (channels g) (outputs g)
                 (<[pin := (FALLING, func)]> (detect g))) s1).
  assert (Hrpi : the_rpi s = (s, Ok r)).
  { unfold the_rpi, the_session, bind, gets. simpl. rewrite Hr. reflexivity. }
  assert (Hrem : GPIO.remove_event_detect pin s = (s1, Ok tt)).
  { unfold GPIO.remove_event_detect, GPIO.numbered, GPIO.the_gpio, bind, gets. simpl.
    rewrite Hm. reflexivity. }
  assert (Hadd : GPIO.add_event_detect pin FALLING func s1 = (s2, Ok tt)).
  { unfold GPIO.add_event_detect, GPIO.numbered, GPIO.the_gpio, bind, gets. simpl.
    rewrite Hm. simpl. rewrite Hc, lookup_delete_eq. reflexivity. }
  assert (E : res = (s2, Ok tt)).
  { subst res. unfold Real.set_button_callback.
    rewrite (bind_run _ _ _ _ _ Hrpi). rewrite Hp.
    rewrite (bind_run _ _ s s pin eq_refl).
    rewrite (bind_run _ _ _ _ _ Hrem). exact Hadd. }
  rewrite E. simpl. repeat split. apply insert_delete_eq.
Qed.

(** The left button of a two-spout box, twice in a row. *)
Lemma set_button_callback_replaces_witness :
  let s := fst (Real.set_button_callback 0 reverse_shaping_callback (Demo.at_rest [])) in
  let res := Real.set_button_callback 0 reverse_shaping_callback s in
  snd res = Ok tt /\
  session (fst res) = session s /\
  detect (gpio (fst res)) = <[4 := (FALLING, reverse_shaping_callback)]> (detect (gpio s)) /\
  channels (gpio (fst res)) = channels (gpio s) /\
  outputs (gpio (fst res)) = outputs (gpio s).
Proof.
  apply (set_button_callback_replaces 0 reverse_shaping_callback _
           (mkRPi RPiReal [4; 13] [17; 18]
              [mkSpout 5 27 25 [] []; mkSpout 22 23 24 [] []] [[]; []] []) 4);
    vm_compute; reflexivity.
Defined.

(** ** The start of a trial *)

(** On a board with two spouts [start_trial] arms both touch sensors: when it
    returns for the target 0 or 1, the reward callback is armed on the touch
    pin of the target and the incorrect-grasp callback on that of the other
    spout, both for a rising edge, the lift recorder is armed on the paw pins
    for a falling edge, and the cue of the target is lit. *)
Theorem start_trial_arms_both_spouts (n : Z) (f g : callback) (s : St) (r : RPi)
    (p0 p1 : Spout) :
  _rpi (session s) = Some r ->
  spouts r = [p0; p1] ->
  n = 0 \/ n = 1 ->
  snd (Real.start_trial n f g s) = Ok tt ->
  let gp := gpio (fst (Real.start_trial n f g s)) in
  let target := if n =? 0 then p0 else p1 in
  let other := if n =? 0 then p1 else p0 in
  detect gp !! touch target = Some (RISING, f) /\
  detect gp !! touch other = Some (RISING, g) /\
  (forall paw, paw ∈ paw_pins r ->
               detect gp !! paw = Some (FALLING, record_lift_timepoints)) /\
  GPIO.driven gp (cue target) = true.
Proof.
  intros Hr Hsp Hn Hok.
  destruct (Real.start_trial n f g s) as [s' res] eqn:H. simpl in Hok. subst res.
  cbn [fst]. unfold Real.start_trial in H.
  apply bind_ok in H as ([] & s1 & Hsay & H). apply modify_ok in Hsay. subst s1.
  apply bind_ok in H as ([] & s2 & Happ & H).
  unfold append_cue_timepoint, update_spout in Happ.
  apply bind_ok in Happ as (now & s0 & Hnow & Happ). apply gets_ok in Hnow as [-> ->].
  apply bind_ok in Happ as (pa & s0 & Hpa & Happ).
  apply spout_at_ok in Hpa as (ra & Hra & Hpa & ->).
  apply modify_ok in Happ.
  revert Hra. st_simpl. rewrite Hr. intros [= <-]. rewrite Hsp in Hpa.
  apply bind_ok in H as (p & s3 & Hp & H). apply spout_at_ok in Hp as (rb & Hrb & Hp & ->).
  apply bind_ok in H as ([] & s4 & Hout & H).
  apply output_ok in Hout as (Os & Oc & Od & Ox & Oo).
  apply bind_ok in H as (rc & s5 & Hrc & H). apply the_rpi_ok in Hrc as [Hrc ->].
  apply bind_ok in H as ([] & s6 & Hpaws & H).
  apply (arm_all_ok (fun x => x)) in Hpaws as (Ps & _ & _ & Pc & Po & Pin & Pout).
  apply bind_ok in H as ([] & s7 & Hrew & H).
  apply add_event_detect_ok in Hrew as (Rc & Rd & ->).
  revert Hrb Hrc. rewrite Os. subst s2. st_simpl. rewrite Hr. simpl option_map.
  intros [= <-] [= <-]. revert Hp H. st_simpl. rewrite length_py_set_nth, Hsp. simpl length.
  change (1 <? Z.of_nat 2) with true. cbn [when].
  intros Hp H.
  apply bind_ok in H as (q & s8 & Hq & H). apply spout_at_ok in Hq as (rd & Hrd & Hq & ->).
  apply add_event_detect_ok in H as (Qc & Qd & ->).
  revert Hrd Qd. st_simpl. rewrite Ps, Os. st_simpl. rewrite Hr. simpl option_map.
  intros [= <-]. revert Hq. st_simpl. rewrite Hsp. intros Hq Qd.
  assert (Hpins : touch p = touch (if n =? 0 then p0 else p1) /\
                  cue p = cue (if n =? 0 then p0 else p1) /\
                  touch q = touch (if n =? 0 then p1 else p0)).
  { destruct Hn as [-> | ->]; injection Hpa as <-; injection Hp as <-; injection Hq as <-;
      repeat split. }
  destruct Hpins as (Htp & Hcp & Htq). rewrite <- Htp, <- Hcp, <- Htq.
  assert (Hne : touch q <> touch p).
  { intros E. rewrite E, lookup_insert_eq in Qd. discriminate Qd. }
  split; [rewrite lookup_insert_ne by exact Hne; apply lookup_insert_eq|].
  split; [apply lookup_insert_eq|]. split.
  - intros paw Hpaw.
    assert (Hin : paw ∈ map (fun x => x) (paw_pins r)) by (rewrite map_id; exact Hpaw).
    destruct (Pin paw Hin) as [_ Harm].
    assert (paw <> touch p) by (intros ->; rewrite Harm in Rd; discriminate Rd).
    assert (paw <> touch q).
    { intros ->. rewrite lookup_insert_ne in Qd by congruence.
      rewrite Harm in Qd. discriminate Qd. }
    rewrite !lookup_insert_ne by congruence. exact Harm.
  - unfold GPIO.driven. st_simpl. rewrite Pc, Po, Oc, Ox, Oo, lookup_insert_eq. reflexivity.
Qed.

(** The start of a trial on spout 1 of a two-spout box. *)
Lemma start_trial_arms_both_spouts_witness :
  let gp := gpio (fst (Real.start_trial 1 reward_callback incorrect_grasp_callback
                         (Demo.at_rest []))) in
  detect gp !! 23 = Some (RISING, reward_callback) /\
  detect gp !! 27 = Some (RISING, incorrect_grasp_callback) /\
  (forall paw, paw ∈ [17; 18] ->
               detect gp !! paw = Some (FALLING, record_lift_timepoints)) /\
  GPIO.driven gp 22 = true.
Proof.
  apply (start_trial_arms_both_spouts 1 reward_callback incorrect_grasp_callback
           (Demo.at_rest [])
           (mkRPi RPiReal [4; 13] [17; 18]
              [mkSpout 5 27 25 [] []; mkSpout 22 23 24 [] []] [[]; []] [])
           (mkSpout 5 27 25 [] []) (mkSpout 22 23 24 [] []));
    [vm_compute; reflexivity|reflexivity|right; reflexivity|vm_compute; reflexivity].
Defined.

(** ** A grasp of the wrong spout *)

Lemma py_nth_range {A} (l : list A) i x :
  py_nth l i = Some x -> - Z.of_nat (length l) <= i < Z.of_nat (length l).
Proof.
  unfold py_nth. destruct (Z.leb_spec 0 i) as [Hi|Hi].
  - intros H. apply lookup_lt_Some in H. lia.
  - destruct (Z.leb_spec 0 (Z.of_nat (length l) + i)) as [Hj|Hj]; [|discriminate].
    intros H. apply lookup_lt_Some in H. lia.
Qed.

Lemma output_run pin v s s' :
  GPIO.output pin v s = (s', Ok tt) ->
  s' = with_gpio (fun g => mkGPIO (mode_set g) (channels g) (<[pin := v]> (outputs g))
                             (detect g)) s /\
  channels (gpio s) !! pin = Some OUT.
Proof.
  unfold GPIO.output. intros H.
  apply bind_ok in H as ([] & s1 & Hn & H). apply numbered_ok in Hn as [_ ->].
  apply bind_ok in H as (g & s1 & [= <- <-] & H).
  destruct (channels (gpio s) !! pin) as [[|]|]; try discriminate H.
  injection H as <-. auto.
Qed.

(** On a board with two spouts [incorrect_grasp] returns for the targets 0 and
    1 only (an index from the end has no other spout), and then it has put
    out the cue of the target and appended the time to the touch timepoints of
    the other spout: the spouts are otherwise as they were. *)
Theorem incorrect_grasp_records_touch_of_other_spout (n : Z) (s : St) (r : RPi)
    (p0 p1 : Spout) :
  _rpi (session s) = Some r ->
  spouts r = [p0; p1] ->
  snd (Real.incorrect_grasp n s) = Ok tt ->
  let s' := fst (Real.incorrect_grasp n s) in
  let now := clock (world s) in
  (n = 0 \/ n = 1) /\
  option_map spouts (_rpi (session s')) =
    Some (if n =? 0
          then [p0; set_touch_timepoints (touch_timepoints p1 ++ [now]) p1]
          else [set_touch_timepoints (touch_timepoints p0 ++ [now]) p0; p1]) /\
  GPIO.driven (gpio s') (cue (if n =? 0 then p0 else p1)) = false.
Proof.
  intros Hr Hsp Hok.
  destruct (Real.incorrect_grasp n s) as [s' res] eqn:H. simpl in Hok. subst res.
  cbn [fst]. unfold Real.incorrect_grasp in H.
  apply bind_ok in H as (p & s1 & Hp & H). apply spout_at_ok in Hp as (ra & Hra & Hp & ->).
  rewrite Hr in Hra. injection Hra as <-. rewrite Hsp in Hp.
  apply bind_ok in H as ([] & s1 & Hout & H). apply output_run in Hout as [-> Hch].
  unfold append_touch_timepoint, update_spout in H.
  apply bind_ok in H as (now & s1 & Hnow & H). apply gets_ok in Hnow as [-> ->].
  apply bind_ok in H as (q & s1 & Hq & H). apply spout_at_ok in Hq as (rb & Hrb & Hq & ->).
  revert Hrb. st_simpl. rewrite Hr. intros [= <-]. rewrite Hsp in Hq.
  apply modify_ok in H. subst s'.
  assert (Hn : n = 0 \/ n = 1).
  { apply py_nth_range in Hp. apply py_nth_range in Hq. simpl in Hp, Hq. lia. }
  split; [exact Hn|]. st_simpl. rewrite Hr. st_simpl. rewrite Hsp.
  unfold GPIO.driven. st_simpl.
  destruct Hn as [-> | ->]; injection Hp as <-; injection Hq as <-;
    (split; [reflexivity|]); simpl (_ =? 0); cbv iota;
    rewrite Hch, lookup_insert_eq; reflexivity.
Qed.

(** A grasp of spout 1 while spout 0 is the target. *)
Lemma incorrect_grasp_records_touch_of_other_spout_witness :
  let s' := fst (Real.incorrect_grasp 0 (Demo.in_trial 2 0)) in
  (0 = 0 \/ 0 = 1) /\
  option_map spouts (_rpi (session s')) =
    Some [mkSpout 5 27 25 [1000%Q] []; mkSpout 22 23 24 [] [1000%Q]] /\
  GPIO.driven (gpio s') 5 = false.
Proof.
  destruct (_rpi (session (Demo.in_trial 2 0))) as [r|] eqn:Hr; [|discriminate Hr].
  assert (Hsp : spouts r = [mkSpout 5 27 25 [1000%Q] []; mkSpout 22 23 24 [] []])
    by (injection Hr as <-; reflexivity).
  apply (incorrect_grasp_records_touch_of_other_spout 0 (Demo.in_trial 2 0) r _ _ Hr Hsp).
  vm_compute. reflexivity.
Defined.

(** * What the end of a session shows *)

Ltac counted_tac :=
  idtac;
  match goal with
  | H : counted ?r ?n ?s |- counted ?r ?n _ => exact H
  end.

Ltac logged_here_tac :=
  idtac;
  match goal with
  | H : logged ?L ?s |- logged ?L _ => exact H
  end.

#[global] Instance counted_collate_spouts r n L idx l acc :
  Stable (both (counted r n) (logged L)) (collate_spouts idx l acc).
Proof.
  revert idx acc. induction l as [|p l IH]; intros idx acc; simpl; intros ? ?;
    wp_auto (both (counted r n) (logged L)) ltac:(both_tac counted_tac logged_here_tac).
Qed.

Lemma the_board_ok s s' b :
  the_board s = (s', Ok b) -> exists r, _rpi (session s) = Some r /\ b = board_of r /\ s' = s.
Proof.
  unfold the_board, the_rpi. intros H. inv_ok H. eauto.
Qed.

(** The board's [cleanup] leaves the session alone and logs its call. *)
Lemma rpi_cleanup_ok s s' :
  rpi_cleanup s = (s', Ok tt) ->
  exists r, _rpi (session s) = Some r /\
    counted (Some r) (_reward_count (session s)) s' /\
    logged (log s ++ [ECleanup]) s' /\
    data (session s') = data (session s).
Proof.
  unfold rpi_cleanup. intros H.
  apply bind_ok in H as (b & s0 & Hb & H). apply the_board_ok in Hb as (r & Hr & -> & ->).
  apply bind_ok in H as ([] & s1 & Hs & H). apply modify_ok in Hs. subst s1.
  exists r. split; [exact Hr|].
  assert (HI : same_session (session s) s' /\ logged (log s ++ [ECleanup]) s').
  { destruct (board_of r).
    - refine (stable_keeps (both (same_session (session s)) (logged (log s ++ [ECleanup])))
                _ _ _ _ _ _ H); [|split; reflexivity].
      intros ? ?.
      wp_auto (both (same_session (session s)) (logged (log s ++ [ECleanup])))
        ltac:(both_tac ltac:(idtac; match goal with
                                    | H : same_session ?x ?s |- same_session ?x _ => exact H
                                    end)
                logged_here_tac).
    - apply ret_ok in H as [_ ->]. split; reflexivity. }
  destruct HI as [HS HL]. unfold same_session in HS. unfold counted. rewrite HS.
  repeat split; assumption.
Qed.

Lemma seconds_of_ok v s s' q : seconds_of v s = (s', Ok q) -> s' = s.
Proof.
  unfold seconds_of. destruct v; intros H; inv_ok H; reflexivity.
Qed.

Lemma cue_lists_set k v n s :
  k <> "cue_timepoints" ->
  cue_lists n s -> cue_lists n (with_session (fun x => set_data (<[k := v]> (data x)) x) s).
Proof.
  intros Hk (cl & H & Hn). exists cl. split; [|exact Hn].
  st_simpl. rewrite lookup_insert_ne by exact Hk. exact H.
Qed.

(** Each round of the loop of [_collate_data] adds one entry to
    [data['cue_timepoints']]. *)
Lemma collate_spouts_cue_lists l : forall idx acc s s' acc' n,
  collate_spouts idx l acc s = (s', Ok acc') ->
  cue_lists n s -> cue_lists (n + length l) s'.
Proof.
  induction l as [|p l IH]; intros idx acc s s' acc' n H Hn; simpl in H.
  - inv_ok H. rewrite Nat.add_0_r. exact Hn.
  - apply bind_ok in H as (acc1 & s1 & H1 & H).
    replace (n + length (p :: l))%nat with (S n + length l)%nat by (simpl; lia).
    apply (IH _ _ _ _ _ _ H). clear H IH.
    unfold collate_spout in H1. inv_ok H1.
    destruct Hn as (cl & Hcl & Hlen).
    match goal with
    | Hc : data _ !! "cue_timepoints" = Some (PList ?cl') |- _ =>
        revert Hc; st_simpl; rewrite Hcl; intros [= <-]
    end.
    apply cue_lists_set; [discriminate|].
    exists (cl ++ [floats (cue_timepoints p)]). split.
    + st_simpl. apply lookup_insert_eq.
    + rewrite length_app. simpl. lia.
Qed.

(** When the collation returns, [data['cue_timepoints']] has one entry for
    each spout of the board. *)
Lemma collate_data_ok manual s s' r n L :
  counted (Some r) n s -> logged L s ->
  _collate_data manual s = (s', Ok tt) ->
  counted (Some r) n s' /\ logged (L ++ [ECollate manual]) s' /\
  cue_lists (length (spouts r)) s'.
Proof.
  intros HC HL H. unfold _collate_data in H.
  apply bind_ok in H as ([] & s0 & Hs & H). apply modify_ok in Hs. subst s0.
  assert (HI : both (counted (Some r) n) (logged (L ++ [ECollate manual])) s').
  { refine (stable_keeps _ _ _ _ _ _ _ H).
    - intros ? ?. destruct manual;
        [ wp_auto (both (counted (Some r) n) (logged (L ++ [ECollate true])))
            ltac:(both_tac counted_tac logged_here_tac)
        | wp_auto (both (counted (Some r) n) (logged (L ++ [ECollate false])))
            ltac:(both_tac counted_tac logged_here_tac) ].
    - split; [exact HC|]. unfold logged in *. simpl. rewrite HL. reflexivity. }
  destruct HI as [HC' HL']. split; [exact HC'|]. split; [exact HL'|].
  apply bind_ok in H as ([] & s1 & Hwhen & H).
  apply bind_ok in H as ([] & s2 & Hcue & H). apply modify_ok in Hcue.
  apply bind_ok in H as ([] & s3 & Htouch & H). apply modify_ok in Htouch.
  apply bind_ok in H as (r' & s4 & Hr' & H). apply the_rpi_ok in Hr' as [Hr' ->].
  assert (r' = r).
  { assert (HK : counted (Some r) n s1).
    { destruct manual; [|apply ret_ok in Hwhen as [_ ->]; exact HC].
      refine (stable_keeps (counted (Some r) n) _ _ _ _ _ _ Hwhen); [|exact HC].
      intros ? ?. wp_auto (counted (Some r) n) counted_tac. }
    subst s3 s2. destruct HK as [HK _]. revert Hr'. st_simpl. rewrite HK.
    intros E. injection E as E. symmetry. exact E. }
  subst r'.
  apply bind_ok in H as (acc & s5 & Hloop & H).
  assert (H3 : cue_lists 0 s3).
  { subst s3. apply cue_lists_set; [discriminate|]. subst s2.
    exists []. split; [st_simpl; apply lookup_insert_eq|reflexivity]. }
  apply (collate_spouts_cue_lists _ _ _ _ _ _ _ Hloop) in H3. simpl in H3.
  clear Hloop Hwhen Hcue Htouch.
  inv_ok H.
  repeat match goal with
         | Hs : seconds_of _ _ = (_, Ok _) |- _ => apply seconds_of_ok in Hs; subst
         end.
  repeat (apply cue_lists_set; [discriminate|]). exact H3.
Qed.

Lemma py_len_ok v s s' n :
  py_len v s = (s', Ok n) ->
  s' = s /\ forall l, v = PList l -> n = Z.of_nat (length l).
Proof.
  destruct v; try discriminate; intros [= <- <-]; (split; [reflexivity|]);
    intros l' E; [discriminate E|]. injection E as <-. reflexivity.
Qed.

(** The summary counts the entries of [data['cue_timepoints']]. *)
Lemma display_training_results_ok s s' k :
  cue_lists k s ->
  _display_training_results s = (s', Ok tt) ->
  k <> 0%nat /\
  s' = emit (EResults (Z.of_nat k) (_reward_count (session s))) s.
Proof.
  intros (cl & Hcl & Hk) H. unfold _display_training_results in H.
  apply bind_ok in H as (c & s0 & Hc & H). apply data_get_ok in Hc as [Hc ->].
  rewrite Hcl in Hc. injection Hc as <-.
  apply bind_ok in H as (n & s0 & Hn & H). apply py_len_ok in Hn as [-> Hn].
  specialize (Hn cl eq_refl). rewrite Hk in Hn. subst n.
  apply bind_ok in H as (x & s0 & Hx & H). apply gets_ok in Hx as [-> ->].
  apply bind_ok in H as ([] & s0 & Hz & H).
  apply when_ok in Hz as [[_ Hz]|[Hz ->]]; [discriminate Hz|].
  apply Z.eqb_neq in Hz. split; [lia|].
  inv_ok H.
  repeat match goal with
         | Hp : py_len _ _ = (_, Ok _) |- _ => apply py_len_ok in Hp as [Hp _]; subst
         end.
  reflexivity.
Qed.

(** When [_end_session] returns it has called the board's [cleanup], then
    collated, then shown the results, then rung the bell, in this order and
    once each; and the number of trials that the results show is the number of
    spouts of the board, which is not zero. *)
Theorem end_session_shows_spout_count (manual : bool) (s : St) :
  snd (_end_session manual s) = Ok tt ->
  exists r,
    _rpi (session s) = Some r /\ spouts r <> [] /\
    log (fst (_end_session manual s))
    = log s ++ [ ECleanup; ECollate manual;
                 EResults (Z.of_nat (length (spouts r))) (_reward_count (session s));
                 EPrint "\a" ].
Proof.
  intros Hok. destruct (_end_session manual s) as [s' res] eqn:H.
  simpl in Hok. subst res. simpl. unfold _end_session in H.
  apply bind_ok in H as ([] & s1 & H1 & H).
  apply rpi_cleanup_ok in H1 as (r & Hr & HC1 & HL1 & _).
  apply bind_ok in H as ([] & s2 & H2 & H).
  apply (collate_data_ok _ _ _ _ _ _ HC1 HL1) in H2 as (HC2 & HL2 & Hcue).
  apply bind_ok in H as ([] & s3 & H3 & H).
  apply (display_training_results_ok _ _ _ Hcue) in H3 as [Hne ->].
  apply modify_ok in H. subst s'.
  exists r. split; [exact Hr|]. split.
  - intros E. rewrite E in Hne. apply Hne. reflexivity.
  - simpl. unfold logged in HL2. rewrite HL2. destruct HC2 as [_ ->].
    rewrite <- !app_assoc. reflexivity.
Qed.

(** A two-spout box whose session is ended in its first trial: one cue was
    given, and the results show two trials. *)
Lemma end_session_shows_spout_count_witness :
  let s := with_session (fun x =>
             set_data (<["start_time" := PFloat 1000]>
                         (<["end_time" := PFloat 1002]> (data x))) x)
             (Demo.in_trial 2 0) in
  exists r,
    _rpi (session s) = Some r /\ spouts r <> [] /\
    log (fst (_end_session true s))
    = log s ++ [ ECleanup; ECollate true;
                 EResults (Z.of_nat (length (spouts r))) (_reward_count (session s));
                 EPrint "\a" ].
Proof.
  apply (end_session_shows_spout_count true). vm_compute; reflexivity.
Defined.

Lemma end_session_closes manual s :
  snd (_end_session manual s) = Ok tt -> closed (fst (_end_session manual s)).
Proof.
  intros Hok.
  assert (Hr : is_Some (_rpi (session s))).
  { destruct (_end_session manual s) as [s' res] eqn:H. simpl in Hok. subst res.
    unfold _end_session in H. apply bind_ok in H as ([] & s1 & H1 & _).
    apply rpi_cleanup_ok in H1 as (r & Hr & _). eauto. }
  pose proof (end_session_spec manual s Hr) as H. unfold wp in H. rewrite Hok in H.
  destruct H as (_ & _ & _ & [[_ Hno]|(evs & _ & _ & Hc)]).
  - destruct Hno. exact I.
  - exact (Hc I).
Qed.

(** Once [_end_session] has returned, the loop of [run] cannot go on: the end
    time is now a string, and the test of the loop raises TypeError at once,
    before anything else is done. *)
Theorem trial_loop_raises_after_end (manual : bool) (s : St) (n fuel : nat)
    (trial_count : Z) (now : Q) :
  snd (_end_session manual s) = Ok tt ->
  trials n fuel trial_count now (fst (_end_session manual s))
  = (fst (_end_session manual s), Raise TypeError).
Proof.
  intros Hok. destruct (end_session_closes manual s Hok) as [str Hc].
  set (s' := fst (_end_session manual s)) in *.
  assert (Hget : data_get "end_time" s' = (s', Ok (PStr str))).
  { unfold data_get, the_data, bind, gets. simpl. rewrite Hc. reflexivity. }
  destruct n; simpl; rewrite (bind_run _ _ _ _ _ Hget); reflexivity.
Qed.

(** The session of the two-spout box is ended by hand in its first trial. *)
Lemma trial_loop_raises_after_end_witness :
  let s := with_session (fun x =>
             set_data (<["start_time" := PFloat 1000]>
                         (<["end_time" := PFloat 1002]> (data x))) x)
             (Demo.in_trial 2 0) in
  trials 100 100 1 1001 (fst (_end_session true s))
  = (fst (_end_session true s), Raise TypeError).
Proof.
  apply (trial_loop_raises_after_end true). vm_compute; reflexivity.
Defined.

(** ** Cleaning up once *)

Lemma number_not_closed s v q :
  data (session s) !! "end_time" = Some v -> as_num v = Some q -> ~ closed s.
Proof. intros Hv Hq [str Hs]. rewrite Hs in Hv. injection Hv as <-. discriminate Hq. Qed.

(** The loop of [run]: when it returns, the end time is still a number. *)
Lemma trials_ending L n : forall fuel tc now s,
  ending L true 0 s ->
  wp (trials n fuel tc now) s (fun r s' =>
    ending L false 0 s' /\ (is_ok r -> ending L true 0 s' /\ ~ closed s')).
Proof.
  induction n as [|n IH]; intros fuel tc now s HI; simpl.
  all: apply wp_bind; unfold data_get, the_data; apply wp_bind, wp_gets; cbv beta iota.
  all: apply wp_some_or; destruct (data (session s) !! "end_time") as [v|] eqn:Hv;
    cbv beta iota; [|end_done].
  all: apply wp_bind; unfold before, num_of; apply wp_bind, wp_some_or;
    destruct (as_num v) as [q|] eqn:Hq; cbv beta iota; [|end_done].
  all: apply wp_ret; cbv beta iota.
  all: destruct (Qlt_bool now q).
  all: try (apply wp_ret; split; [apply (ending_relax L true), HI|];
            intros _; split; [exact HI|exact (number_not_closed s v q Hv Hq)]).
  - apply wp_raise. end_done.
  - clear Hv Hq. end_auto L. apply IH. assumption.
Qed.

(** What the log since [L] says when the loop and the end of [run] are
    over. *)
Lemma trials_then_end_session L n fuel tc now s :
  ending L true 0 s ->
  wp (_ <- trials n fuel tc now ;; _end_session false) s (fun r s' =>
    exists evs, log s' = L ++ evs /\ end_log evs /\
      (count is_cleanup evs <= 1)%nat /\
      (is_ok r -> count is_cleanup evs = 1%nat /\ count is_collate evs = 1%nat)).
Proof.
  intros HI. apply wp_bind. eapply wp_mono; [apply trials_ending, HI|].
  intros [tc'|e] s1 [HK HJ]; cbv beta iota.
  - destruct (HJ I) as [(Hh & Hr & evs & Hl & He & Hn & Hc) Hopen]. clear HJ HK.
    assert (H0 : count is_cleanup evs = 0%nat).
    { destruct (count is_cleanup evs) eqn:E; [reflexivity|].
      exfalso. apply Hopen, Hc; [reflexivity|discriminate]. }
    eapply wp_mono; [apply end_session_spec, Hr|].
    intros r s' (_ & _ & _ & Hcase).
    assert (Hs : forall tail,
              log s' = log s1 ++ ECleanup :: tail ->
              tail = [] \/ (exists m rest, tail = ECollate m :: rest /\
                                           forallb quiet_end rest = true) ->
              exists evs', log s' = L ++ evs' /\ end_log evs' /\
                count is_cleanup evs' = 1%nat /\
                count is_collate evs' = (count is_collate evs + count is_collate tail)%nat).
    { intros tail Hlog Htail.
      destruct (end_log_cleanup evs [] tail He (or_introl eq_refl) Htail) as [He' Hcount].
      simpl in He', Hcount. exists (evs ++ ECleanup :: tail).
      split; [rewrite Hlog, Hl, <- app_assoc; reflexivity|].
      split; [exact He'|]. split; [rewrite Hcount, H0; reflexivity|].
      rewrite count_app, count_cons. reflexivity. }
    assert (Hk : count is_collate evs = 0%nat) by (destruct He as [_ Hle _]; lia).
    destruct Hcase as [[Hlog Hno] | (rest & Hlog & Hq & _)].
    + destruct (Hs [] Hlog (or_introl eq_refl)) as (evs' & Hl' & He' & Hc' & _).
      exists evs'. split; [exact Hl'|]. split; [exact He'|]. split; [lia|].
      intros Hok. destruct (Hno Hok).
    + destruct (Hs (ECollate false :: rest) Hlog) as (evs' & Hl' & He' & Hc' & Hk');
        [right; eauto|].
      exists evs'. split; [exact Hl'|]. split; [exact He'|]. split; [lia|].
      intros _. split; [exact Hc'|].
      rewrite Hk', Hk, count_cons, (count_quiet is_collate rest quiet_not_collate Hq).
      reflexivity.
  - destruct HK as (_ & _ & evs & Hl & He & Hn & _).
    exists evs. split; [exact Hl|]. split; [exact He|]. split; [lia|].
    intros Hok. destruct Hok.
Qed.

(** From the installation of its handler on, [run] calls the board's
    [cleanup] at most once if at most one SIGINT arrives and it arrives while
    the loop sleeps (in [time.sleep], where the signals of the script
    arrive): the handler's cleanup and the one at the end of [run] then never
    both happen, because the loop cannot go on after the handler.  Every
    collation comes right after a cleanup; the handler was not entered more
    often than the board was cleaned up; and when the loop and [_end_session]
    return, there was exactly one cleanup and one collation. *)
Theorem trial_loop_cleans_up_once (n fuel : nat) (trial_count : Z) (now : Q) (s : St) :
  sigint s = end_session_manually_handler ->
  is_Some (_rpi (session s)) ->
  (sigints (script (world s)) <= 1)%nat ->
  let r := (_ <- trials n fuel trial_count now ;; _end_session false) s in
  let evs := since (log s) (log (fst r)) in
  (count is_cleanup evs <= 1)%nat /\
  end_run evs <> Disorder /\
  (count is_collate evs <= count is_cleanup evs)%nat /\
  (count is_exiting evs <= count is_cleanup evs)%nat /\
  (snd r = Ok tt -> count is_cleanup evs = 1%nat /\ count is_collate evs = 1%nat).
Proof.
  intros Hh Hr Hn r evs.
  assert (HI : ending (log s) true 0 s).
  { split; [exact Hh|]. split; [exact Hr|]. exists [].
    split; [symmetry; apply app_nil_r|]. split; [apply end_log_nil|].
    split; [simpl; lia|]. intros _ H. destruct H. reflexivity. }
  destruct (trials_then_end_session (log s) n fuel trial_count now s HI)
    as (evs' & Hl & [H1 H2 H3] & Hc & Hok).
  fold r in Hl, Hok.
  assert (E : evs = evs') by (unfold evs, since; rewrite Hl; apply drop_app_length).
  rewrite E. split; [exact Hc|]. split; [exact H1|]. split; [exact H2|].
  split; [exact H3|]. intros Hr'. apply Hok. rewrite Hr'. exact I.
Qed.

(** The session of two seconds at a desk is interrupted during its first
    trial. *)
Lemma trial_loop_cleans_up_once_witness :
  let s := with_world (set_script [Demo.quiet; Demo.quiet; Demo.quiet;
                                   mkTick [(1001.5%Q, Sigint)] 0])
             (with_session (fun x =>
                set_data (<["start_time" := PFloat 1000]>
                            (<["end_time" := PFloat 1002]> (data x))) x)
                (set_sigint end_session_manually_handler
                   (fst (_RPi (PInt 1)
                           (boot (<["resets_timepoints" := PList [PList []; PList []]]>
                                    (<["spont_reach_timepoints" := PList []]>
                                       (Demo.config 1 2 40 40 false)))
                              (Demo.desk [])))))) in
  let r := (_ <- trials 100 100 0 1000 ;; _end_session false) s in
  let evs := since (log s) (log (fst r)) in
  count is_cleanup evs = 1%nat /\
  (count is_cleanup evs <= 1)%nat /\
  end_run evs <> Disorder /\
  (count is_collate evs <= count is_cleanup evs)%nat /\
  (count is_exiting evs <= count is_cleanup evs)%nat /\
  (snd r = Ok tt -> count is_cleanup evs = 1%nat /\ count is_collate evs = 1%nat).
Proof.
  split; [vm_compute; reflexivity|].
  apply (trial_loop_cleans_up_once 100 100 0 1000).
  - reflexivity.
  - vm_compute. eauto.
  - vm_compute. lia.
Defined.

(** * The paw lifts of an interval on the physical board *)

Lemma count_snoc_one P l e : count P (l ++ [e]) = (count P l + if P e then 1 else 0)%nat.
Proof. rewrite count_app. unfold count at 2. simpl. destruct (P e); reflexivity. Qed.

(** The reset callback leaves pins, board and log alone. *)
Lemma reset_iti_callback_frame pin s : framed s (fst (_reset_iti_callback pin s)).
Proof.
  assert (Hst : stable (framed s) (_reset_iti_callback pin)).
  { intros s0 H0.
    wp_auto (framed s)
      ltac:(idtac; match goal with H : framed ?a ?b |- framed ?a _ => exact H end). }
  apply (Hst s). repeat split.
Qed.

Section Lifting.

Context (G : GPIO) (r : RPi) (L : list event) (x0 x1 : list pyval).
Hypothesis HP17 : detect G !! 17 = Some (FALLING, reset_iti_callback).
Hypothesis HP18 : detect G !! 18 = Some (FALLING, reset_iti_callback).
Hypothesis HPo : forall pin e cb,
  detect G !! pin = Some (e, cb) -> pin <> 17 -> pin <> 18 ->
  cb = increase_spont_reaches_callback \/ cb = reverse_shaping_callback.
Hypothesis Hpaws : paw_pins r = [17; 18].

Lemma lift_inv_emit sc n0 n1 e s :
  fires_reset 17 e = false -> fires_reset 18 e = false ->
  lift_inv G r L x0 x1 sc n0 n1 s -> lift_inv G r L x0 x1 sc n0 n1 (emit e s).
Proof.
  intros H17 H18 (HG & Hr & Hsc & evs & y0 & y1 & Hl & Hc17 & Hc18 & Hd & Hy0 & Hy1).
  repeat split; try assumption.
  exists (evs ++ [e]), y0, y1. rewrite !count_snoc_one, H17, H18, !Nat.add_0_r.
  repeat split; try assumption.
  simpl. rewrite Hl. symmetry. apply app_assoc.
Qed.

Lemma lift_inv_data sc n0 n1 k v s :
  k <> "resets_timepoints" ->
  lift_inv G r L x0 x1 sc n0 n1 s ->
  lift_inv G r L x0 x1 sc n0 n1
    (with_session (fun x => set_data (<[k := v]> (data x)) x) s).
Proof.
  intros Hk (HG & Hr & Hsc & evs & y0 & y1 & Hl & Hc17 & Hc18 & Hd & Hy0 & Hy1).
  repeat split; try assumption.
  exists evs, y0, y1. repeat split; try assumption.
  st_simpl. rewrite lookup_insert_ne by congruence. exact Hd.
Qed.

Ltac lift_tac :=
  idtac;
  match goal with
  | H : lift_inv _ _ _ _ _ ?sc ?n0 ?n1 ?s |- lift_inv _ _ _ _ _ ?sc ?n0 ?n1 (emit ?e ?s) =>
      apply lift_inv_emit; [ reflexivity | reflexivity | exact H ]
  | H : lift_inv _ _ _ _ _ ?sc ?n0 ?n1 ?s
    |- lift_inv _ _ _ _ _ ?sc ?n0 ?n1
         (with_session (fun x => set_data (<[_ := _]> (data x)) x) ?s) =>
      apply lift_inv_data; [ discriminate | exact H ]
  | H : lift_inv _ _ _ _ _ ?sc ?n0 ?n1 ?s |- lift_inv _ _ _ _ _ ?sc ?n0 ?n1 _ => exact H
  end.

(** The two callbacks that do not touch the resets. *)
Lemma lift_call_other sc n0 n1 cb pin :
  cb = increase_spont_reaches_callback \/ cb = reverse_shaping_callback ->
  stable (lift_inv G r L x0 x1 sc n0 n1) (call cb pin).
Proof.
  intros [-> | ->] s HI; wp_auto (lift_inv G r L x0 x1 sc n0 n1) lift_tac.
Qed.

(** The reset callback is fired for a paw: one more entry in its list. *)
Lemma lift_fire sc n0 n1 (left : bool) s :
  lift_inv G r L x0 x1 sc n0 n1 s ->
  let pin := if left then 17 else 18 in
  wp (say (EFire reset_iti_callback pin) ;; swallow (_reset_iti_callback pin)) s
     (fun res s' =>
        res = Ok tt /\
        lift_inv G r L x0 x1 sc
          (if left then S n0 else n0) (if left then n1 else S n1) s').
Proof.
  intros (HG & Hr & Hsc & evs & y0 & y1 & Hl & Hc17 & Hc18 & Hd & Hy0 & Hy1) pin.
  apply wp_bind. unfold say. apply wp_modify; cbv beta iota.
  apply wp_swallow. unfold wp.
  set (s1 := emit (EFire reset_iti_callback pin) s).
  destruct (reset_iti_callback_frame pin s1) as (Fg & Fr & Fl & Fw).
  assert (Hrec := reset_iti_callback_spec pin s1).
  split; [reflexivity|].
  destruct left; subst pin.
  - destruct (Hrec r 0 [PList (x0 ++ y0); PList (x1 ++ y1)] (x0 ++ y0))
      as (_ & _ & Hdata); [exact Hr|rewrite Hpaws; reflexivity|exact Hd|reflexivity|].
    split; [rewrite Fg; exact HG|]. split; [rewrite Fr; exact Hr|].
    split; [rewrite Fw; exact Hsc|].
    exists (evs ++ [EFire reset_iti_callback 17]), (y0 ++ [PFloat (clock (world s1))]), y1.
    rewrite !count_snoc_one. simpl fires_reset. cbv iota.
    repeat split.
    + rewrite Fl. simpl. rewrite Hl. symmetry. apply app_assoc.
    + rewrite Hc17. lia.
    + rewrite Hc18. lia.
    + rewrite Hdata, lookup_insert_eq, app_assoc. reflexivity.
    + rewrite length_app, Hy0. simpl. lia.
    + exact Hy1.
  - destruct (Hrec r 1 [PList (x0 ++ y0); PList (x1 ++ y1)] (x1 ++ y1))
      as (_ & _ & Hdata); [exact Hr|rewrite Hpaws; reflexivity|exact Hd|reflexivity|].
    split; [rewrite Fg; exact HG|]. split; [rewrite Fr; exact Hr|].
    split; [rewrite Fw; exact Hsc|].
    exists (evs ++ [EFire reset_iti_callback 18]), y0, (y1 ++ [PFloat (clock (world s1))]).
    rewrite !count_snoc_one. simpl fires_reset. cbv iota.
    repeat split.
    + rewrite Fl. simpl. rewrite Hl. symmetry. apply app_assoc.
    + rewrite Hc17. lia.
    + rewrite Hc18. lia.
    + rewrite Hdata, lookup_insert_eq, app_assoc. reflexivity.
    + exact Hy0.
    + rewrite length_app, Hy1. simpl. lia.
Qed.

Lemma falls_other pin t e pin' : pin' <> pin -> falls pin (t, Edge e pin') = false.
Proof. intros H. unfold falls. simpl. destruct e; [reflexivity|]. apply Z.eqb_neq. congruence. Qed.

(** One edge arrives: the reset callback is fired if and only if the edge is
    the falling edge of a paw pin. *)
Lemma lift_deliver sc n0 n1 t e pin s :
  lift_inv G r L x0 x1 sc n0 n1 s ->
  wp (deliver t (Edge e pin)) s (fun res s' =>
    res = Ok tt /\
    lift_inv G r L x0 x1 sc
      (n0 + if falls 17 (t, Edge e pin) then 1 else 0)
      (n1 + if falls 18 (t, Edge e pin) then 1 else 0) s').
Proof.
  intros HI. unfold deliver.
  apply wp_bind, wp_modify; cbv beta iota.
  apply wp_bind, wp_modify; cbv beta iota.
  apply wp_bind, wp_gets; cbv beta iota.
  match goal with |- wp _ ?st _ => set (s2 := st) end.
  assert (HI2 : lift_inv G r L x0 x1 sc n0 n1 s2) by exact HI.
  assert (Hg2 : gpio s2 = G) by exact (proj1 HI).
  clearbody s2. rewrite Hg2.
  destruct (decide (pin = 17)) as [->|N17]; [|destruct (decide (pin = 18)) as [->|N18]].
  - rewrite HP17. destruct e; simpl.
    + apply wp_ret. split; [reflexivity|]. rewrite !Nat.add_0_r. exact HI2.
    + eapply wp_mono; [apply (lift_fire sc n0 n1 true s2 HI2)|].
      intros res s' [-> H]. split; [reflexivity|].
      rewrite Nat.add_1_r, Nat.add_0_r. exact H.
  - rewrite HP18. destruct e; simpl.
    + apply wp_ret. split; [reflexivity|]. rewrite !Nat.add_0_r. exact HI2.
    + eapply wp_mono; [apply (lift_fire sc n0 n1 false s2 HI2)|].
      intros res s' [-> H]. split; [reflexivity|].
      rewrite Nat.add_1_r, Nat.add_0_r. exact H.
  - rewrite !falls_other, !Nat.add_0_r by congruence.
    destruct (detect G !! pin) as [[e' cb]|] eqn:E;
      [|apply wp_ret; split; [reflexivity|exact HI2]].
    pose proof (HPo pin e' cb E N17 N18) as Hcb.
    destruct (edge_eqb e e'); simpl; [|apply wp_ret; split; [reflexivity|exact HI2]].
    apply wp_bind. unfold say. apply wp_modify; cbv beta iota.
    apply wp_swallow.
    eapply wp_mono; [apply (lift_call_other sc n0 n1 cb pin Hcb)|].
    + apply lift_inv_emit; [| |exact HI2]; destruct Hcb as [-> | ->]; reflexivity.
    + intros res s' H. split; [reflexivity|exact H].
Qed.

Lemma lift_deliver_all sc l :
  sigints_of l = 0%nat ->
  forall n0 n1 s,
    lift_inv G r L x0 x1 sc n0 n1 s ->
    wp (for_each l (fun '(t, sg) => deliver t sg)) s (fun res s' =>
      res = Ok tt /\
      lift_inv G r L x0 x1 sc
        (n0 + length (List.filter (falls 17) l))
        (n1 + length (List.filter (falls 18) l)) s').
Proof.
  induction l as [|[t sg] l IH]; intros Hs n0 n1 s HI; simpl.
  - apply wp_ret. split; [reflexivity|]. rewrite !Nat.add_0_r. exact HI.
  - simpl in Hs. destruct sg as [e pin|]; [|discriminate Hs]. simpl in Hs.
    apply wp_bind. eapply wp_mono; [apply (lift_deliver sc n0 n1 t e pin s HI)|].
    intros res s1 [-> H1]. cbv beta iota.
    eapply wp_mono; [apply (IH Hs _ _ s1 H1)|].
    intros res s2 [-> H2]. split; [reflexivity|].
    destruct (falls 17 (t, Edge e pin)), (falls 18 (t, Edge e pin)); simpl length;
      rewrite <- ?Nat.add_assoc in H2; simpl in H2; rewrite ?Nat.add_0_r in H2;
      rewrite ?Nat.add_succ_r; rewrite ?Nat.add_succ_r in H2; exact H2.
Qed.

Lemma lifts_snoc pin consumed tk :
  lifts pin (consumed ++ [tk])
  = (lifts pin consumed + length (List.filter (falls pin) (fired tk)))%nat.
Proof.
  unfold lifts. rewrite map_app, concat_app, List.filter_app, length_app. simpl.
  rewrite app_nil_r. reflexivity.
Qed.

Lemma lifting_emit sc0 e s :
  fires_reset 17 e = false -> fires_reset 18 e = false ->
  lifting G r L x0 x1 sc0 s -> lifting G r L x0 x1 sc0 (emit e s).
Proof.
  intros H17 H18 (consumed & Hs & Hc & HI). exists consumed.
  split; [exact Hs|]. split; [exact Hc|]. apply lift_inv_emit; assumption.
Qed.

Ltac lifting_tac :=
  idtac;
  match goal with
  | H : lifting _ _ _ _ _ ?sc0 ?s |- lifting _ _ _ _ _ ?sc0 (emit ?e ?s) =>
      apply lifting_emit; [ reflexivity | reflexivity | exact H ]
  | H : lifting _ _ _ _ _ ?sc0 ?s |- lifting _ _ _ _ _ ?sc0 _ => exact H
  end.

Section Loop.

Context (sc0 : list tick).

(** The signals of one tick arrive. *)
#[local] Instance lifting_block d : Stable (lifting G r L x0 x1 sc0) (block d).
Proof.
  intros s (consumed & Hs & Hc & HI). unfold block.
  apply wp_bind. unfold time_time. apply wp_gets; cbv beta iota.
  apply wp_bind. unfold next_tick. apply wp_bind, wp_gets; cbv beta iota.
  destruct (script (world s)) as [|tk rest] eqn:Esc.
  - apply wp_ret; cbv beta iota. simpl for_each.
    apply wp_bind, wp_ret; cbv beta iota. apply wp_modify.
    exists consumed. st_simpl. rewrite Esc. auto.
  - apply wp_bind, wp_modify; cbv beta iota. apply wp_ret; cbv beta iota.
    simpl in Hs. apply Nat.eq_add_0 in Hs as [Hs1 Hs2].
    assert (HI1 : lift_inv G r L x0 x1 rest (lifts 17 consumed) (lifts 18 consumed)
                    (with_world (set_script rest) s)).
    { destruct HI as (HG & Hr & _ & Hrest). repeat split; assumption. }
    apply wp_bind. eapply wp_mono; [apply (lift_deliver_all rest _ Hs1 _ _ _ HI1)|].
    intros res s1 [-> H1]. cbv beta iota. apply wp_modify.
    exists (consumed ++ [tk]). rewrite !lifts_snoc.
    destruct H1 as (HG & Hr & Hsc & Hrest). st_simpl. rewrite Hsc.
    split; [exact Hs2|]. split; [rewrite Hc, <- app_assoc; reflexivity|].
    repeat split; assumption.
Qed.

Ltac go := intros ? ?; wp_auto (lifting G r L x0 x1 sc0) lifting_tac.

#[local] Instance lifting_time_sleep d : Stable (lifting G r L x0 x1 sc0) (time_sleep d).
Proof. go. Qed.

#[local] Instance lifting_wait_for_rest n :
  Stable (lifting G r L x0 x1 sc0) (Real_wait_for_rest n).
Proof. induction n as [|n IH]; simpl; go. Qed.

#[local] Instance lifting_countdown n trial_end now :
  Stable (lifting G r L x0 x1 sc0) (countdown n trial_end now).
Proof. revert now. induction n as [|n IH]; intros now; simpl; go. Qed.

#[local] Instance lifting_rest_and_count_down n :
  Stable (lifting G r L x0 x1 sc0) (rest_and_count_down n).
Proof. induction n as [|n IH]; simpl; go. Qed.

End Loop.

End Lifting.

(** ** Arming before the loop, disarming after it *)

Lemma arm_all_log {A} (f : A -> Z) e cb l : forall s s',
  for_each l (fun x => GPIO.add_event_detect (f x) e cb) s = (s', Ok tt) ->
  log s' = log s.
Proof.
  induction l as [|x l IH]; intros s s' H; simpl in H.
  - apply ret_ok in H as [_ ->]. reflexivity.
  - apply bind_ok in H as ([] & s1 & H1 & H).
    apply add_event_detect_ok in H1 as (_ & _ & ->).
    apply IH in H. exact H.
Qed.

Lemma remove_event_detect_run pin s s' :
  GPIO.remove_event_detect pin s = (s', Ok tt) ->
  s' = with_gpio (fun g =>
         mkGPIO (mode_set g) (channels g) (outputs g) (delete pin (detect g))) s.
Proof.
  unfold GPIO.remove_event_detect. intros H.
  apply bind_ok in H as ([] & s1 & Hn & H). apply numbered_ok in Hn as [_ ->].
  apply modify_ok in H. exact H.
Qed.

Lemma disarm_all_log {A} (f : A -> Z) l : forall s s',
  for_each l (fun x => GPIO.remove_event_detect (f x)) s = (s', Ok tt) ->
  log s' = log s.
Proof.
  induction l as [|x l IH]; intros s s' H; simpl in H.
  - apply ret_ok in H as [_ ->]. reflexivity.
  - apply bind_ok in H as ([] & s1 & H1 & H).
    apply remove_event_detect_run in H1. subst s1.
    apply IH in H. exact H.
Qed.

(** When the two calls that open an interval have returned on the physical
    board, the reset callback is armed on the two paw pins, and what else is
    armed is the counter of spontaneous reaches or the shaping toggle. *)
Lemma arming_ok s sa sb r :
  _rpi (session s) = Some r -> board_of r = RPiReal ->
  _button_pins r = _PIN_NUMBERS_buttons -> paw_pins r = _PIN_NUMBERS_paw_sensors ->
  (forall pin e cb, detect (gpio s) !! pin = Some (e, cb) -> cb = reverse_shaping_callback) ->
  rpi_monitor_sensors reset_iti_callback increase_spont_reaches_callback s = (sa, Ok tt) ->
  rpi_set_button_callback 0 reverse_shaping_callback sa = (sb, Ok tt) ->
  session sb = session s /\ world sb = world s /\
  log sb = log s ++ [EMonitorSensors; ESetButtonCallback 0] /\
  detect (gpio sb) !! 17 = Some (FALLING, reset_iti_callback) /\
  detect (gpio sb) !! 18 = Some (FALLING, reset_iti_callback) /\
  (forall pin e cb,
     detect (gpio sb) !! pin = Some (e, cb) -> pin <> 17 -> pin <> 18 ->
     cb = increase_spont_reaches_callback \/ cb = reverse_shaping_callback).
Proof.
  intros Hr Hb Hbt Hpw Hd0 Ha Hsb.
  unfold rpi_monitor_sensors in Ha.
  apply bind_ok in Ha as (b & s0 & Hb0 & Ha).
  apply the_board_ok in Hb0 as (r0 & Hr0 & -> & ->).
  rewrite Hr in Hr0. injection Hr0 as <-. rewrite Hb in Ha.
  apply bind_ok in Ha as ([] & s0 & Hs0 & Ha). apply modify_ok in Hs0. subst s0.
  unfold Real.monitor_sensors in Ha.
  apply bind_ok in Ha as (r0 & s0 & Hr0 & Ha). apply the_rpi_ok in Hr0 as [Hr0 ->].
  revert Hr0. st_simpl. rewrite Hr. intros [= <-].
  apply bind_ok in Ha as ([] & sp & Hp & Ht).
  pose proof (arm_all_log _ _ _ _ _ _ Hp) as Lp.
  pose proof (arm_all_log _ _ _ _ _ _ Ht) as Lt.
  apply (arm_all_ok (fun x => x)) in Hp as (As & Aw & _ & _ & _ & Ain & Aout).
  apply (arm_all_ok touch) in Ht as (Bs & Bw & _ & _ & _ & Bin & Bout).
  rewrite map_id, Hpw in Ain, Aout.
  unfold rpi_set_button_callback in Hsb.
  apply bind_ok in Hsb as (b & s0 & Hb0 & Hsb).
  apply the_board_ok in Hb0 as (r0 & Hr0 & -> & ->).
  assert (Hra : _rpi (session sa) = Some r) by (rewrite Bs, As; exact Hr).
  rewrite Hra in Hr0. injection Hr0 as <-. rewrite Hb in Hsb.
  apply bind_ok in Hsb as ([] & s0 & Hs0 & Hsb). apply modify_ok in Hs0. subst s0.
  unfold Real.set_button_callback in Hsb.
  apply bind_ok in Hsb as (r0 & s0 & Hr0 & Hsb). apply the_rpi_ok in Hr0 as [Hr0 ->].
  revert Hr0. st_simpl. rewrite Hra. intros [= <-].
  apply bind_ok in Hsb as (pin0 & s0 & Hpin & Hsb). apply some_or_ok in Hpin as [Hpin ->].
  rewrite Hbt in Hpin. injection Hpin as <-.
  apply bind_ok in Hsb as ([] & s0 & Hrem & Hadd).
  apply remove_event_detect_run in Hrem. subst s0.
  apply add_event_detect_ok in Hadd as (_ & _ & ->).
  st_simpl.
  assert (H17 : detect (gpio sa) !! 17 = Some (FALLING, reset_iti_callback)).
  { assert (Hin : 17 ∈ _PIN_NUMBERS_paw_sensors)
      by (unfold _PIN_NUMBERS_paw_sensors; rewrite !elem_of_cons; auto).
    destruct (Ain 17 Hin) as [_ Harm].
    destruct (decide (17 ∈ map touch (spouts r))) as [Ht|Ht].
    - destruct (Bin 17 Ht) as [Hnone _]. rewrite Harm in Hnone. discriminate Hnone.
    - rewrite (Bout 17 Ht). exact Harm. }
  assert (H18 : detect (gpio sa) !! 18 = Some (FALLING, reset_iti_callback)).
  { assert (Hin : 18 ∈ _PIN_NUMBERS_paw_sensors)
      by (unfold _PIN_NUMBERS_paw_sensors; rewrite !elem_of_cons; auto).
    destruct (Ain 18 Hin) as [_ Harm].
    destruct (decide (18 ∈ map touch (spouts r))) as [Ht|Ht].
    - destruct (Bin 18 Ht) as [Hnone _]. rewrite Harm in Hnone. discriminate Hnone.
    - rewrite (Bout 18 Ht). exact Harm. }
  split; [rewrite Bs, As; reflexivity|].
  split; [rewrite Bw, Aw; reflexivity|].
  split; [rewrite Lt, Lp; st_simpl; rewrite <- app_assoc; reflexivity|].
  split; [rewrite lookup_insert_ne, lookup_delete_ne by discriminate; exact H17|].
  split; [rewrite lookup_insert_ne, lookup_delete_ne by discriminate; exact H18|].
  intros pin e cb Hpin N17 N18.
  destruct (decide (pin = 4)) as [->|N4].
  { rewrite lookup_insert_eq in Hpin. injection Hpin as _ <-. right. reflexivity. }
  rewrite lookup_insert_ne, lookup_delete_ne in Hpin by congruence.
  destruct (decide (pin ∈ map touch (spouts r))) as [Ht|Ht].
  { destruct (Bin pin Ht) as [_ Harm]. rewrite Harm in Hpin.
    injection Hpin as _ <-. left. reflexivity. }
  rewrite (Bout pin Ht) in Hpin.
  assert (Hnp : pin ∉ _PIN_NUMBERS_paw_sensors).
  { unfold _PIN_NUMBERS_paw_sensors. rewrite !not_elem_of_cons.
    repeat split; try assumption. apply not_elem_of_nil. }
  rewrite (Aout pin Hnp) in Hpin. right. exact (Hd0 pin e cb Hpin).
Qed.

Lemma rpi_disable_sensors_ok s s' :
  rpi_disable_sensors s = (s', Ok tt) ->
  session s' = session s /\ world s' = world s /\ log s' = log s ++ [EDisableSensors].
Proof.
  unfold rpi_disable_sensors. intros H.
  apply bind_ok in H as (b & s0 & Hb0 & H).
  apply the_board_ok in Hb0 as (r0 & Hr0 & -> & ->).
  apply bind_ok in H as ([] & s0 & Hs0 & H). apply modify_ok in Hs0. subst s0.
  destruct (board_of r0).
  - unfold Real.disable_sensors in H.
    apply bind_ok in H as (r1 & s0 & Hr1 & H). apply the_rpi_ok in Hr1 as [_ ->].
    apply bind_ok in H as ([] & sp & Hp & Ht).
    pose proof (disarm_all_log _ _ _ _ Hp) as Lp.
    pose proof (disarm_all_log _ _ _ _ Ht) as Lt.
    apply (disarm_all_ok (fun x => x)) in Hp as (As & Aw & _).
    apply (disarm_all_ok touch) in Ht as (Bs & Bw & _).
    split; [rewrite Bs, As; reflexivity|].
    split; [rewrite Bw, Aw; reflexivity|].
    rewrite Lt, Lp. reflexivity.
  - apply ret_ok in H as [_ ->]. repeat split.
Qed.

Lemma inter_trial_interval_lifts n s s' body :
  _inter_trial_interval n s = (s', Ok tt) ->
  log s' = log s ++ body ++ [EDisableSensors] ->
  lifts_recorded s s' body.
Proof.
  intros H Hbody r x0 x1 Hr Hb Hbt Hpw Hd0 Hsig Hdata.
  unfold _inter_trial_interval in H.
  apply bind_ok in H as ([] & sa & Ha & H).
  apply bind_ok in H as ([] & sb & Hsb & H).
  destruct (arming_ok s sa sb r Hr Hb Hbt Hpw Hd0 Ha Hsb) as (Ss & Sw & Sl & S17 & S18 & So).
  apply bind_ok in H as (sh & s0 & Hsh & H). apply data_get_ok in Hsh as [_ ->].
  apply bind_ok in H as ([] & sc & Hsc & H). apply modify_ok in Hsc.
  apply bind_ok in H as ([] & sd & Hloop & Hdis).
  assert (HL : lifting (gpio sb) r (log sb) x0 x1 (script (world s)) sc).
  { subst sc. exists []. st_simpl. rewrite Sw.
    split; [exact Hsig|]. split; [reflexivity|].
    split; [reflexivity|]. split; [st_simpl; rewrite Ss; exact Hr|].
    split; [st_simpl; rewrite Sw; reflexivity|].
    exists [], [], []. rewrite !app_nil_r. st_simpl. rewrite Ss. repeat split. exact Hdata. }
  pose proof (lifting_rest_and_count_down (gpio sb) r (log sb) x0 x1 S17 S18 So Hpw
                (script (world s)) n) as Hst.
  apply (stable_keeps _ _ _ _ _ Hst HL) in Hloop.
  destruct Hloop as (consumed & _ & Hc & _ & _ & _ & evs & y0 & y1 & Hl & H17 & H18 & Hd
                     & Hy0 & Hy1).
  apply rpi_disable_sensors_ok in Hdis as (Ds & Dw & Dl).
  assert (Hb' : body = [EMonitorSensors; ESetButtonCallback 0] ++ evs).
  { rewrite Dl, Hl, Sl, <- !app_assoc in Hbody. apply app_inv_head in Hbody.
    change ([EMonitorSensors; ESetButtonCallback 0] ++ evs ++ [EDisableSensors])
      with (([EMonitorSensors; ESetButtonCallback 0] ++ evs) ++ [EDisableSensors]) in Hbody.
    apply app_inj_tail in Hbody as [Hbody _]. symmetry. exact Hbody. }
  exists consumed, y0, y1. rewrite Dw, Ds. subst body.
  rewrite !count_app.
  change (count (fires_reset 17) [EMonitorSensors; ESetButtonCallback 0]) with 0%nat.
  change (count (fires_reset 18) [EMonitorSensors; ESetButtonCallback 0]) with 0%nat.
  repeat split; assumption.
Qed.

(** C8: an inter-trial interval that [_inter_trial_interval] returns from has
    logged, since it began, a body in which [disable_sensors] is not called,
    followed by exactly one call of [disable_sensors] at the exit.  Every
    count-down of the body uses up one draw of the source of random numbers,
    in turn, and lasts what [random.uniform] makes of that draw and the two
    entries of [data['iti']], in milliseconds: the lower entry plus the
    fraction of the draw times the difference (so between the entries when
    they are in order, exactly that value when they are equal).  The body
    ends counting down to a dead line that has passed, not broken by the reset
    callback since that count-down began (a reset fired during a count-down
    leaves it broken until the next wait for rest), with [_iti_broken] down.
    On the physical board with the pins of the pin table, when nothing but the
    shaping toggle is armed at the start and no SIGINT arrives, every falling
    edge of a paw pin that the library detects during the interval fires the
    reset callback, once, and adds one entry to the list of that paw in
    [data['resets_timepoints']].  And the reset callback raises [_iti_broken]
    and appends the clock's reading, once, to the list of the paw that
    lifted. *)
Theorem inter_trial_interval_exits_after_unbroken_countdown (n : nat) (s s' : St) :
  _inter_trial_interval n s = (s', Ok tt) ->
  iti_record s s' /\
  forall pin s0, lift_recorded pin s0 (fst (_reset_iti_callback pin s0)).
Proof.
  intros H. split; [|intros pin s0; apply reset_iti_callback_spec].
  destruct (wp_run _ _ _ _ _ H (inter_trial_interval_spec n s) eq_refl)
    as (body & deadline & Hl & Hdis & Hdr & Hbd & Hph & Hdl & Hf).
  destruct (wp_run _ _ _ _ _ H (inter_trial_interval_rolled n s))
    as (evs & Hl2 & Hen & Hturn).
  assert (Hevs : evs = body ++ [EDisableSensors]).
  { rewrite Hl in Hl2. apply app_inv_head in Hl2. symmetry. exact Hl2. }
  subst evs. rewrite durations_app in Hen, Hturn. simpl in Hen, Hturn.
  rewrite app_nil_r in Hen, Hturn.
  exists body, deadline.
  do 7 (split; [assumption|]). split; [exact Hen|]. split.
  - unfold drawn_in_turn in Hturn.
    destruct (iti_bounds (data (session s) !! "iti")) as [[qa qb]|] eqn:Eb.
    + exists qa, qb. split; [reflexivity|exact Hturn].
    + exfalso. apply (no_duration_no_countdown body WaitingForRest Hturn) with deadline;
        [discriminate|exact Hph].
  - apply (inter_trial_interval_lifts n s s' body H Hl).
Qed.

(** A two-spout box at rest, interval of 40 ms: the left paw lifts 10 ms into
    the first count-down and comes back; the second count-down runs out.  The
    lift is recorded. *)
Lemma inter_trial_interval_exits_after_unbroken_countdown_witness :
  let s := Demo.at_rest Demo.lift_and_return in
  let s' := fst (_inter_trial_interval 100 s) in
  (iti_record s s' /\
   forall pin s0, lift_recorded pin s0 (fst (_reset_iti_callback pin s0))) /\
  (exists consumed y0 y1,
     script (world s) = consumed ++ script (world s') /\
     data (session s') !! "resets_timepoints" = Some (PList [PList y0; PList y1]) /\
     length y0 = lifts 17 consumed /\ length y1 = lifts 18 consumed) /\
  data (session s') !! "resets_timepoints"
  = Some (PList [PList [PFloat (100001 # 100)]; PList []]).
Proof.
  intros s s'.
  assert (Hrun : _inter_trial_interval 100 s = (s', Ok tt)) by (vm_compute; reflexivity).
  pose proof (inter_trial_interval_exits_after_unbroken_countdown 100 s s' Hrun) as HT.
  split; [exact HT|]. split; [|vm_compute; reflexivity].
  destruct HT as [(body & deadline & _ & _ & _ & _ & _ & _ & _ & _ & _ & Hlift) _].
  destruct (Hlift (mkRPi RPiReal [4; 13] [17; 18]
                     [mkSpout 5 27 25 [] []; mkSpout 22 23 24 [] []] [[]; []] []) [] [])
    as (consumed & y0 & y1 & Hc & _ & _ & Hd & Hy0 & Hy1);
    try (vm_compute; reflexivity).
  - intros pin e cb Hp. exfalso. revert Hp.
    assert (E : detect (gpio s) = ∅) by (vm_compute; reflexivity).
    rewrite E, lookup_empty. discriminate.
  - exists consumed, y0, y1. auto.
Defined.

(** * The mock board handles no hardware *)

Lemma mock_only_update g f s :
  (forall r, board_of (f r) = board_of r) ->
  mock_only g s ->
  mock_only g (with_session (fun x => set_rpi (option_map f (_rpi x)) x) s).
Proof.
  intros Hf (H1 & H2 & H3). split; [exact H1|]. split; [|exact H3].
  st_simpl. intros r Hr. destruct (_rpi (session s)) as [r0|]; [|discriminate Hr].
  simpl in Hr. injection Hr as <-. rewrite Hf. apply H2. reflexivity.
Qed.

(** [mock_only g] of a state after one assignment; a branch for the physical
    board is not taken. *)
Ltac mock_tac :=
  idtac;
  match goal with
  | H : mock_only ?g ?s, E : _rpi (session ?s) = Some ?r, B : board_of ?r = RPiReal |- _ =>
      exfalso; destruct H as (_ & H & _); specialize (H r E); congruence
  | H : mock_only ?g ?s
    |- mock_only ?g (with_session (fun y => set_rpi (option_map _ _) y) ?s) =>
      apply mock_only_update; [ intros; reflexivity | exact H ]
  | H : mock_only ?g ?s |- mock_only ?g _ => exact H
  end.

Ltac mock_auto g := intros ? ?; wp_auto (mock_only g) mock_tac.

Section MockBoard.

Context (g : GPIO).

#[local] Instance mock_collate_spouts idx l acc : Stable (mock_only g) (collate_spouts idx l acc).
Proof. revert idx acc. induction l as [|p l IH]; intros idx acc; simpl; mock_auto g. Qed.

#[local] Instance mock_call cb pin : Stable (mock_only g) (call cb pin).
Proof. destruct cb; mock_auto g. Qed.

#[local] Instance mock_handle_sigint : Stable (mock_only g) handle_sigint.
Proof. mock_auto g. Qed.

#[local] Instance mock_deliver t sg : Stable (mock_only g) (deliver t sg).
Proof.
  intros s HI. unfold deliver.
  wp_cut (mock_only g); [apply wp_modify; mock_tac| |assumption].
  destruct sg as [e pin|]; [|apply mock_handle_sigint; assumption].
  wp_cut (mock_only g); [apply wp_modify; mock_tac| |assumption].
  apply wp_bind, wp_gets; cbv beta iota.
  destruct (detect (gpio _) !! pin) as [[e' cb]|]; [|assumption].
  apply wp_when. destruct (edge_eqb e e'); [|assumption].
  wp_cut (mock_only g); [apply wp_modify; mock_tac| |assumption].
  apply wp_swallow. apply mock_call; assumption.
Qed.

#[local] Instance mock_block d : Stable (mock_only g) (block d).
Proof. mock_auto g. Qed.

#[local] Instance mock_time_sleep d : Stable (mock_only g) (time_sleep d).
Proof. mock_auto g. Qed.

#[local] Instance mock_wait_for_edge n pin e : Stable (mock_only g) (GPIO_wait_for_edge n pin e).
Proof. revert pin e. induction n as [|n IH]; intros pin e; simpl; mock_auto g. Qed.

#[local] Instance mock_wait_for_rest n : Stable (mock_only g) (Real_wait_for_rest n).
Proof. induction n as [|n IH]; simpl; mock_auto g. Qed.

#[local] Instance mock_countdown n trial_end now : Stable (mock_only g) (countdown n trial_end now).
Proof. revert now. induction n as [|n IH]; intros now; simpl; mock_auto g. Qed.

#[local] Instance mock_rest_and_count_down n : Stable (mock_only g) (rest_and_count_down n).
Proof. induction n as [|n IH]; simpl; mock_auto g. Qed.

#[local] Instance mock_await_outcome n cue_end now : Stable (mock_only g) (await_outcome n cue_end now).
Proof. revert now. induction n as [|n IH]; intros now; simpl; mock_auto g. Qed.

#[local] Instance mock_trials n fuel trial_count now : Stable (mock_only g) (trials n fuel trial_count now).
Proof.
  revert trial_count now. induction n as [|n IH]; intros trial_count now; simpl; mock_auto g.
Qed.

Lemma mock_RPi c : stable (mock_only g) (_RPi c).
Proof.
  intros s HI. unfold _RPi.
  apply wp_bind, wp_gets; cbv beta iota.
  destruct HI as (H1 & H2 & H3). rewrite H3.
  wp_cut (mock_only g); [apply wp_modify; repeat split; assumption| |assumption].
  apply wp_bind. eapply (wp_mono _ _ (fun _ s' => mock_only g s'));
    [wp_auto (mock_only g) mock_tac|].
  intros [sp|e] s1 HI1; cbv beta iota; [|assumption].
  wp_cut (mock_only g); [| |assumption].
  { apply wp_modify. destruct HI1 as (G1 & G2 & G3). split; [exact G1|]. split; [|exact G3].
    st_simpl. intros r [= <-]. reflexivity. }
  wp_auto (mock_only g) mock_tac.
Qed.

Lemma mock_run fuel config : stable (mock_only g) (run fuel config).
Proof.
  intros s HI. unfold run.
  wp_auto_to _RPi (mock_only g) mock_tac.
  wp_cut (mock_only g); [apply mock_RPi; assumption| |assumption].
  wp_auto (mock_only g) mock_tac.
Qed.

End MockBoard.

(** Away from a Raspberry Pi a whole session, however it ends, leaves the
    pins as they were: the board that [run] builds there is the mock, and no
    method of the mock calls the GPIO library. *)
Theorem mock_session_leaves_pins_alone (fuel : nat) (config d : gmap string pyval)
    (w : World) :
  is_raspberry_pi w = false ->
  gpio (fst (run fuel config (boot d w))) = gpio (boot d w).
Proof.
  intros Hw.
  assert (HI : mock_only (gpio (boot d w)) (boot d w)).
  { split; [reflexivity|]. split; [|exact Hw]. intros r Hr. discriminate Hr. }
  exact (proj1 (mock_run (gpio (boot d w)) fuel config _ HI)).
Qed.

(** The session of two seconds at a desk. *)
Lemma mock_session_leaves_pins_alone_witness :
  gpio (fst (run 100 (Demo.config 1 2 40 40 false) (boot ∅ (Demo.desk []))))
  = gpio (boot ∅ (Demo.desk [])).
Proof. apply mock_session_leaves_pins_alone. reflexivity. Defined.

(** * Reaction times *)

Lemma extend_all_floats ls : forall acc s,
  extend_all (map floats ls) acc s = (s, Ok (acc ++ map PFloat (concat ls))).
Proof.
  induction ls as [|l ls IH]; intros acc s; simpl.
  - rewrite app_nil_r. reflexivity.
  - unfold bind. simpl. rewrite IH, map_app, app_assoc. reflexivity.
Qed.

Lemma map_sub_floats xs : forall ys s,
  map_sub (map PFloat xs) (map PFloat ys) s = (s, Ok (map PFloat (differences xs ys))).
Proof.
  induction xs as [|x xs IH]; intros [|y ys] s; simpl; try reflexivity.
  unfold bind. simpl. rewrite IH. reflexivity.
Qed.

Lemma length_differences xs : forall ys,
  length (differences xs ys) = Nat.min (length xs) (length ys).
Proof. induction xs as [|x xs IH]; intros [|y ys]; simpl; auto. Qed.

Lemma reaction_times_floats s touches cues :
  float_lists "touch_timepoints" touches s ->
  float_lists "cue_timepoints" cues s ->
  reaction_times s
  = (s, Ok (map PFloat (differences (concat touches) (concat cues)))).
Proof.
  intros Ht Hc. unfold float_lists in *. unfold reaction_times.
  assert (Hgt : data_get "touch_timepoints" s = (s, Ok (PList (map floats touches))))
    by (unfold data_get, the_data, bind, gets; simpl; rewrite Ht; reflexivity).
  assert (Hgc : data_get "cue_timepoints" s = (s, Ok (PList (map floats cues))))
    by (unfold data_get, the_data, bind, gets; simpl; rewrite Hc; reflexivity).
  rewrite (bind_run _ _ _ _ _ Hgt). simpl list_of.
  rewrite (bind_run _ _ s s (map floats touches) eq_refl).
  rewrite (bind_run _ _ _ _ _ (extend_all_floats touches [] s)).
  rewrite (bind_run _ _ _ _ _ Hgc). simpl list_of.
  rewrite (bind_run _ _ s s (map floats cues) eq_refl).
  rewrite (bind_run _ _ _ _ _ (extend_all_floats cues [] s)).
  simpl app. apply map_sub_floats.
Qed.

(** On a record whose touch and cue timepoints are lists of lists of numbers,
    [reaction_times] returns, changing nothing, the differences of the two
    flattened lists taken position by position, as many as the shorter of the
    two has: the lists of the spouts are joined end to end before they are
    paired. *)
Theorem reaction_times_pairs_flattened_lists (s : St) (touches cues : list (list Q)) :
  float_lists "touch_timepoints" touches s ->
  float_lists "cue_timepoints" cues s ->
  reaction_times s
  = (s, Ok (map PFloat (differences (concat touches) (concat cues)))) /\
  length (differences (concat touches) (concat cues))
  = Nat.min (length (concat touches)) (length (concat cues)).
Proof.
  intros Ht Hc. split; [apply reaction_times_floats; assumption|].
  apply length_differences.
Qed.

(** Two spouts: the left one cued at 10 s and 30 s and touched at 31 s, the
    right one cued at 20 s and touched at 21 s. *)
Lemma reaction_times_pairs_flattened_lists_witness :
  let s := boot (<["touch_timepoints" := PList [floats [31%Q]; floats [21%Q]]]>
                   (<["cue_timepoints" := PList [floats [10%Q; 30%Q]; floats [20%Q]]]> ∅))
             (Demo.desk []) in
  reaction_times s = (s, Ok [PFloat (31 - 10); PFloat (21 - 30)]) /\
  length (differences [31%Q; 21%Q] [10%Q; 30%Q; 20%Q]) = 2%nat.
Proof.
  apply (reaction_times_pairs_flattened_lists _ [[31%Q]; [21%Q]] [[10%Q; 30%Q]; [20%Q]]);
    reflexivity.
Defined.

(** ** From the session to its reaction times *)

Lemma float_lists_set k k' v ls s :
  k' <> k ->
  float_lists k ls s ->
  float_lists k ls (with_session (fun x => set_data (<[k' := v]> (data x)) x) s).
Proof.
  intros Hk H. unfold float_lists in *. st_simpl.
  rewrite lookup_insert_ne by exact Hk. exact H.
Qed.

Lemma map_floats_snoc ls l : map floats ls ++ [floats l] = map floats (ls ++ [l]).
Proof. rewrite map_app. reflexivity. Qed.

(** Each round of the loop of [_collate_data] appends the cue and touch
    timepoints of its spout. *)
Lemma collate_spouts_float_lists l : forall idx acc s s' acc' cues touches,
  collate_spouts idx l acc s = (s', Ok acc') ->
  float_lists "cue_timepoints" cues s ->
  float_lists "touch_timepoints" touches s ->
  float_lists "cue_timepoints" (cues ++ map cue_timepoints l) s' /\
  float_lists "touch_timepoints" (touches ++ map touch_timepoints l) s'.
Proof.
  induction l as [|p l IH]; intros idx acc s s' acc' cues touches H Hc Ht; simpl in H.
  - inv_ok H. rewrite !app_nil_r. auto.
  - apply bind_ok in H as (acc1 & s1 & H1 & H).
    simpl map. rewrite !(cons_middle _ _ (map _ l)), !app_assoc.
    apply (IH _ _ _ _ _ _ _ H); clear H IH.
    all: unfold collate_spout in H1; inv_ok H1.
    all: unfold float_lists in Hc, Ht.
    all: repeat match goal with
           | Hd : data _ !! "cue_timepoints" = Some (PList _) |- _ =>
               revert Hd; st_simpl; rewrite ?lookup_insert_ne by discriminate;
               rewrite Hc; intros [= <-]
           | Hd : data _ !! "touch_timepoints" = Some (PList _) |- _ =>
               revert Hd; st_simpl; rewrite ?lookup_insert_ne by discriminate;
               rewrite Ht; intros [= <-]
           end.
    + apply float_lists_set; [discriminate|]. unfold float_lists. st_simpl.
      rewrite lookup_insert_eq, map_floats_snoc. reflexivity.
    + unfold float_lists. st_simpl.
      rewrite lookup_insert_eq, map_floats_snoc. reflexivity.
Qed.

(** When the collation returns, [data] holds the cue and touch timepoints of
    the spouts of the board, spout by spout. *)
Lemma collate_data_float_lists manual s s' r :
  _rpi (session s) = Some r ->
  _collate_data manual s = (s', Ok tt) ->
  float_lists "cue_timepoints" (map cue_timepoints (spouts r)) s' /\
  float_lists "touch_timepoints" (map touch_timepoints (spouts r)) s'.
Proof.
  intros Hr H. unfold _collate_data in H.
  apply bind_ok in H as ([] & s0 & Hs & H). apply modify_ok in Hs. subst s0.
  apply bind_ok in H as ([] & s1 & Hwhen & H).
  assert (HK : counted (Some r) (_reward_count (session s)) s1).
  { destruct manual; [|apply ret_ok in Hwhen as [_ ->]; split; [exact Hr|reflexivity]].
    refine (stable_keeps (counted (Some r) _) _ _ _ _ _ _ Hwhen);
      [|split; [exact Hr|reflexivity]].
    intros ? ?. wp_auto (counted (Some r) (_reward_count (session s))) counted_tac. }
  clear Hwhen.
  apply bind_ok in H as ([] & s2 & Hcue & H). apply modify_ok in Hcue.
  apply bind_ok in H as ([] & s3 & Htouch & H). apply modify_ok in Htouch.
  apply bind_ok in H as (r' & s4 & Hr' & H). apply the_rpi_ok in Hr' as [Hr' ->].
  assert (r' = r).
  { subst s3 s2. destruct HK as [HK _]. revert Hr'. st_simpl. rewrite HK.
    intros E. injection E as E. symmetry. exact E. }
  subst r'.
  apply bind_ok in H as (acc & s5 & Hloop & H).
  assert (Hc3 : float_lists "cue_timepoints" [] s3).
  { subst s3 s2. apply float_lists_set; [discriminate|]. unfold float_lists. st_simpl.
    apply lookup_insert_eq. }
  assert (Ht3 : float_lists "touch_timepoints" [] s3).
  { subst s3. unfold float_lists. st_simpl. apply lookup_insert_eq. }
  destruct (collate_spouts_float_lists _ _ _ _ _ _ _ _ Hloop Hc3 Ht3) as [Hc5 Ht5].
  simpl in Hc5, Ht5. clear Hloop Hcue Htouch.
  inv_ok H.
  repeat match goal with
         | Hs : seconds_of _ _ = (_, Ok _) |- _ => apply seconds_of_ok in Hs; subst
         end.
  split; repeat (apply float_lists_set; [discriminate|]); assumption.
Qed.

Lemma end_session_float_lists manual s s' :
  _end_session manual s = (s', Ok tt) ->
  exists r,
    _rpi (session s') = Some r /\
    float_lists "cue_timepoints" (map cue_timepoints (spouts r)) s' /\
    float_lists "touch_timepoints" (map touch_timepoints (spouts r)) s'.
Proof.
  intros H. unfold _end_session in H.
  apply bind_ok in H as ([] & s1 & H1 & H).
  apply rpi_cleanup_ok in H1 as (r & Hr & [HC1 _] & HL1 & _).
  apply bind_ok in H as ([] & s2 & H2 & H).
  pose proof (collate_data_ok _ _ _ _ _ _ (conj HC1 eq_refl) HL1 H2) as ([HC2 _] & _ & Hcue).
  apply (collate_data_float_lists _ _ _ _ HC1) in H2 as [Hc Ht].
  apply bind_ok in H as ([] & s3 & H3 & H).
  apply (display_training_results_ok _ _ _ Hcue) in H3 as [_ ->].
  apply modify_ok in H. subst s'.
  exists r. auto.
Qed.

Lemma run_ends_with_end_session fuel config s s' :
  run fuel config s = (s', Ok tt) -> exists s1, _end_session false s1 = (s', Ok tt).
Proof.
  unfold run. intros H.
  do 19 (apply bind_ok in H as (? & ? & _ & H)). eauto.
Qed.

(** What a session has saved can be read back: when [run] returns,
    [reaction_times] returns on the session's data, and it pairs the touches
    of the board's spouts, joined end to end, with their cues, joined end to
    end. *)
Theorem run_record_has_reaction_times (fuel : nat) (config : gmap string pyval) (s : St) :
  snd (run fuel config s) = Ok tt ->
  let s' := fst (run fuel config s) in
  exists r,
    _rpi (session s') = Some r /\
    reaction_times s'
    = (s', Ok (map PFloat (differences (concat (map touch_timepoints (spouts r)))
                                       (concat (map cue_timepoints (spouts r)))))).
Proof.
  intros Hok. destruct (run fuel config s) as [s' res] eqn:H. simpl in Hok. subst res. simpl.
  apply run_ends_with_end_session in H as [s1 H].
  apply end_session_float_lists in H as (r & Hr & Hc & Ht).
  exists r. split; [exact Hr|].
  apply (reaction_times_floats s' _ _ Ht Hc).
Qed.

(** The session of a tenth of a second on a box with one spout, whose one
    trial is rewarded. *)
Lemma run_record_has_reaction_times_witness :
  let s' := fst (run 100 (Demo.config 1 (1 # 10) 40 40 false)
                   (boot ∅ (Demo.box Demo.one_reach))) in
  exists r,
    _rpi (session s') = Some r /\
    reaction_times s'
    = (s', Ok (map PFloat (differences (concat (map touch_timepoints (spouts r)))
                                       (concat (map cue_timepoints (spouts r)))))).
Proof.
  apply (run_record_has_reaction_times 100). vm_compute; reflexivity.
Defined.

(** * The spontaneous reaches in the collated record *)

Lemma map_snd_zip {A B} (l : list A) (k : list B) :
  map snd (zip l k) = take (length l) k.
Proof.
  revert k. induction l as [|a l IH]; intros [|b k]; simpl; try reflexivity.
  rewrite IH. reflexivity.
Qed.

Lemma filter_const {A} (b : bool) (l : list A) :
  List.filter (fun _ => b) l = if b then l else [].
Proof. induction l as [|a l IH]; destruct b; simpl in *; congruence. Qed.

(** One round of the loop of [_collate_data]: the timepoints are added to the
    entry of the spout whatever sensor they came from, unless the spout is
    spout 0. *)
Lemma collate_spout_spont idx p acc s s' acc' tps :
  collate_spout idx p acc s = (s', Ok acc') ->
  data (session s) !! "spont_reach_timepoints" = Some (PList tps) ->
  data (session s') !! "spont_reach_timepoints" = Some (PList tps) /\
  length (spont_reach_spouts (session s')) = length (spont_reach_spouts (session s)) /\
  exists mine, py_nth acc idx = Some mine /\
    acc' = py_set_nth acc idx
             (mine ++ if idx =? 0 then []
                      else take (length (spont_reach_spouts (session s))) tps).
Proof.
  intros H Ht. unfold collate_spout in H.
  apply bind_ok in H as ([] & s1 & H1 & H). apply modify_ok in H1. subst s1.
  apply bind_ok in H as (x & s1 & H1 & H). apply gets_ok in H1 as [-> ->].
  apply bind_ok in H as (mine & s1 & H1 & H). apply some_or_ok in H1 as [Hmine ->].
  apply bind_ok in H as (v & s1 & H1 & H). apply data_get_ok in H1 as [Hv ->].
  revert Hv. st_simpl. rewrite Ht. intros [= <-].
  apply bind_ok in H as (l & s1 & H1 & H). apply list_of_ok in H1 as [[= <-] ->].
  inv_ok H.
  split; [st_simpl; rewrite !lookup_insert_ne by discriminate; exact Ht|].
  split; [st_simpl; apply length_map|].
  exists mine. split; [exact Hmine|].
  st_simpl. rewrite filter_const. cbn [truthy].
  destruct (idx =? 0); simpl; [reflexivity|].
  rewrite map_snd_zip, length_map. reflexivity.
Qed.

Lemma collate_spouts_spont l s s' acc' tps :
  collate_spouts 0 l [[]; []] s = (s', Ok acc') ->
  data (session s) !! "spont_reach_timepoints" = Some (PList tps) ->
  acc' = [[]; if (length l =? 2)%nat
               then take (length (spont_reach_spouts (session s))) tps else []].
Proof.
  intros H Ht.
  destruct l as [|p0 l]; simpl in H; [inv_ok H; reflexivity|].
  apply bind_ok in H as (acc1 & s1 & H1 & H).
  apply (collate_spout_spont _ _ _ _ _ _ tps) in H1 as (Ht1 & Hn1 & mine & Hm & ->);
    [|exact Ht].
  injection Hm as <-. cbn in H.
  destruct l as [|p1 l]; simpl in H; [inv_ok H; reflexivity|].
  apply bind_ok in H as (acc2 & s2 & H2 & H).
  apply (collate_spout_spont _ _ _ _ _ _ tps) in H2 as (Ht2 & Hn2 & mine & Hm & ->);
    [|exact Ht1].
  injection Hm as <-. cbn in H. rewrite Hn1 in H.
  destruct l as [|p2 l]; simpl in H; [inv_ok H; reflexivity|].
  apply bind_ok in H as (acc3 & s3 & H3 & H).
  apply (collate_spout_spont _ _ _ _ _ _ tps) in H3 as (_ & _ & mine & Hm & _);
    [|exact Ht2].
  discriminate Hm.
Qed.

(** [_collate_data] does not sort the spontaneous reaches by spout: when it
    returns, [data['spont_reach_timepoints']] has an empty list for spout 0,
    whatever sensors were touched, and for spout 1 all the timepoints recorded
    (as many as sensors were recorded) if the board has two spouts, and none
    if it has one. *)
Theorem collate_data_files_spont_reaches_under_spout_1 (manual : bool) (s : St) (r : RPi)
    (tps : list pyval) :
  _rpi (session s) = Some r ->
  data (session s) !! "spont_reach_timepoints" = Some (PList tps) ->
  snd (_collate_data manual s) = Ok tt ->
  data (session (fst (_collate_data manual s))) !! "spont_reach_timepoints" =
    Some (PList [PList [];
                 PList (if (length (spouts r) =? 2)%nat
                        then take (length (spont_reach_spouts (session s))) tps
                        else [])]).
Proof.
  intros Hr Ht Hok.
  destruct (_collate_data manual s) as [s' res] eqn:H. simpl in Hok. subst res.
  cbn [fst]. unfold _collate_data in H.
  apply bind_ok in H as ([] & s0 & Hs & H). apply modify_ok in Hs. subst s0.
  apply bind_ok in H as ([] & s1 & Hwhen & H).
  assert (H1 : _rpi (session s1) = Some r /\
               data (session s1) !! "spont_reach_timepoints" = Some (PList tps) /\
               spont_reach_spouts (session s1) = spont_reach_spouts (session s)).
  { apply when_ok in Hwhen as [[_ Hw]|[_ ->]]; [|auto].
    inv_ok Hw. st_simpl. rewrite !lookup_insert_ne by discriminate. auto. }
  destruct H1 as (Hr1 & Ht1 & Hsp1). clear Hwhen.
  apply bind_ok in H as ([] & s2 & Hcue & H). apply modify_ok in Hcue. subst s2.
  apply bind_ok in H as ([] & s2 & Htouch & H). apply modify_ok in Htouch. subst s2.
  apply bind_ok in H as (r' & s2 & Hr' & H). apply the_rpi_ok in Hr' as [Hr' ->].
  revert Hr'. st_simpl. rewrite Hr1. intros [= <-].
  apply bind_ok in H as (acc & s2 & Hloop & H).
  apply (collate_spouts_spont _ _ _ _ tps) in Hloop;
    [|st_simpl; rewrite !lookup_insert_ne by discriminate; exact Ht1].
  revert Hloop. st_simpl. rewrite Hsp1. intros ->.
  inv_ok H.
  repeat match goal with
         | Hs : seconds_of _ _ = (_, Ok _) |- _ => apply seconds_of_ok in Hs; subst
         end.
  st_simpl. rewrite !lookup_insert_ne by discriminate. rewrite lookup_insert_eq.
  reflexivity.
Qed.

(** Two spontaneous reaches, the first at spout 0 (sensor 27), the second at
    spout 1 (sensor 23): both are filed under spout 1. *)
Lemma collate_data_files_spont_reaches_under_spout_1_witness :
  let s := with_session (fun x =>
             set_spont_reach_spouts [27; 23]
               (set_data (<["spont_reach_timepoints" := PList [PFloat 1001; PFloat 1002]]>
                            (<["start_time" := PFloat 1000]>
                               (<["end_time" := PFloat 1003]> (data x)))) x))
             (Demo.in_trial 2 0) in
  data (session (fst (_collate_data false s))) !! "spont_reach_timepoints" =
    Some (PList [PList []; PList [PFloat 1001; PFloat 1002]]).
Proof.
  intros s.
  destruct (_rpi (session s)) as [r|] eqn:Hr; [|discriminate Hr].
  assert (Hlen : length (spouts r) = 2%nat) by (injection Hr as <-; reflexivity).
  rewrite (collate_data_files_spont_reaches_under_spout_1 false s r
             [PFloat 1001; PFloat 1002] Hr);
    [rewrite Hlen; reflexivity|reflexivity|vm_compute; reflexivity].
Defined.

(** * The reward counter and the successes announced *)

Lemma shown_snoc n evs e :
  shown n evs ->
  (forall t c, e = EResults t c -> c = n + Z.of_nat (count is_success evs)) ->
  shown n (evs ++ [e]).
Proof.
  intros H He pre t c post E.
  destruct post as [|x post _] using rev_ind.
  - apply app_inj_tail in E as [-> E]. apply (He t c E).
  - change (pre ++ EResults t c :: post ++ [x])
      with (pre ++ (EResults t c :: post) ++ [x]) in E.
    rewrite app_assoc in E. apply app_inj_tail in E as [E _].
    apply (H pre t c post E).
Qed.

Lemma tallied_refl n s : _reward_count (session s) = n -> tallied (log s) n s.
Proof.
  intros <-. exists []. split; [symmetry; apply app_nil_r|]. split; [unfold count; simpl; lia|].
  intros [|? ?] ? ? ? E; discriminate E.
Qed.

(** An event that is neither a success nor a summary. *)
Lemma tallied_emit L n e s :
  is_success e = false -> (forall t c, e <> EResults t c) ->
  tallied L n s -> tallied L n (emit e s).
Proof.
  intros He Hr (evs & Hl & Hn & Hs). exists (evs ++ [e]). split; [|split].
  - simpl. rewrite Hl. symmetry. apply app_assoc.
  - st_simpl. rewrite count_app, Hn. unfold count. simpl. rewrite He. simpl. lia.
  - apply shown_snoc; [exact Hs|]. intros t c E. destruct (Hr t c E).
Qed.

(** The summary shows the counter. *)
Lemma tallied_results L n t s :
  tallied L n s -> tallied L n (emit (EResults t (_reward_count (session s))) s).
Proof.
  intros (evs & Hl & Hn & Hs). exists (evs ++ [EResults t (_reward_count (session s))]).
  split; [|split].
  - simpl. rewrite Hl. symmetry. apply app_assoc.
  - st_simpl. rewrite count_app, Hn. unfold count. simpl. lia.
  - apply shown_snoc; [exact Hs|]. intros t' c [= _ <-]. exact Hn.
Qed.

(** A success is announced and counted. *)
Lemma tallied_success L n s :
  tallied L n s ->
  tallied L n (with_session (fun x => set_reward_count (_reward_count x + 1) x)
                 (emit (EPrint "Successful reach!") s)).
Proof.
  intros (evs & Hl & Hn & Hs). exists (evs ++ [EPrint "Successful reach!"]).
  split; [|split].
  - simpl. rewrite Hl. symmetry. apply app_assoc.
  - st_simpl. rewrite count_app, Hn. unfold count. simpl. lia.
  - apply shown_snoc; [exact Hs|]. intros t c E. discriminate E.
Qed.

(** [tallied L n] of a state after one assignment. *)
Ltac tallied_tac :=
  idtac;
  match goal with
  | H : tallied ?L ?n ?s |- tallied ?L ?n (emit (EResults _ (_reward_count (session ?s))) ?s) =>
      apply tallied_results; exact H
  | H : tallied ?L ?n ?s |- tallied ?L ?n (emit ?e ?s) =>
      apply tallied_emit; [ reflexivity | intros ? ? E; discriminate E | exact H ]
  | H : tallied ?L ?n ?s |- tallied ?L ?n _ => exact H
  end.

Section Tally.

Context (L : list event) (n : Z).

Ltac go := intros ? ?; wp_auto (tallied L n) tallied_tac.

#[local] Instance tallied_collate_spouts idx l acc : Stable (tallied L n) (collate_spouts idx l acc).
Proof. revert idx acc. induction l as [|p l IH]; intros idx acc; simpl; go. Qed.

#[local] Instance tallied_call cb pin : Stable (tallied L n) (call cb pin).
Proof. destruct cb; go. Qed.

#[local] Instance tallied_display_training_results :
  Stable (tallied L n) _display_training_results.
Proof.
  intros s HI. unfold _display_training_results.
  repeat wp_step; try assumption; tallied_tac.
Qed.

#[local] Instance tallied_handle_sigint : Stable (tallied L n) handle_sigint.
Proof. go. Qed.

#[local] Instance tallied_deliver t sg : Stable (tallied L n) (deliver t sg).
Proof.
  intros s HI. unfold deliver.
  wp_cut (tallied L n); [apply wp_modify; tallied_tac| |assumption].
  destruct sg as [e pin|]; [|apply tallied_handle_sigint; assumption].
  wp_cut (tallied L n); [apply wp_modify; tallied_tac| |assumption].
  apply wp_bind, wp_gets; cbv beta iota.
  destruct (detect (gpio _) !! pin) as [[e' cb]|]; [|assumption].
  apply wp_when. destruct (edge_eqb e e'); [|assumption].
  wp_cut (tallied L n); [apply wp_modify; tallied_tac| |assumption].
  apply wp_swallow. apply tallied_call; assumption.
Qed.

#[local] Instance tallied_block d : Stable (tallied L n) (block d).
Proof. go. Qed.

#[local] Instance tallied_time_sleep d : Stable (tallied L n) (time_sleep d).
Proof. go. Qed.

#[local] Instance tallied_wait_for_edge k pin e : Stable (tallied L n) (GPIO_wait_for_edge k pin e).
Proof. revert pin e. induction k as [|k IH]; intros pin e; simpl; go. Qed.

#[local] Instance tallied_wait_for_rest k : Stable (tallied L n) (Real_wait_for_rest k).
Proof. induction k as [|k IH]; simpl; go. Qed.

#[local] Instance tallied_countdown k trial_end now : Stable (tallied L n) (countdown k trial_end now).
Proof. revert now. induction k as [|k IH]; intros now; simpl; go. Qed.

#[local] Instance tallied_rest_and_count_down k : Stable (tallied L n) (rest_and_count_down k).
Proof. induction k as [|k IH]; simpl; go. Qed.

#[local] Instance tallied_await_outcome k cue_end now :
  Stable (tallied L n) (await_outcome k cue_end now).
Proof. revert now. induction k as [|k IH]; intros now; simpl; go. Qed.

#[local] Instance tallied_reward_pause : Stable (tallied L n) reward_pause.
Proof. go. Qed.

(** The one place where the counter moves: right after the announcement. *)
#[local] Instance tallied_trial k : Stable (tallied L n) (_trial k).
Proof.
  intros s HI. unfold _trial.
  wp_auto_to rpi_end_trial (tallied L n) tallied_tac.
  wp_cut (tallied L n); [wp_auto (tallied L n) tallied_tac| |assumption].
  apply wp_bind, wp_gets; cbv beta iota.
  match goal with |- wp (if ?b then _ else _) _ _ => destruct b end.
  - apply wp_bind. unfold say. apply wp_modify; cbv beta iota.
    wp_cut (tallied L n); [apply wp_modify, tallied_success; assumption| |assumption].
    apply tallied_reward_pause; assumption.
  - wp_auto (tallied L n) tallied_tac.
Qed.

#[local] Instance tallied_trials k fuel trial_count now :
  Stable (tallied L n) (trials k fuel trial_count now).
Proof. revert trial_count now. induction k as [|k IH]; intros trial_count now; simpl; go. Qed.

Lemma tallied_run fuel config : stable (tallied L n) (run fuel config).
Proof. go. Qed.

End Tally.

(** The reward counter follows the lines [Successful reach!]: [_trial]
    prints the line and then increments the counter, and nothing else assigns
    it.  So however a session ends, the counter has gone up by the number of
    these lines that [run] printed, or by one less if [run] was stopped
    between a line and its increment; when [run] returns it has gone up by
    exactly that number; and every summary shown, at the end or by the handler
    of SIGINT, gives as correct reaches the counter at the start plus the
    number of these lines printed before the summary, or one less if the
    handler runs between a line and its increment. *)
Theorem summary_shows_successes_announced (fuel : nat) (config : gmap string pyval)
    (s : St) :
  let r := run fuel config s in
  let n0 := _reward_count (session s) in
  exists evs,
    log (fst r) = log s ++ evs /\
    (_reward_count (session (fst r)) <= n0 + Z.of_nat (count is_success evs)
     <= _reward_count (session (fst r)) + 1) /\
    (snd r = Ok tt ->
     _reward_count (session (fst r)) = n0 + Z.of_nat (count is_success evs)) /\
    forall pre t c post,
      evs = pre ++ (EResults t c :: post) ->
      c <= n0 + Z.of_nat (count is_success pre) <= c + 1.
Proof.
  intros r n0.
  destruct (tallied_run (log s) n0 fuel config s (tallied_refl _ s eq_refl))
    as (evs & Hl & Hn & Hs).
  fold r in Hl, Hn. exists evs. split; [exact Hl|]. split; [lia|]. split; [intros _; exact Hn|].
  intros pre t c post E. rewrite (Hs pre t c post E). lia.
Qed.
